(** * DMS coordinate conversion (convert.py): model and verified properties

    The development embeds [convert.py] function by function:

    - Python [str] values are lists of Unicode code points, with the
      Unicode tables that [str.strip], the regular expression class
      [\d], [int] and [float] consult;
    - the three regular expressions of [dms_to_decimal] are values of a
      small regular-expression syntax, run by a greedy backtracking
      matcher with capture groups ([re.search]);
    - Python [float] values are IEEE binary64 numbers (Rocq's primitive
      floats); [int] values are unbounded integers;
    - a Python computation either returns a value or raises an
      exception, and prints lines on standard output on the way.

    The files themselves stay outside: a converter receives what the
    [csv] reader yields (for [convert_firetower_csv] the field names
    and the rows of [csv.DictReader]) and its result is the list it
    returns. Of the write of [convert_firetower_csv], which comes
    before its summary, the model keeps the exceptions that
    [csv.DictWriter] raises on the rows. *)

From Stdlib Require Import String Ascii DecimalString.
From Stdlib Require Import ZArith NArith List Bool Lia.
From Stdlib Require Import Floats.
Import ListNotations.

Local Open Scope Z_scope.

(** ** Python strings *)

(** A [str] is a sequence of code points. *)
Definition codepoint := N.
Definition pystr := list codepoint.

Definition codepoint_of_ascii (a : ascii) : codepoint := N_of_ascii a.

(** ASCII text of the source, as a [str]. *)
Definition lit (s : string) : pystr := map codepoint_of_ascii (list_ascii_of_string s).

Definition chr_degree : codepoint := 176%N.      (* U+00B0, the degree sign *)
Definition chr_apostrophe : codepoint := 39%N.   (* ' *)
Definition chr_dquote : codepoint := 34%N.       (* the double quote *)
Definition chr_dot : codepoint := 46%N.          (* . *)

Definition pystr_eqb (a b : pystr) : bool :=
  if list_eq_dec N.eq_dec a b then true else false.

(** *** Unicode tables (Unicode 14.0, CPython 3.11) *)

(** First code point of every run of ten decimal digits: the characters
    that [\d] matches in a [str] pattern and that [int] and [float]
    read as the digits 0 to 9. *)
Definition decimal_digit_blocks : list N :=
  [48; 1632; 1776; 1984; 2406; 2534; 2662; 2790; 2918; 3046; 3174; 3302;
   3430; 3558; 3664; 3792; 3872; 4160; 4240; 6112; 6160; 6470; 6608; 6784;
   6800; 6992; 7088; 7232; 7248; 42528; 43216; 43264; 43472; 43504; 43600;
   44016; 65296; 66720; 68912; 69734; 69872; 69942; 70096; 70384; 70736;
   70864; 71248; 71360; 71472; 71904; 72016; 72784; 73040; 73120; 92768;
   92864; 93008; 120782; 120792; 120802; 120812; 120822; 123200; 123632;
   125264; 130032]%N.

Fixpoint digit_in_blocks (blocks : list N) (c : codepoint) : option Z :=
  match blocks with
  | [] => None
  | b :: rest =>
      if ((b <=? c) && (c <? b + 10))%N then Some (Z.of_N (c - b))
      else digit_in_blocks rest c
  end.

(** The decimal value of a character, when it is a decimal digit. *)
Definition decimal_value (c : codepoint) : option Z :=
  digit_in_blocks decimal_digit_blocks c.

Definition is_digit (c : codepoint) : bool :=
  match decimal_value c with Some _ => true | None => false end.

(** The characters for which [str.isspace] holds; [str.strip] removes them. *)
Definition whitespace_table : list N :=
  [9; 10; 11; 12; 13; 28; 29; 30; 31; 32; 133; 160; 5760; 8192; 8193; 8194;
   8195; 8196; 8197; 8198; 8199; 8200; 8201; 8202; 8232; 8233; 8239; 8287;
   12288]%N.

Definition is_space (c : codepoint) : bool :=
  existsb (N.eqb c) whitespace_table.

Fixpoint lstrip (s : pystr) : pystr :=
  match s with
  | c :: s' => if is_space c then lstrip s' else s
  | [] => []
  end.

Definition rstrip (s : pystr) : pystr := rev (lstrip (rev s)).

(** [s.strip()] *)
Definition strip (s : pystr) : pystr := rstrip (lstrip s).

(** ** Python numbers *)

(** *** Outcomes *)

Inductive exn : Type :=
| ValueError
| OverflowError
| KeyError
| StopIteration
| TypeError.

Inductive result (A : Type) : Type :=
| Returned (a : A)
| Raised (e : exn).
Arguments Returned {A} a.
Arguments Raised {A} e.

(** *** [int] *)

(** CPython refuses to convert a decimal string of more than 4300
    digits to an [int] (the default of [sys.int_info]). *)
Definition int_max_str_digits : nat := 4300.

Fixpoint digits_value (acc : Z) (s : pystr) : option Z :=
  match s with
  | [] => Some acc
  | c :: s' =>
      match decimal_value c with
      | Some d => digits_value (10 * acc + d) s'
      | None => None
      end
  end.

(** [int(s)] on a string without sign, blanks or underscores. *)
Definition py_int (s : pystr) : result Z :=
  match s with
  | [] => Raised ValueError
  | _ =>
      match digits_value 0 s with
      | None => Raised ValueError
      | Some n =>
          if (int_max_str_digits <? length s)%nat then Raised ValueError
          else Returned n
      end
  end.

(** *** [float]: IEEE binary64 *)

(** The double nearest to [n / d] (ties to even) for [0 <= n] and
    [0 < d]; infinity when the quotient is beyond the largest double.
    The quotient is taken with enough bits for the rounding position to
    fall inside it, the remainder gives the location of the exact value. *)
Definition nearest_double (n d : Z) : float :=
  if n =? 0 then zero
  else
    let k := Z.max 0 (prec + 2 + Z.log2_up d - Z.log2 n) in
    let (q, r) := Z.div_eucl (n * 2 ^ k) d in
    let loc := if r =? 0 then loc_Exact else loc_Inexact (2 * r ?= d) in
    SF2Prim (binary_round_aux prec emax false q (- k) loc).

(** [float(n)] for an [int] [n], as in [n + 0.5]: correctly rounded,
    [OverflowError] when [n] is too large for a double. *)
Definition float_of_int (n : Z) : result float :=
  let f := nearest_double (Z.abs n) 1 in
  if is_infinity f then Raised OverflowError
  else Returned (if n <? 0 then (- f)%float else f).

(** [a / b] on two [int]s with [0 < b]: the correctly rounded quotient,
    [OverflowError] when it is too large for a double. *)
Definition int_true_div (a b : Z) : result float :=
  let f := nearest_double (Z.abs a) b in
  if is_infinity f then Raised OverflowError
  else Returned (if a <? 0 then (- f)%float else f).

(** Splits a string at its leading decimal digits. *)
Fixpoint span_digits (s : pystr) : pystr * pystr :=
  match s with
  | c :: s' =>
      if is_digit c then let (ds, rest) := span_digits s' in (c :: ds, rest)
      else ([], s)
  | [] => ([], [])
  end.

(** [float(s)] on a string made of decimal digits and dots, which is all
    that the third group of the patterns can hold: digits with at most
    one dot and at least one digit denote a number, rounded to the
    nearest double (infinity when too large); anything else is a
    [ValueError]. *)
Definition py_float (s : pystr) : result float :=
  let (ip, rest) := span_digits s in
  let (fp, trailing) :=
    match rest with
    | c :: rest' => if (c =? chr_dot)%N then span_digits rest' else ([], rest)
    | [] => ([], [])
    end in
  match trailing, ip ++ fp with
  | [], _ :: _ =>
      match digits_value 0 (ip ++ fp) with
      | Some n => Returned (nearest_double n (10 ^ Z.of_nat (length fp)))
      | None => Raised ValueError
      end
  | _, _ => Raised ValueError
  end.

(** Quotient of [a] by [b > 0], rounded to the nearest integer, ties to even. *)
Definition div_half_even (a b : Z) : Z :=
  let (q, r) := Z.div_eucl a b in
  match 2 * r ?= b with
  | Lt => q
  | Gt => q + 1
  | Eq => if Z.even q then q else q + 1
  end.

(** [round(x, ndigits)] on a float with [0 <= ndigits]: the exact value
    of [x] is rounded (ties to even) to [ndigits] decimals and the
    decimal obtained is read back as a double; zeros, infinities and NaN
    are returned as they are. *)
Definition py_round (x : float) (ndigits : Z) : float :=
  match Prim2SF x with
  | S754_finite s m e =>
      let scaled := Zpos m * 10 ^ ndigits in
      let n := if 0 <=? e then scaled * 2 ^ e else div_half_even scaled (2 ^ (- e)) in
      let r := if n =? 0 then zero else nearest_double n (10 ^ ndigits) in
      if s then (- r)%float else r
  | _ => x
  end.

(** ** Regular expressions: the part of [re] that the patterns use *)

(** A pattern is a sequence of pieces; a piece is a literal character, a
    character class or a greedy [+] over a class, and may be wrapped in
    a capturing group. *)
Inductive node : Type :=
| Char (c : codepoint)
| Class (cls : codepoint -> bool)
| Repeat1 (cls : codepoint -> bool).

Inductive piece : Type :=
| Group (n : node)
| Bare (n : node).

Definition regex := list piece.

Definition node_of (p : piece) : node :=
  match p with Group n => n | Bare n => n end.

(** A match object: the text of the groups, group 1 first. *)
Definition match_object := list pystr.

Definition capture (p : piece) (text : pystr) (m : option match_object)
  : option match_object :=
  match p, m with
  | Group _, Some groups => Some (text :: groups)
  | _, _ => m
  end.

(** One or more characters of [cls], as many as possible first, giving
    characters back one at a time while the rest of the pattern ([k])
    fails. *)
Fixpoint repeat1 (cls : codepoint -> bool)
    (k : pystr -> pystr -> option match_object)
    (taken s : pystr) : option match_object :=
  match s with
  | c :: s' =>
      if cls c then
        match repeat1 cls k (taken ++ [c]) s' with
        | Some m => Some m
        | None => k (taken ++ [c]) s'
        end
      else None
  | [] => None
  end.

(** The pattern matched at the start of [s]. *)
Fixpoint match_here (re : regex) (s : pystr) : option match_object :=
  match re with
  | [] => Some []
  | p :: re' =>
      let k text rest := capture p text (match_here re' rest) in
      match node_of p with
      | Char c =>
          match s with
          | x :: s' => if (x =? c)%N then k [x] s' else None
          | [] => None
          end
      | Class cls =>
          match s with
          | x :: s' => if cls x then k [x] s' else None
          | [] => None
          end
      | Repeat1 cls => repeat1 cls k [] s
      end
  end.

(** [re.search(pattern, s)]: the match at the leftmost position that has one. *)
Fixpoint search (re : regex) (s : pystr) : option match_object :=
  match match_here re s with
  | Some m => Some m
  | None =>
      match s with
      | _ :: s' => search re s'
      | [] => None
      end
  end.

(** [m.group(i)] for [1 <= i]. *)
Definition group (m : match_object) (i : nat) : pystr := nth (i - 1) m [].

(** ** Computations: a result or an exception, and the lines printed *)

Definition Py (A : Type) : Type := (result A * list pystr)%type.

Definition ret {A} (a : A) : Py A := (Returned a, []).
Definition raise {A} (e : exn) : Py A := (Raised e, []).
Definition lift {A} (r : result A) : Py A := (r, []).
Definition print (line : pystr) : Py unit := (Returned tt, [line]).

Definition bind {A B} (m : Py A) (f : A -> Py B) : Py B :=
  match m with
  | (Returned a, out) => let (r, out') := f a in (r, out ++ out')
  | (Raised e, out) => (Raised e, out)
  end.

Notation "x <- m ;; f" := (bind m (fun x => f))
  (at level 61, m at next level, right associativity).
Notation "m ;;; f" := (bind m (fun _ => f))
  (at level 61, right associativity).

(** [for x in xs: body], threading the variables the body assigns. *)
Fixpoint for_each {A S} (body : A -> S -> Py S) (xs : list A) (vars : S) : Py S :=
  match xs with
  | [] => ret vars
  | x :: xs' => vars' <- body x vars ;; for_each body xs' vars'
  end.

(** ** [dms_to_decimal] *)

Definition is_hemisphere (c : codepoint) : bool :=
  existsb (N.eqb c) [78; 83; 69; 87]%N.          (* [NSEW] *)

Definition is_digit_or_dot (c : codepoint) : bool :=
  is_digit c || (c =? chr_dot)%N.                (* [\d.] *)

(** First pattern, seconds closed by two apostrophes:
    [(\d+)] degree sign [(\d+)'([\d.]+)''([NSEW])] *)
Definition pattern_double_apostrophe : regex :=
  [Group (Repeat1 is_digit); Bare (Char chr_degree);
   Group (Repeat1 is_digit); Bare (Char chr_apostrophe);
   Group (Repeat1 is_digit_or_dot);
   Bare (Char chr_apostrophe); Bare (Char chr_apostrophe);
   Group (Class is_hemisphere)].

(** Second pattern, seconds closed by a double quote:
    [(\d+)] degree sign [(\d+)'([\d.]+)] double quote [([NSEW])] *)
Definition pattern_double_quote : regex :=
  [Group (Repeat1 is_digit); Bare (Char chr_degree);
   Group (Repeat1 is_digit); Bare (Char chr_apostrophe);
   Group (Repeat1 is_digit_or_dot);
   Bare (Char chr_dquote);
   Group (Class is_hemisphere)].

(** Third pattern, seconds closed by one apostrophe:
    [(\d+)] degree sign [(\d+)'([\d.]+)'([NSEW])] *)
Definition pattern_single_apostrophe : regex :=
  [Group (Repeat1 is_digit); Bare (Char chr_degree);
   Group (Repeat1 is_digit); Bare (Char chr_apostrophe);
   Group (Repeat1 is_digit_or_dot);
   Bare (Char chr_apostrophe);
   Group (Class is_hemisphere)].

Definition patterns : list regex :=
  [pattern_double_apostrophe; pattern_double_quote; pattern_single_apostrophe].

(** The loop over [patterns]: the first pattern that [re.search] finds
    in the string ends the loop. *)
Fixpoint first_match (ps : list regex) (s : pystr) : option match_object :=
  match ps with
  | [] => None
  | p :: ps' =>
      match search p s with
      | Some m => Some m
      | None => first_match ps' s
      end
  end.

Definition is_empty (s : pystr) : bool :=
  match s with [] => true | _ => false end.

(** [direction in ['S', 'W']] *)
Definition south_or_west (direction : pystr) : bool :=
  pystr_eqb direction (lit "S") || pystr_eqb direction (lit "W").

Definition dms_to_decimal (dms_string : pystr) : Py (option float) :=
  if is_empty dms_string || is_empty (strip dms_string) then ret None
  else
    let dms_string := strip dms_string in
    match first_match patterns dms_string with
    | None =>
        print (lit "Could not parse: " ++ dms_string) ;;;
        ret None
    | Some m =>
        degrees <- lift (py_int (group m 1)) ;;
        minutes <- lift (py_int (group m 2)) ;;
        seconds <- lift (py_float (group m 3)) ;;
        let direction := group m 4 in
        minutes_60 <- lift (int_true_div minutes 60) ;;
        degrees_f <- lift (float_of_int degrees) ;;
        let decimal := (degrees_f + minutes_60 + seconds / 3600)%float in
        let decimal := if south_or_west direction then (- decimal)%float else decimal in
        ret (Some (py_round decimal 8))
    end.

(** ** [convert_coordinates_file] *)

(** A row of the tab-separated file, as [csv.reader] yields it. *)
Definition csv_row := list pystr.

(** The body of the loop over the rows; [converted_coords] is the list
    the loop appends to. *)
Definition convert_coordinates_row (row : csv_row)
    (converted_coords : list (float * float)) : Py (list (float * float)) :=
  if (2 <=? length row)%nat
     && negb (is_empty (strip (nth 0 row [])))
     && negb (is_empty (strip (nth 1 row [])))
  then
    let lat_dms := strip (nth 0 row []) in
    let lng_dms := strip (nth 1 row []) in
    lat_decimal <- dms_to_decimal lat_dms ;;
    lng_decimal <- dms_to_decimal lng_dms ;;
    match lat_decimal, lng_decimal with
    | Some lat, Some lng => ret (converted_coords ++ [(lat, lng)])
    | _, _ => ret converted_coords
    end
  else ret converted_coords.

(** [table] is what the reader yields for the input file, header
    first; the result is the list [converted_coords] that the function
    writes out and returns. [next(reader)] raises [StopIteration] on a
    file without a header. *)
Definition convert_coordinates_file (table : list csv_row)
  : Py (list (float * float)) :=
  match table with
  | [] => raise StopIteration
  | header :: rows => for_each convert_coordinates_row rows []
  end.

(** ** [convert_coordinate_string] *)

Definition convert_coordinate_string (lat_dms lng_dms : pystr)
  : Py (option float * option float) :=
  lat_decimal <- dms_to_decimal lat_dms ;;
  lng_decimal <- dms_to_decimal lng_dms ;;
  ret (lat_decimal, lng_decimal).

(** ** [convert_firetower_csv] *)

(** A cell of a [csv.DictReader] row: a string, or [None] where the
    line is shorter than the header. *)
Definition cell := option pystr.

(** A row of [csv.DictReader]: a [dict]. [items] holds its string
    keys, in header order, each with its cell. [leftover] is the entry that
    the reader adds, last and under the key [None], for a line with
    more fields than the header: the list of the fields left over. *)
Record record : Type := Dict {
  items : list (pystr * cell);
  leftover : option (list pystr)
}.

Fixpoint items_get (l : list (pystr * cell)) (key : pystr) : result cell :=
  match l with
  | [] => Raised KeyError
  | (k, v) :: l' => if pystr_eqb k key then Returned v else items_get l' key
  end.

Fixpoint items_set (l : list (pystr * cell)) (key : pystr) (value : cell)
  : list (pystr * cell) :=
  match l with
  | [] => [(key, value)]
  | (k, v) :: l' =>
      if pystr_eqb k key then (k, value) :: l'
      else (k, v) :: items_set l' key value
  end.

(** [row[key]] for a string [key] *)
Definition getitem (row : record) (key : pystr) : result cell :=
  items_get (items row) key.

(** [row[key] = value] for a string [key]: an existing key keeps its place. *)
Definition setitem (row : record) (key : pystr) (value : cell) : record :=
  Dict (items_set (items row) key value) (leftover row).

(** [row.keys()]: the string keys, then [None] when the row has the
    entry of the fields left over. *)
Definition keys (row : record) : list (option pystr) :=
  map (fun item => Some (fst item)) (items row)
  ++ match leftover row with Some _ => [None] | None => [] end.

(** The truth value of a cell: [None] and the empty string are false. *)
Definition truthy (v : cell) : bool :=
  match v with
  | Some (_ :: _) => true
  | _ => false
  end.

(** A cell inside an f-string. *)
Definition format_cell (v : cell) : pystr :=
  match v with
  | Some s => s
  | None => lit "None"
  end.

(** *** [csv.DictWriter], as [convert_firetower_csv] sets it up *)

(** [rowdict.keys() - self.fieldnames]: the keys of the row that are
    no field name. The key [None] never is one. *)
Definition wrong_fields (fieldnames : list pystr) (rowdict : record)
  : list (option pystr) :=
  filter (fun key =>
            match key with
            | Some k => negb (existsb (pystr_eqb k) fieldnames)
            | None => true
            end)
    (keys rowdict).

(** [writer.writeheader()]: it zips [fieldnames] with itself, which
    raises [TypeError] when [fieldnames] is [None]; the header row has
    no wrong field. *)
Definition writeheader (fieldnames : option (list pystr)) : Py unit :=
  match fieldnames with
  | None => raise TypeError
  | Some _ => ret tt
  end.

(** [writer._dict_to_list(rowdict)] with [extrasaction] left at
    [raise] and [restval] at the empty string: [ValueError] when the
    row has a wrong field, otherwise the texts to write, one for each
    field name ([None] is written as the empty string). *)
Definition dict_to_list (fieldnames : option (list pystr)) (rowdict : record)
  : Py (list pystr) :=
  match fieldnames with
  | None => raise TypeError
  | Some names =>
      match wrong_fields names rowdict with
      | [] =>
          ret (map (fun key =>
                      match getitem rowdict key with
                      | Returned (Some text) => text
                      | _ => []
                      end) names)
      | _ :: _ => raise ValueError
      end
  end.

(** [writer.writerows(rows)]: the rows go to the file one after the
    other; the file itself is not part of the model. *)
Definition writerows (fieldnames : option (list pystr)) (rowdicts : list record)
  : Py unit :=
  for_each (fun rowdict _ => dict_to_list fieldnames rowdict ;;; ret tt) rowdicts tt.

(** [str(n)] for a count. *)
Definition str_of_count (n : nat) : pystr :=
  lit (DecimalString.NilZero.string_of_uint (Nat.to_uint n)).

Section Firetower.

(** [str(x)] on a float: its shortest decimal form that reads back as [x]. *)
Variable str_of_float : float -> pystr.

(** The variables that the loop of [convert_firetower_csv] assigns. *)
Record counters : Type := Counters {
  rows : list record;
  conversion_count : nat;
  error_count : nat
}.

(** One of the two blocks of the loop body, which differ in the field
    name only ([latitude], then [longitude]). [text] is the cell where
    it is a string: only a cell that is true is stripped, and [None] is
    false. *)
Definition convert_field (field : pystr) (row : record) (conversion_count error_count : nat)
  : Py (record * nat * nat) :=
  value <- lift (getitem row field) ;;
  let text := match value with Some s => s | None => [] end in
  if truthy value && negb (is_empty (strip text)) then
    decimal <- dms_to_decimal (strip text) ;;
    match decimal with
    | Some x =>
        ret (setitem row field (Some (str_of_float x)), S conversion_count, error_count)
    | None =>
        objectid <- lift (getitem row (lit "objectid")) ;;
        print (lit "Warning: Could not convert " ++ field ++ lit " for "
               ++ format_cell objectid ++ lit ": " ++ format_cell value) ;;;
        ret (row, conversion_count, S error_count)
    end
  else ret (row, conversion_count, error_count).

Definition convert_firetower_row (row : record) (vars : counters) : Py counters :=
  after_latitude <-
    convert_field (lit "latitude") row (conversion_count vars) (error_count vars) ;;
  let '(row, conversion_count, error_count) := after_latitude in
  after_longitude <-
    convert_field (lit "longitude") row conversion_count error_count ;;
  let '(row, conversion_count, error_count) := after_longitude in
  ret (Counters (rows vars ++ [row]) conversion_count error_count).

(** [fieldnames] is [reader.fieldnames], the first line of
    [input_file] or [None] for a file without a line, and [reader_rows]
    is what [csv.DictReader] yields for the lines after it; the result
    is the list [rows] that the function writes out and returns. The
    write comes before the summary and can raise: see [writeheader]
    and [writerows]. *)
Definition convert_firetower_csv (input_file : pystr) (output_file : option pystr)
    (fieldnames : option (list pystr)) (reader_rows : list record)
  : Py (list record) :=
  let output_file := match output_file with None => input_file | Some f => f end in
  vars <- for_each convert_firetower_row reader_rows (Counters [] 0 0) ;;
  writeheader fieldnames ;;;
  writerows fieldnames (rows vars) ;;;
  print (lit "Conversion complete!") ;;;
  print (lit "Successfully converted " ++ str_of_count (conversion_count vars)
         ++ lit " coordinate values") ;;;
  print (lit "Errors encountered: " ++ str_of_count (error_count vars)) ;;;
  print (lit "Output saved to: " ++ output_file) ;;;
  ret (rows vars).

End Firetower.

(** * Vocabulary of the properties *)

(** The groups of a match, once the piece [p] has consumed [text]. *)
Definition captured (p : piece) (text : pystr) (m : match_object) : match_object :=
  match p with
  | Group _ => text :: m
  | Bare _ => m
  end.

(** What a pattern matches: the text it consumes and the groups it captures. *)
Inductive matches : regex -> pystr -> match_object -> Prop :=
| matches_nil : matches [] [] []
| matches_char p re c text m :
    node_of p = Char c ->
    matches re text m ->
    matches (p :: re) (c :: text) (captured p [c] m)
| matches_class p re cls c text m :
    node_of p = Class cls ->
    cls c = true ->
    matches re text m ->
    matches (p :: re) (c :: text) (captured p [c] m)
| matches_repeat1 p re cls run text m :
    node_of p = Repeat1 cls ->
    run <> [] ->
    Forall (fun c => cls c = true) run ->
    matches re text m ->
    matches (p :: re) (run ++ text) (captured p run m).

(** How many times the literal [c] stands in the pattern. *)
Definition literal_count (c : codepoint) (re : regex) : nat :=
  length (filter (fun p => match node_of p with
                           | Char x => (x =? c)%N
                           | _ => false
                           end) re).

(** The string goes on with no character of the class. *)
Definition stops (cls : codepoint -> bool) (rest : pystr) : Prop :=
  match rest with
  | [] => True
  | c :: _ => cls c = false
  end.

(** A token in degrees, minutes and seconds: the degrees [D], the
    degree sign, the minutes [M], an apostrophe, the seconds [S], the
    mark [q] that closes the seconds and the hemisphere letter [H]. *)
Definition dms_token (D M S q : pystr) (H : codepoint) : pystr :=
  D ++ [chr_degree] ++ M ++ [chr_apostrophe] ++ S ++ q ++ [H].

(** The three marks that may close the seconds: two apostrophes, a
    double quote, one apostrophe. *)
Definition seconds_marks : list pystr :=
  [[chr_apostrophe; chr_apostrophe]; [chr_dquote]; [chr_apostrophe]].

(** [+x] or [-x] by the hemisphere letter. *)
Definition signed_by (H : codepoint) (x : float) : float :=
  if south_or_west [H] then (- x)%float else x.

(** The token of the source's own check, 33 degrees 47 minutes 40
    seconds north, seconds closed by two apostrophes. *)
Definition token_33_47_40_N : pystr :=
  dms_token (lit "33") (lit "47") (lit "40") [chr_apostrophe; chr_apostrophe] 78%N.

(** A token whose seconds hold two dots: 1 degree 2 minutes 1.2.3 seconds north. *)
Definition token_two_dots : pystr :=
  dms_token (lit "1") (lit "2") (lit "1.2.3") [chr_apostrophe; chr_apostrophe] 78%N.

(** A token whose degrees are 1 followed by 400 zeros. *)
Definition token_huge_degrees : pystr :=
  dms_token (49%N :: repeat 48%N 400) (lit "0") (lit "0")
    [chr_apostrophe; chr_apostrophe] 78%N.

(** Two coordinates in one string, the first with one apostrophe after
    the seconds, the second with two. *)
Definition token_two_coordinates : pystr :=
  dms_token (lit "1") (lit "2") (lit "3") [chr_apostrophe] 78%N
  ++ lit " "
  ++ dms_token (lit "4") (lit "5") (lit "6") [chr_apostrophe; chr_apostrophe] 83%N.

(** What [dms_to_decimal] gives for a token when it returns a number. *)
Definition parsed (token : pystr) : option float :=
  match fst (dms_to_decimal token) with
  | Returned (Some x) => Some x
  | _ => None
  end.

(** [dms_to_decimal] ends with an exception on the token. *)
Definition parse_raises (token : pystr) : bool :=
  match fst (dms_to_decimal token) with
  | Raised _ => true
  | Returned _ => false
  end.

(** The pair of a row: its first two columns, when both parse. *)
Definition row_pair (row : csv_row) : option (float * float) :=
  match row with
  | lat :: lng :: _ =>
      match parsed lat, parsed lng with
      | Some a, Some b => Some (a, b)
      | _, _ => None
      end
  | _ => None
  end.

Definition pair_list (row : csv_row) : list (float * float) :=
  match row_pair row with
  | Some p => [p]
  | None => []
  end.

(** The pairs of the rows whose two tokens both parse, in the order of the rows. *)
Definition pairs_of (rows : list csv_row) : list (float * float) :=
  flat_map pair_list rows.

(** [dms_to_decimal] raises on none of the tokens of the rows. *)
Definition no_token_raises (rows : list csv_row) : Prop :=
  forall row token,
    In row rows -> In token (firstn 2 row) -> parse_raises token = false.

(** A row with fewer than two columns, or with nothing but blanks in
    its first or second column. *)
Definition short_or_blank (row : csv_row) : Prop :=
  (length row < 2)%nat
  \/ strip (nth 0 row []) = []
  \/ strip (nth 1 row []) = [].

(** The record has the key. *)
Definition has_key (row : record) (key : pystr) : Prop :=
  exists v, getitem row key = Returned v.

(** A cell with something left once stripped. *)
Definition filled (v : cell) : bool :=
  match v with
  | Some s => negb (is_empty (strip s))
  | None => false
  end.

(** 1 when the field of the record is filled, 0 otherwise. *)
Definition filled_count (row : record) (key : pystr) : nat :=
  match getitem row key with
  | Returned v => if filled v then 1 else 0
  | Raised _ => 0
  end.

(** The number of filled latitude and longitude fields of the records. *)
Definition filled_fields (records : list record) : nat :=
  list_sum (map (fun row => filled_count row (lit "latitude")
                            + filled_count row (lit "longitude"))%nat records).

(** The record has the three columns the converter reads. *)
Definition well_formed (row : record) : Prop :=
  has_key row (lit "objectid")
  /\ has_key row (lit "latitude")
  /\ has_key row (lit "longitude").

(** [dms_to_decimal] raises on neither coordinate of the record. *)
Definition cells_parse (row : record) : Prop :=
  forall key s,
    In key [lit "latitude"; lit "longitude"] ->
    getitem row key = Returned (Some s) ->
    parse_raises s = false.

(** The same keys in the same order, the same fields left over, and
    the same cells under every key but [latitude] and [longitude]. *)
Definition same_frame (row row' : record) : Prop :=
  keys row' = keys row
  /\ leftover row' = leftover row
  /\ forall key,
       key <> lit "latitude" -> key <> lit "longitude" ->
       getitem row' key = getitem row key.

(** [csv.DictWriter] accepts the records: there are field names, and
    every key of every record is one of them. For the rows of
    [csv.DictReader] this says that the file has a header line and no
    line with more fields than the header. *)
Definition writable (fieldnames : option (list pystr)) (records : list record)
  : Prop :=
  exists names,
    fieldnames = Some names
    /\ Forall (fun row => wrong_fields names row = []) records.

(** A filled coordinate that does not parse is in [row'] as it was in [row]. *)
Definition failures_kept (row row' : record) : Prop :=
  forall key s,
    In key [lit "latitude"; lit "longitude"] ->
    getitem row key = Returned (Some s) ->
    filled (Some s) = true ->
    parsed s = None ->
    getitem row' key = Returned (Some s).

(** The four lines printed at the end of [convert_firetower_csv]. *)
Definition summary (conversion_count error_count : nat) (output_file : pystr)
  : list pystr :=
  [lit "Conversion complete!";
   lit "Successfully converted " ++ str_of_count conversion_count
     ++ lit " coordinate values";
   lit "Errors encountered: " ++ str_of_count error_count;
   lit "Output saved to: " ++ output_file].

(** Text for a float where a run of [convert_firetower_csv] is
    computed; no property depends on which text it is. *)
Definition float_text (x : float) : pystr := lit "<float>".

Definition token_89_05_27_W : pystr :=
  dms_token (lit "89") (lit "05") (lit "27") [chr_apostrophe; chr_apostrophe] 87%N.

(** The second check of the source: seconds closed by a double quote. *)
Definition token_32_19_12_8_N : pystr :=
  dms_token (lit "32") (lit "19") (lit "12.8") [chr_dquote] 78%N.

Definition token_89_40_01_0_W : pystr :=
  dms_token (lit "89") (lit "40") (lit "01.0") [chr_dquote] 87%N.

(** Rows of a coordinates file: a pair that parses, a row of one
    column, a row with a blank column, a row with a token that does
    not parse. *)
Definition example_rows : list csv_row :=
  [[token_33_47_40_N; token_89_05_27_W];
   [token_33_47_40_N];
   [token_33_47_40_N; lit "  "; lit "x"];
   [lit "garbage"; token_89_05_27_W]].

(** Records of a firetower file: one with a latitude that parses and a
    longitude that does not, one with a blank latitude and no longitude. *)
Definition example_records : list record :=
  [Dict [(lit "objectid", Some (lit "7")); (lit "name", Some (lit "Ackerman"));
         (lit "latitude", Some token_33_47_40_N);
         (lit "longitude", Some (lit " junk "))] None;
   Dict [(lit "objectid", Some (lit "8")); (lit "name", Some (lit "Bude"));
         (lit "latitude", Some (lit "  ")); (lit "longitude", None)] None].

(** The header of the file of the example records. *)
Definition example_fieldnames : option (list pystr) :=
  Some [lit "objectid"; lit "name"; lit "latitude"; lit "longitude"].

(** The header of the files of the other records. *)
Definition coordinate_fieldnames : option (list pystr) :=
  Some [lit "objectid"; lit "latitude"; lit "longitude"].

(** A record whose latitude does not parse, and a record whose
    latitude is the token with the huge degrees. *)
Definition records_with_overflow : list record :=
  [Dict [(lit "objectid", Some (lit "1")); (lit "latitude", Some (lit "garbage"));
         (lit "longitude", Some token_89_05_27_W)] None;
   Dict [(lit "objectid", Some (lit "2")); (lit "latitude", Some token_huge_degrees);
         (lit "longitude", Some token_89_05_27_W)] None].

(** A record whose longitude is the token with two dots in the seconds. *)
Definition records_with_two_dots : list record :=
  [Dict [(lit "objectid", Some (lit "1")); (lit "latitude", Some token_33_47_40_N);
         (lit "longitude", Some token_two_dots)] None].

(** ** Vocabulary of the further properties *)

(** The string holds one of the letters N, S, E, W. *)
Definition has_hemisphere (s : pystr) : bool := existsb is_hemisphere s.

(** What [dms_to_decimal] prints on a string in which no pattern is found. *)
Definition not_parsed_report (s : pystr) : list pystr :=
  if is_empty (strip s) then [] else [lit "Could not parse: " ++ strip s].

(** What a row of a coordinates file gives, from the two results of
    [convert_coordinate_string]. *)
Definition pair_of_results (results : option float * option float)
  : list (float * float) :=
  match results with
  | (Some lat, Some lng) => [(lat, lng)]
  | _ => []
  end.

(** The cell of a key of the record, [None] too when the key is absent. *)
Definition cell_of (row : record) (key : pystr) : cell :=
  match getitem row key with
  | Returned v => v
  | Raised _ => None
  end.

(** A filled cell that [dms_to_decimal] turns into a number. *)
Definition cell_parses (v : cell) : bool :=
  match v with
  | Some s => filled v && match parsed s with Some _ => true | None => false end
  | None => false
  end.

(** A filled cell for which [dms_to_decimal] gives [None]. *)
Definition cell_fails (v : cell) : bool :=
  match v with
  | Some s => filled v && match parsed s with Some _ => false | None => true end
  | None => false
  end.

Section Converted.

Variable str_of_float : float -> pystr.

(** What the converter leaves in a coordinate cell: the text of the
    number when the cell is filled and parses, the cell itself otherwise. *)
Definition converted_cell (v : cell) : cell :=
  match v with
  | Some s =>
      if filled v then
        match parsed s with
        | Some x => Some (str_of_float x)
        | None => v
        end
      else v
  | None => v
  end.

(** The record with its two coordinate cells converted. *)
Definition converted_record (row : record) : record :=
  let row1 := setitem row (lit "latitude")
                (converted_cell (cell_of row (lit "latitude"))) in
  setitem row1 (lit "longitude") (converted_cell (cell_of row (lit "longitude"))).

End Converted.

(** How many coordinate cells of the records pass the test. *)
Definition count_cells (test : cell -> bool) (records : list record) : nat :=
  list_sum
    (map (fun row =>
            (if test (cell_of row (lit "latitude")) then 1 else 0)
            + (if test (cell_of row (lit "longitude")) then 1 else 0))%nat
       records).

(** The two lines printed for a coordinate cell that fails: the line of
    [dms_to_decimal] and the warning, which names the record by its
    [objectid] and shows the cell as it was read. *)
Definition field_report (key : pystr) (row : record) : list pystr :=
  if cell_fails (cell_of row key) then
    [lit "Could not parse: " ++ strip (format_cell (cell_of row key));
     lit "Warning: Could not convert " ++ key ++ lit " for "
       ++ format_cell (cell_of row (lit "objectid")) ++ lit ": "
       ++ format_cell (cell_of row key)]
  else [].

Definition record_report (row : record) : list pystr :=
  field_report (lit "latitude") row ++ field_report (lit "longitude") row.

(** The record lacks the key. *)
Definition lacks_key (row : record) (key : pystr) : Prop :=
  getitem row key = Raised KeyError.

(** A record that the converter can read: it has the two coordinate
    columns, and [objectid] too if one of the coordinates fails. *)
Definition readable (row : record) : Prop :=
  has_key row (lit "latitude")
  /\ has_key row (lit "longitude")
  /\ (cell_fails (cell_of row (lit "latitude")) = true
      \/ cell_fails (cell_of row (lit "longitude")) = true ->
      has_key row (lit "objectid")).

(** A record without [objectid] whose latitude parses and whose
    longitude is empty, and one whose longitude does not parse. *)
Definition record_without_objectid : record :=
  Dict [(lit "name", Some (lit "Ackerman"));
        (lit "latitude", Some token_33_47_40_N); (lit "longitude", Some [])] None.

Definition record_without_objectid_failing : record :=
  Dict [(lit "name", Some (lit "Bude"));
        (lit "latitude", Some token_33_47_40_N);
        (lit "longitude", Some (lit "west"))] None.

(** The header and the records of a file without an [objectid]
    column: no coordinate of theirs fails. *)
Definition name_fieldnames : option (list pystr) :=
  Some [lit "name"; lit "latitude"; lit "longitude"].

Definition records_without_objectid : list record :=
  [record_without_objectid;
   Dict [(lit "name", Some (lit "Chunky"));
         (lit "latitude", Some token_32_19_12_8_N);
         (lit "longitude", Some token_89_40_01_0_W)] None].

(** A record without the latitude column. *)
Definition record_without_latitude : record :=
  Dict [(lit "objectid", Some (lit "3")); (lit "longitude", Some token_89_05_27_W)]
    None.

(** A record that has no [longitude] column and a latitude that does
    not parse. *)
Definition record_without_longitude : record :=
  Dict [(lit "objectid", Some (lit "4")); (lit "latitude", Some (lit "north"))] None.

(** The records of a file under the header objectid, latitude,
    longitude whose second line has a fourth field. *)
Definition records_with_leftover : list record :=
  [Dict [(lit "objectid", Some (lit "1")); (lit "latitude", Some (lit "garbage"));
         (lit "longitude", Some token_89_05_27_W)] None;
   Dict [(lit "objectid", Some (lit "2")); (lit "latitude", Some token_33_47_40_N);
         (lit "longitude", Some token_89_05_27_W)] (Some [lit "note"])].

(** The result of [dms_to_decimal] with the sign of its number changed. *)
Definition opposite (x : option float) : option float :=
  match x with
  | Some x => Some (- x)%float
  | None => None
  end.

(** What the three patterns share: the degrees, the degree sign, the
    minutes, an apostrophe and the seconds. *)
Definition pattern_head : regex :=
  [Group (Repeat1 is_digit); Bare (Char chr_degree);
   Group (Repeat1 is_digit); Bare (Char chr_apostrophe);
   Group (Repeat1 is_digit_or_dot)].

(** The line that [dms_to_decimal] prints for one of the first two
    columns of one of the rows. *)
Definition parse_line_of (rows : list csv_row) (line : pystr) : Prop :=
  exists row token,
    In row rows /\ In token (firstn 2 row) /\ strip token <> []
    /\ line = lit "Could not parse: " ++ strip token.

(** The exceptions that [dms_to_decimal] lets through. *)
Definition number_error (e : exn) : Prop := e = ValueError \/ e = OverflowError.

(** A line printed inside the loop of [convert_firetower_csv]: the
    line of [dms_to_decimal] or the warning that follows it. *)
Definition loop_line (line : pystr) : Prop :=
  exists s, line = lit "Could not parse: " ++ s
            \/ line = lit "Warning: Could not convert " ++ s.

(** What [dms_to_decimal] prints on a token on which it does not raise. *)
Definition token_report (token : pystr) : list pystr :=
  match parsed token with
  | Some _ => []
  | None => not_parsed_report token
  end.

(** What a turn of the loop of [convert_coordinates_file] prints on a
    row on which it does not raise. *)
Definition row_report (row : csv_row) : list pystr :=
  match row with
  | lat :: lng :: _ =>
      if is_empty (strip lat) || is_empty (strip lng) then []
      else token_report lat ++ token_report lng
  | _ => []
  end.

(** *** [csv.DictReader], as [convert_firetower_csv] sets it up *)

(** [dict(zip(fieldnames, row))], started from [d]: a name that comes
    twice keeps its first place and takes the later field. *)
Fixpoint dict_of_zip (fieldnames : list pystr) (row : csv_row)
    (d : list (pystr * cell)) : list (pystr * cell) :=
  match fieldnames, row with
  | key :: fieldnames', field :: row' =>
      dict_of_zip fieldnames' row' (items_set d key (Some field))
  | _, _ => d
  end.

(** The row that the reader makes of a line: the fields under the
    field names; the fields left over under the key [None] when the
    line is longer than the header; [None] under the names left over
    when it is shorter. *)
Definition reader_row (fieldnames : list pystr) (row : csv_row) : record :=
  let d := dict_of_zip fieldnames row [] in
  let lf := length fieldnames in
  let lr := length row in
  if (lf <? lr)%nat then Dict d (Some (skipn lf row))
  else Dict (fold_left (fun d key => items_set d key None) (skipn lr fieldnames) d)
         None.

(** [reader.fieldnames] and the rows of the reader, for the lines that
    [csv.reader] yields: the first line gives the field names, the
    empty lines after it are passed over. *)
Definition DictReader (table : list csv_row) : option (list pystr) * list record :=
  match table with
  | [] => (None, [])
  | header :: lines =>
      (Some header,
       map (reader_row header)
         (filter (fun row => match row with [] => false | _ :: _ => true end) lines))
  end.


(** * Properties *)

(** ** Strings *)

Lemma pystr_eqb_eq (a b : pystr) : pystr_eqb a b = true <-> a = b.
Proof.
  unfold pystr_eqb. destruct (list_eq_dec N.eq_dec a b); split; congruence.
Qed.

Lemma pystr_eqb_refl (a : pystr) : pystr_eqb a a = true.
Proof. now apply pystr_eqb_eq. Qed.

Lemma pystr_eqb_neq (a b : pystr) : a <> b -> pystr_eqb a b = false.
Proof.
  intros H. destruct (pystr_eqb a b) eqn:E; [ | reflexivity ].
  apply pystr_eqb_eq in E. contradiction.
Qed.

Lemma is_empty_nil (s : pystr) : is_empty s = true <-> s = [].
Proof. destruct s; simpl; split; congruence. Qed.

Lemma lstrip_app_keep (u : pystr) (c : codepoint) :
  is_space c = false -> lstrip (u ++ [c]) = lstrip u ++ [c].
Proof.
  intros Hc. induction u as [ | x u IH ]; simpl.
  - now rewrite Hc.
  - destruct (is_space x); [ exact IH | reflexivity ].
Qed.

Lemma rstrip_cons_keep (c : codepoint) (t : pystr) :
  is_space c = false -> rstrip (c :: t) = c :: rstrip t.
Proof.
  intros Hc. unfold rstrip. simpl rev.
  rewrite lstrip_app_keep by assumption.
  rewrite rev_app_distr. reflexivity.
Qed.

Lemma lstrip_head (s : pystr) :
  lstrip s = [] \/ exists c t, lstrip s = c :: t /\ is_space c = false.
Proof.
  induction s as [ | x s IH ]; simpl.
  - now left.
  - destruct (is_space x) eqn:E; [ exact IH | right; eauto ].
Qed.

Lemma lstrip_idem (s : pystr) : lstrip (lstrip s) = lstrip s.
Proof.
  destruct (lstrip_head s) as [ -> | (c & t & -> & Hc) ]; simpl.
  - reflexivity.
  - now rewrite Hc.
Qed.

Lemma rstrip_idem (s : pystr) : rstrip (rstrip s) = rstrip s.
Proof.
  unfold rstrip. now rewrite rev_involutive, lstrip_idem.
Qed.

(** Stripping a stripped string changes nothing. *)
Lemma strip_idem (s : pystr) : strip (strip s) = strip s.
Proof.
  unfold strip.
  destruct (lstrip_head s) as [ -> | (c & t & -> & Hc) ].
  - reflexivity.
  - rewrite rstrip_cons_keep by assumption. simpl lstrip. rewrite Hc.
    rewrite <- rstrip_cons_keep by assumption. apply rstrip_idem.
Qed.

Lemma lstrip_all_space (s : pystr) :
  Forall (fun c => is_space c = true) s <-> lstrip s = [].
Proof.
  induction s as [ | x s IH ]; simpl.
  - split; auto.
  - destruct (is_space x) eqn:E.
    + rewrite <- IH. split; intros H.
      * now inversion H.
      * now constructor.
    + split; intros H; [ inversion H; congruence | discriminate ].
Qed.

(** A string strips to nothing exactly when it is blank. *)
Lemma strip_all_space (s : pystr) :
  Forall (fun c => is_space c = true) s <-> strip s = [].
Proof.
  unfold strip. split.
  - intros H. apply lstrip_all_space in H. now rewrite H.
  - intros H. apply lstrip_all_space.
    destruct (lstrip_head s) as [ E | (c & t & E & Hc) ]; [ exact E | ].
    rewrite E in H. rewrite rstrip_cons_keep in H by assumption. discriminate.
Qed.

(** A string that neither starts nor ends with a blank is its own strip. *)
Lemma strip_fixed (c z : codepoint) (mid : pystr) :
  is_space c = false -> is_space z = false ->
  strip (c :: mid ++ [z]) = c :: mid ++ [z].
Proof.
  intros Hc Hz. unfold strip. simpl lstrip. rewrite Hc.
  rewrite rstrip_cons_keep by assumption. f_equal.
  unfold rstrip. rewrite rev_app_distr. simpl. rewrite Hz.
  change (z :: rev mid) with ([z] ++ rev mid).
  rewrite rev_app_distr, rev_involutive. reflexivity.
Qed.

(** The characters of [strip s] are characters of [s]. *)
Lemma lstrip_incl (s : pystr) (c : codepoint) : In c (lstrip s) -> In c s.
Proof.
  induction s as [ | x s IH ]; simpl; [ tauto | ].
  destruct (is_space x); simpl; tauto.
Qed.

Lemma strip_incl (s : pystr) (c : codepoint) : In c (strip s) -> In c s.
Proof.
  unfold strip, rstrip. intros H.
  apply lstrip_incl. apply in_rev in H. apply lstrip_incl in H.
  now apply in_rev in H.
Qed.

(** ** Computations *)

Lemma bind_ret_l {A B} (a : A) (f : A -> Py B) : bind (ret a) f = f a.
Proof. unfold bind, ret. now destruct (f a). Qed.

Lemma bind_ret_r {A} (m : Py A) : bind m ret = m.
Proof.
  destruct m as [ [ a | e ] out ]; simpl; [ | reflexivity ].
  now rewrite app_nil_r.
Qed.

Lemma bind_assoc {A B C} (m : Py A) (f : A -> Py B) (g : B -> Py C) :
  bind (bind m f) g = bind m (fun a => bind (f a) g).
Proof.
  destruct m as [ [ a | e ] out ]; simpl; [ | reflexivity ].
  destruct (f a) as [ [ b | e ] out' ]; simpl; [ | reflexivity ].
  destruct (g b) as [ r out'' ]. now rewrite app_assoc.
Qed.

Lemma bind_returned {A B} (m : Py A) (f : A -> Py B) (a : A) (out : list pystr) :
  m = (Returned a, out) -> bind m f = (fst (f a), out ++ snd (f a)).
Proof. intros ->. simpl. now destruct (f a). Qed.

Lemma bind_raised {A B} (m : Py A) (f : A -> Py B) (e : exn) (out : list pystr) :
  m = (Raised e, out) -> bind m f = (Raised e, out).
Proof. now intros ->. Qed.

(** A sequence returns only if its first part does. *)
Lemma bind_inv {A B} (m : Py A) (f : A -> Py B) (b : B) (out : list pystr) :
  bind m f = (Returned b, out) ->
  exists a out1 out2,
    m = (Returned a, out1) /\ f a = (Returned b, out2) /\ out = out1 ++ out2.
Proof.
  destruct m as [ [ a | e ] out1 ]; simpl; [ | discriminate ].
  destruct (f a) as [ r out2 ] eqn:E. intros H. inversion H; subst.
  now exists a, out1, out2.
Qed.

Lemma bind_ext {A B} (m : Py A) (f g : A -> Py B) :
  (forall a, f a = g a) -> bind m f = bind m g.
Proof.
  intros H. destruct m as [ [ a | e ] out ]; simpl; [ | reflexivity ].
  now rewrite H.
Qed.

Lemma for_each_app {A S} (body : A -> S -> Py S) (xs ys : list A) (vars : S) :
  for_each body (xs ++ ys) vars =
  bind (for_each body xs vars) (for_each body ys).
Proof.
  revert vars. induction xs as [ | x xs IH ]; intros vars.
  - symmetry. apply bind_ret_l.
  - cbn [for_each app]. rewrite bind_assoc. apply bind_ext. intros v. apply IH.
Qed.

(** ** Regular expressions *)

Lemma capture_some (p : piece) (text : pystr) (r : option match_object) (m : match_object) :
  capture p text r = Some m -> exists m', r = Some m' /\ m = captured p text m'.
Proof.
  unfold capture, captured. destruct p, r; intros H; inversion H; eauto.
Qed.

Lemma capture_captured (p : piece) (text : pystr) (m : match_object) :
  capture p text (Some m) = Some (captured p text m).
Proof. now destruct p. Qed.

Lemma repeat1_sound cls k (s : pystr) :
  forall taken m,
    repeat1 cls k taken s = Some m ->
    exists run rest,
      run <> [] /\ Forall (fun c => cls c = true) run /\ s = run ++ rest
      /\ k (taken ++ run) rest = Some m.
Proof.
  induction s as [ | c s IH ]; intros taken m; simpl; [ discriminate | ].
  destruct (cls c) eqn:Hc; [ | discriminate ].
  destruct (repeat1 cls k (taken ++ [c]) s) as [ m0 | ] eqn:E.
  - intros H. inversion H; subst m0.
    destruct (IH _ _ E) as (run & rest & Hne & Hall & -> & Hk).
    exists (c :: run), rest. repeat split.
    + discriminate.
    + now constructor.
    + now rewrite <- app_assoc in Hk.
  - intros H. exists [c], s. repeat split.
    + discriminate.
    + now constructor.
    + exact H.
Qed.

(** The matcher only reports matches of the pattern, on a prefix of the string. *)
Lemma match_here_sound (re : regex) :
  forall s m,
    match_here re s = Some m ->
    exists text rest, s = text ++ rest /\ matches re text m.
Proof.
  induction re as [ | p re IH ]; intros s m; simpl.
  - intros H. inversion H. exists [], s. split; [ reflexivity | constructor ].
  - destruct (node_of p) as [ c | cls | cls ] eqn:Hp.
    + destruct s as [ | x s ]; [ discriminate | ].
      destruct (N.eqb_spec x c) as [ -> | ]; [ | discriminate ].
      intros H. apply capture_some in H as (m' & H & ->).
      destruct (IH _ _ H) as (text & rest & -> & Hm).
      exists (c :: text), rest. split; [ reflexivity | ].
      now apply matches_char.
    + destruct s as [ | x s ]; [ discriminate | ].
      destruct (cls x) eqn:Hx; [ | discriminate ].
      intros H. apply capture_some in H as (m' & H & ->).
      destruct (IH _ _ H) as (text & rest & -> & Hm).
      exists (x :: text), rest. split; [ reflexivity | ].
      now apply matches_class with (cls := cls).
    + intros H. apply repeat1_sound in H as (run & rest0 & Hne & Hall & -> & H).
      simpl in H. apply capture_some in H as (m' & H & ->).
      destruct (IH _ _ H) as (text & rest & -> & Hm).
      exists (run ++ text), rest. split; [ now rewrite app_assoc | ].
      now apply matches_repeat1 with (cls := cls).
Qed.

(** A successful search found a match of the pattern inside the string. *)
Lemma search_sound (re : regex) (s : pystr) :
  forall m,
    search re s = Some m ->
    exists before text rest, s = before ++ text ++ rest /\ matches re text m.
Proof.
  induction s as [ | x s IH ]; intros m; simpl.
  - destruct (match_here re []) as [ m0 | ] eqn:E; [ | discriminate ].
    intros H. inversion H; subst m0.
    apply match_here_sound in E as (text & rest & E & Hm).
    now exists [], text, rest.
  - destruct (match_here re (x :: s)) as [ m0 | ] eqn:E.
    + intros H. inversion H; subst m0.
      apply match_here_sound in E as (text & rest & E & Hm).
      now exists [], text, rest.
    + intros H. destruct (IH _ H) as (before & text & rest & -> & Hm).
      now exists (x :: before), text, rest.
Qed.

Lemma search_here (re : regex) (s : pystr) (m : match_object) :
  match_here re s = Some m -> search re s = Some m.
Proof. intros H. destruct s; simpl; now rewrite H. Qed.

(** A class of the pattern is matched by some character of the text. *)
Lemma matches_class_char (re : regex) (text : pystr) (m : match_object) :
  matches re text m ->
  forall p cls, In p re -> node_of p = Class cls ->
  exists c, In c text /\ cls c = true.
Proof.
  induction 1 as [ | p0 re c text m Hp0 _ IH | p0 re cls0 c text m Hp0 Hc _ IH
                 | p0 re cls0 run text m Hp0 _ _ _ IH ];
    intros p cls Hin Hp.
  - destruct Hin.
  - destruct Hin as [ -> | Hin ]; [ congruence | ].
    destruct (IH _ _ Hin Hp) as (x & Hx & Hcls). exists x. simpl. auto.
  - destruct Hin as [ -> | Hin ].
    + rewrite Hp0 in Hp. inversion Hp; subst. exists c. simpl. auto.
    + destruct (IH _ _ Hin Hp) as (x & Hx & Hcls). exists x. simpl. auto.
  - destruct Hin as [ -> | Hin ]; [ congruence | ].
    destruct (IH _ _ Hin Hp) as (x & Hx & Hcls). exists x.
    split; [ apply in_or_app; now right | assumption ].
Qed.

(** The text of a match holds every literal of the pattern. *)
Lemma matches_literals (re : regex) (text : pystr) (m : match_object) (c : codepoint) :
  matches re text m ->
  (literal_count c re <= count_occ N.eq_dec text c)%nat.
Proof.
  unfold literal_count.
  induction 1 as [ | p0 re x text m Hp0 _ IH | p0 re cls0 x text m Hp0 Hc _ IH
                 | p0 re cls0 run text m Hp0 _ _ _ IH ]; simpl.
  - lia.
  - rewrite Hp0. destruct (N.eqb_spec x c) as [ -> | Hne ]; simpl.
    + destruct (N.eq_dec c c); [ lia | congruence ].
    + destruct (N.eq_dec x c); lia.
  - rewrite Hp0. destruct (N.eq_dec x c); lia.
  - rewrite Hp0. rewrite count_occ_app.
    etransitivity; [ exact IH | apply Nat.le_add_l ].
Qed.

Lemma search_literals (re : regex) (s : pystr) (m : match_object) (c : codepoint) :
  search re s = Some m ->
  (literal_count c re <= count_occ N.eq_dec s c)%nat.
Proof.
  intros H. apply search_sound in H as (before & text & rest & -> & Hm).
  apply matches_literals with (c := c) in Hm.
  rewrite !count_occ_app. unfold codepoint in *. lia.
Qed.

Lemma search_class_char (re : regex) (s : pystr) (m : match_object) p cls :
  search re s = Some m -> In p re -> node_of p = Class cls ->
  exists c, In c s /\ cls c = true.
Proof.
  intros H Hin Hp. apply search_sound in H as (before & text & rest & -> & Hm).
  destruct (matches_class_char _ _ _ Hm _ _ Hin Hp) as (c & Hc & Hcls).
  exists c. split; [ | assumption ].
  apply in_or_app. right. apply in_or_app. now left.
Qed.

Lemma repeat1_stops cls k taken rest :
  stops cls rest -> repeat1 cls k taken rest = None.
Proof. destruct rest as [ | c rest ]; simpl; [ reflexivity | now intros -> ]. Qed.

(** On a whole run of the class the greedy repetition takes the run. *)
Lemma repeat1_run cls k (run : pystr) :
  forall taken rest m,
    run <> [] ->
    Forall (fun c => cls c = true) run ->
    stops cls rest ->
    k (taken ++ run) rest = Some m ->
    repeat1 cls k taken (run ++ rest) = Some m.
Proof.
  induction run as [ | c run IH ]; intros taken rest m Hne Hall Hstop Hk.
  - congruence.
  - inversion Hall as [ | ? ? Hc Hall' ]; subst. simpl. rewrite Hc.
    destruct run as [ | c' run ].
    + simpl. rewrite repeat1_stops by assumption. exact Hk.
    + rewrite (IH (taken ++ [c]) rest m); try assumption; try discriminate.
      * reflexivity.
      * now rewrite <- app_assoc.
Qed.

Lemma match_here_repeat1 (p : piece) cls (re : regex) (run rest : pystr) (m : match_object) :
  node_of p = Repeat1 cls ->
  run <> [] ->
  Forall (fun c => cls c = true) run ->
  stops cls rest ->
  match_here re rest = Some m ->
  match_here (p :: re) (run ++ rest) = Some (captured p run m).
Proof.
  intros Hp Hne Hall Hstop Hm. simpl. rewrite Hp.
  apply repeat1_run; try assumption.
  simpl. rewrite Hm. apply capture_captured.
Qed.

Lemma match_here_char (p : piece) (c : codepoint) (re : regex) (rest : pystr) (m : match_object) :
  node_of p = Char c ->
  match_here re rest = Some m ->
  match_here (p :: re) (c :: rest) = Some (captured p [c] m).
Proof.
  intros Hp Hm. simpl. rewrite Hp, N.eqb_refl, Hm. apply capture_captured.
Qed.

Lemma match_here_class (p : piece) cls (c : codepoint) (re : regex) (rest : pystr) (m : match_object) :
  node_of p = Class cls ->
  cls c = true ->
  match_here re rest = Some m ->
  match_here (p :: re) (c :: rest) = Some (captured p [c] m).
Proof.
  intros Hp Hc Hm. simpl. rewrite Hp, Hc, Hm. apply capture_captured.
Qed.

(** ** Characters of a DMS token *)

Lemma is_space_table (c : codepoint) : is_space c = true -> In c whitespace_table.
Proof.
  unfold is_space. intros H. apply existsb_exists in H as (x & Hin & Heq).
  apply N.eqb_eq in Heq. now subst.
Qed.

Lemma is_hemisphere_letter (c : codepoint) :
  is_hemisphere c = true -> In c [78; 83; 69; 87]%N.
Proof.
  unfold is_hemisphere. intros H. apply existsb_exists in H as (x & Hin & Heq).
  apply N.eqb_eq in Heq. now subst.
Qed.

Ltac each_member H :=
  simpl in H;
  repeat (destruct H as [ <- | H ]; [ vm_compute; try reflexivity; try discriminate | ]);
  try contradiction.

Lemma space_not_digit (c : codepoint) : is_space c = true -> is_digit c = false.
Proof. intros H. apply is_space_table in H. each_member H. Qed.

Lemma digit_not_space (c : codepoint) : is_digit c = true -> is_space c = false.
Proof.
  intros H. destruct (is_space c) eqn:E; [ | reflexivity ].
  apply space_not_digit in E. congruence.
Qed.

Lemma hemisphere_not_space (c : codepoint) : is_hemisphere c = true -> is_space c = false.
Proof. intros H. apply is_hemisphere_letter in H. each_member H. Qed.

Lemma hemisphere_not_digit_or_dot (c : codepoint) :
  is_hemisphere c = true -> is_digit_or_dot c = false.
Proof. intros H. apply is_hemisphere_letter in H. each_member H. Qed.

Lemma hemisphere_not_apostrophe (c : codepoint) :
  is_hemisphere c = true -> c <> chr_apostrophe.
Proof. intros H. apply is_hemisphere_letter in H. each_member H. Qed.

Lemma hemisphere_not_dquote (c : codepoint) :
  is_hemisphere c = true -> c <> chr_dquote.
Proof. intros H. apply is_hemisphere_letter in H. each_member H. Qed.

Lemma digit_is_digit_or_dot (c : codepoint) :
  is_digit c = true -> is_digit_or_dot c = true.
Proof. unfold is_digit_or_dot. now intros ->. Qed.

Lemma digit_or_dot_cases (c : codepoint) :
  is_digit_or_dot c = true -> is_digit c = true \/ c = chr_dot.
Proof.
  unfold is_digit_or_dot. intros H. apply orb_true_iff in H as [ H | H ]; auto.
  apply N.eqb_eq in H. auto.
Qed.

Lemma digit_or_dot_not_hemisphere (c : codepoint) :
  is_digit_or_dot c = true -> is_hemisphere c = false.
Proof.
  intros H. destruct (is_hemisphere c) eqn:E; [ | reflexivity ].
  apply hemisphere_not_digit_or_dot in E. congruence.
Qed.

(** No character of a class is the character [c], which is outside it. *)
Lemma count_occ_class cls (c : codepoint) (s : pystr) :
  cls c = false -> Forall (fun x => cls x = true) s -> count_occ N.eq_dec s c = 0%nat.
Proof.
  intros Hc Hall. apply count_occ_not_In. intros Hin.
  rewrite Forall_forall in Hall. apply Hall in Hin. congruence.
Qed.

Lemma digits_are_digits_or_dots (s : pystr) :
  Forall (fun c => is_digit c = true) s -> Forall (fun c => is_digit_or_dot c = true) s.
Proof. apply Forall_impl. exact digit_is_digit_or_dot. Qed.

(** ** Numerals *)

Lemma digits_value_digits (s : pystr) :
  forall acc n, digits_value acc s = Some n -> Forall (fun c => is_digit c = true) s.
Proof.
  induction s as [ | c s IH ]; intros acc n; simpl.
  - constructor.
  - unfold is_digit. destruct (decimal_value c) as [ d | ] eqn:E; [ | discriminate ].
    intros H. constructor; [ now rewrite E | eauto ].
Qed.

(** [int] accepts non-empty strings of decimal digits only. *)
Lemma py_int_digits (s : pystr) (n : Z) :
  py_int s = Returned n -> s <> [] /\ Forall (fun c => is_digit c = true) s.
Proof.
  unfold py_int. destruct s as [ | c s ]; [ discriminate | ].
  destruct (digits_value 0 (c :: s)) as [ v | ] eqn:E; [ | discriminate ].
  intros _. split; [ discriminate | ]. eapply digits_value_digits; eauto.
Qed.

Lemma span_digits_spec (s : pystr) :
  forall ds rest, span_digits s = (ds, rest) ->
  s = ds ++ rest /\ Forall (fun c => is_digit c = true) ds.
Proof.
  induction s as [ | c s IH ]; intros ds rest; simpl.
  - intros H. inversion H. split; [ reflexivity | constructor ].
  - destruct (is_digit c) eqn:Hc.
    + destruct (span_digits s) as [ ds' rest' ]. intros H. inversion H; subst.
      destruct (IH _ _ eq_refl) as [ -> Hall ]. split; [ reflexivity | now constructor ].
    + intros H. inversion H. split; [ reflexivity | constructor ].
Qed.

(** [float] accepts non-empty strings of decimal digits and dots only. *)
Lemma py_float_chars (s : pystr) (x : float) :
  py_float s = Returned x ->
  s <> [] /\ Forall (fun c => is_digit_or_dot c = true) s.
Proof.
  unfold py_float.
  destruct (span_digits s) as [ ip rest ] eqn:E1.
  apply span_digits_spec in E1 as [ -> Hip ].
  destruct rest as [ | c rest ].
  - rewrite !app_nil_r. destruct ip; [ discriminate | ].
    intros _. split; [ discriminate | now apply digits_are_digits_or_dots ].
  - destruct (N.eqb_spec c chr_dot) as [ -> | Hne ].
    + destruct (span_digits rest) as [ fp trailing ] eqn:E2.
      apply span_digits_spec in E2 as [ -> Hfp ].
      destruct trailing; [ | discriminate ].
      intros _. split; [ destruct ip; discriminate | ].
      apply Forall_app. split; [ now apply digits_are_digits_or_dots | ].
      constructor; [ reflexivity | ].
      rewrite app_nil_r. now apply digits_are_digits_or_dots.
    + discriminate.
Qed.

(** ** The patterns on a DMS token *)

Section Token.

Variables D M S : pystr.
Variable H : codepoint.
Hypothesis D_digits : Forall (fun c => is_digit c = true) D.
Hypothesis M_digits : Forall (fun c => is_digit c = true) M.
Hypothesis S_chars : Forall (fun c => is_digit_or_dot c = true) S.

Lemma token_apostrophes (q : pystr) (c : codepoint) :
  is_digit_or_dot c = false -> c <> chr_degree -> c <> H ->
  count_occ N.eq_dec (dms_token D M S q H) c
  = (count_occ N.eq_dec [chr_apostrophe] c + count_occ N.eq_dec q c)%nat.
Proof.
  intros Hc Hdeg HH. unfold dms_token. rewrite !count_occ_app.
  unfold pystr, codepoint in *.
  assert (Hd : is_digit c = false).
  { unfold is_digit_or_dot in Hc. now apply orb_false_iff in Hc. }
  rewrite (count_occ_class is_digit c D), (count_occ_class is_digit c M),
    (count_occ_class is_digit_or_dot c S) by assumption.
  cbn [count_occ].
  destruct (N.eq_dec chr_degree c); [ congruence | ].
  destruct (N.eq_dec H c); [ congruence | ]. lia.
Qed.

Hypothesis D_nonempty : D <> [].
Hypothesis M_nonempty : M <> [].
Hypothesis S_nonempty : S <> [].
Hypothesis H_letter : is_hemisphere H = true.

Ltac match_step :=
  first
    [ apply match_here_repeat1 with (cls := is_digit);
      [ reflexivity | assumption | assumption | reflexivity | ]
    | apply match_here_repeat1 with (cls := is_digit_or_dot);
      [ reflexivity | assumption | assumption | reflexivity | ]
    | apply match_here_char; [ reflexivity | ]
    | apply match_here_class with (cls := is_hemisphere);
      [ reflexivity | assumption | ]
    | reflexivity ].

Lemma search_double_apostrophe :
  search pattern_double_apostrophe
    (dms_token D M S [chr_apostrophe; chr_apostrophe] H) = Some [D; M; S; [H]].
Proof.
  apply search_here. unfold dms_token, pattern_double_apostrophe.
  change [D; M; S; [H]] with
    (captured (Group (Repeat1 is_digit)) D
       (captured (Bare (Char chr_degree)) [chr_degree]
          (captured (Group (Repeat1 is_digit)) M
             (captured (Bare (Char chr_apostrophe)) [chr_apostrophe]
                (captured (Group (Repeat1 is_digit_or_dot)) S
                   (captured (Bare (Char chr_apostrophe)) [chr_apostrophe]
                      (captured (Bare (Char chr_apostrophe)) [chr_apostrophe]
                         (captured (Group (Class is_hemisphere)) [H] [])))))))).
  simpl app. repeat match_step.
Qed.

Lemma search_double_quote :
  search pattern_double_quote (dms_token D M S [chr_dquote] H) = Some [D; M; S; [H]].
Proof.
  apply search_here. unfold dms_token, pattern_double_quote.
  change [D; M; S; [H]] with
    (captured (Group (Repeat1 is_digit)) D
       (captured (Bare (Char chr_degree)) [chr_degree]
          (captured (Group (Repeat1 is_digit)) M
             (captured (Bare (Char chr_apostrophe)) [chr_apostrophe]
                (captured (Group (Repeat1 is_digit_or_dot)) S
                   (captured (Bare (Char chr_dquote)) [chr_dquote]
                      (captured (Group (Class is_hemisphere)) [H] []))))))).
  simpl app. repeat match_step.
Qed.

Lemma search_single_apostrophe :
  search pattern_single_apostrophe (dms_token D M S [chr_apostrophe] H)
  = Some [D; M; S; [H]].
Proof.
  apply search_here. unfold dms_token, pattern_single_apostrophe.
  change [D; M; S; [H]] with
    (captured (Group (Repeat1 is_digit)) D
       (captured (Bare (Char chr_degree)) [chr_degree]
          (captured (Group (Repeat1 is_digit)) M
             (captured (Bare (Char chr_apostrophe)) [chr_apostrophe]
                (captured (Group (Repeat1 is_digit_or_dot)) S
                   (captured (Bare (Char chr_apostrophe)) [chr_apostrophe]
                      (captured (Group (Class is_hemisphere)) [H] []))))))).
  simpl app. repeat match_step.
Qed.

(** A pattern with more apostrophes or double quotes than the token is
    found nowhere in it. *)
Lemma search_too_many (re : regex) (q : pystr) (c : codepoint) :
  is_digit_or_dot c = false -> c <> chr_degree -> c <> H ->
  (count_occ N.eq_dec [chr_apostrophe] c + count_occ N.eq_dec q c
   < literal_count c re)%nat ->
  search re (dms_token D M S q H) = None.
Proof.
  intros Hc Hdeg HH Hlt.
  destruct (search re (dms_token D M S q H)) as [ m | ] eqn:E; [ | reflexivity ].
  apply search_literals with (c := c) in E.
  rewrite token_apostrophes in E by assumption. lia.
Qed.

(** Whatever the mark, the loop over the patterns ends with the four
    fields of the token. *)
Lemma first_match_token (q : pystr) :
  In q seconds_marks ->
  first_match patterns (dms_token D M S q H) = Some [D; M; S; [H]].
Proof.
  pose proof (hemisphere_not_apostrophe H H_letter) as Ha.
  pose proof (hemisphere_not_dquote H H_letter) as Hq.
  intros [ <- | [ <- | [ <- | [ ] ] ] ]; unfold patterns, first_match.
  - now rewrite search_double_apostrophe.
  - rewrite (search_too_many pattern_double_apostrophe _ chr_apostrophe);
      [ | reflexivity | discriminate | congruence | vm_compute; lia ].
    now rewrite search_double_quote.
  - rewrite (search_too_many pattern_double_apostrophe _ chr_apostrophe);
      [ | reflexivity | discriminate | congruence | vm_compute; lia ].
    rewrite (search_too_many pattern_double_quote _ chr_dquote);
      [ | reflexivity | discriminate | congruence | vm_compute; lia ].
    now rewrite search_single_apostrophe.
Qed.

(** The token has no blank at either end. *)
Lemma strip_token (q : pystr) : strip (dms_token D M S q H) = dms_token D M S q H.
Proof.
  unfold dms_token. destruct D as [ | d D' ]; [ congruence | ].
  inversion D_digits as [ | ? ? Hd _ ]; subst.
  replace ((d :: D') ++ [chr_degree] ++ M ++ [chr_apostrophe] ++ S ++ q ++ [H])
    with (d :: (D' ++ [chr_degree] ++ M ++ [chr_apostrophe] ++ S ++ q) ++ [H])
    by (simpl; repeat (rewrite <- app_assoc || rewrite <- app_comm_cons); reflexivity).
  apply strip_fixed; [ now apply digit_not_space | now apply hemisphere_not_space ].
Qed.

End Token.

(** ** [dms_to_decimal] *)

Lemma dms_to_decimal_blank (s : pystr) :
  strip s = [] -> dms_to_decimal s = (Returned None, []).
Proof.
  intros Hs. unfold dms_to_decimal. rewrite Hs. simpl is_empty.
  now rewrite orb_true_r.
Qed.

Lemma dms_to_decimal_not_blank (s : pystr) :
  strip s <> [] ->
  dms_to_decimal s =
    match first_match patterns (strip s) with
    | None => print (lit "Could not parse: " ++ strip s) ;;; ret None
    | Some m =>
        degrees <- lift (py_int (group m 1)) ;;
        minutes <- lift (py_int (group m 2)) ;;
        seconds <- lift (py_float (group m 3)) ;;
        minutes_60 <- lift (int_true_div minutes 60) ;;
        degrees_f <- lift (float_of_int degrees) ;;
        ret (Some (py_round
                     (if south_or_west (group m 4)
                      then (- (degrees_f + minutes_60 + seconds / 3600))%float
                      else (degrees_f + minutes_60 + seconds / 3600)%float) 8))
    end.
Proof.
  intros Hs. unfold dms_to_decimal.
  assert (Hne : s <> []) by (intros ->; now apply Hs).
  destruct s as [ | c s ]; [ congruence | ].
  destruct (strip (c :: s)) as [ | c' s' ] eqn:E; [ congruence | ].
  reflexivity.
Qed.

(** The function strips its argument, so a stripped argument changes nothing. *)
Lemma dms_to_decimal_strip (s : pystr) : dms_to_decimal (strip s) = dms_to_decimal s.
Proof.
  destruct (list_eq_dec N.eq_dec (strip s) []) as [ E | E ].
  - rewrite (dms_to_decimal_blank s E). apply dms_to_decimal_blank.
    now rewrite strip_idem.
  - rewrite (dms_to_decimal_not_blank s E).
    rewrite dms_to_decimal_not_blank by now rewrite strip_idem.
    now rewrite strip_idem.
Qed.

Lemma dms_to_decimal_unmatched (s : pystr) :
  ~ Forall (fun c => is_space c = true) s ->
  first_match patterns (strip s) = None ->
  dms_to_decimal s = (Returned None, [lit "Could not parse: " ++ strip s]).
Proof.
  intros Hs Hnone. rewrite dms_to_decimal_not_blank.
  - rewrite Hnone. reflexivity.
  - intros E. apply Hs. now apply strip_all_space.
Qed.

(** The sign that each hemisphere letter gives. *)
Lemma signed_by_letter (x : float) :
  signed_by 78%N x = x /\ signed_by 69%N x = x
  /\ signed_by 83%N x = (- x)%float /\ signed_by 87%N x = (- x)%float.
Proof. repeat split. Qed.

(** C1 (as amended). For every token D, degree sign, M, apostrophe, S,
    mark, H where [int] reads D and M, [float] reads S, the mark is one
    of the three accepted ones and H is one of N, S, E, W, and where
    M / 60 and D fit in a float (Python raises [OverflowError] on an
    [int] beyond the largest double), [dms_to_decimal] returns
    D + M/60 + S/3600, negated when H is S or W, rounded to 8 decimal
    places, all in double arithmetic; it prints nothing. *)
Theorem dms_to_decimal_valid_token
    (D M S q : pystr) (H : codepoint)
    (degrees minutes : Z) (seconds minutes_60 degrees_f : float) :
  py_int D = Returned degrees ->
  py_int M = Returned minutes ->
  py_float S = Returned seconds ->
  In q seconds_marks ->
  is_hemisphere H = true ->
  int_true_div minutes 60 = Returned minutes_60 ->
  float_of_int degrees = Returned degrees_f ->
  dms_to_decimal (dms_token D M S q H)
  = (Returned
       (Some (py_round
                (signed_by H (degrees_f + minutes_60 + seconds / 3600)) 8)),
     []).
Proof.
  intros HD HM HS Hq HH Hm60 Hdf.
  destruct (py_int_digits _ _ HD) as [ Dne Ddig ].
  destruct (py_int_digits _ _ HM) as [ Mne Mdig ].
  destruct (py_float_chars _ _ HS) as [ Sne Schars ].
  assert (Hstrip : strip (dms_token D M S q H) = dms_token D M S q H)
    by now apply strip_token.
  rewrite dms_to_decimal_not_blank.
  - rewrite Hstrip, (first_match_token D M S H) by assumption.
    unfold group. cbn [nth Nat.sub].
    rewrite HD, HM, HS. unfold lift. cbn [bind ret app].
    rewrite Hm60. cbn [bind ret app]. rewrite Hdf. reflexivity.
  - rewrite Hstrip. unfold dms_token. destruct D; [ congruence | discriminate ].
Qed.

(** The theorem at the token 33 degrees 47 minutes 40 seconds north. *)
Lemma dms_to_decimal_valid_token_witness :
  dms_to_decimal token_33_47_40_N
  = (Returned
       (Some (py_round
                (signed_by 78%N (33 + nearest_double 47 60 + 40 / 3600)) 8)),
     []).
Proof.
  apply (dms_to_decimal_valid_token (lit "33") (lit "47") (lit "40")
           [chr_apostrophe; chr_apostrophe] 78%N 33 47 40%float
           (nearest_double 47 60) 33%float).
  - vm_compute. reflexivity.
  - vm_compute. reflexivity.
  - vm_compute. reflexivity.
  - left. reflexivity.
  - vm_compute. reflexivity.
  - vm_compute. reflexivity.
  - vm_compute. reflexivity.
Defined.

(** C1, as stated, fails: the token with degrees 1 followed by 400
    zeros is of the first form, [int] reads its degrees as 10 ^ 400,
    and [dms_to_decimal] raises [OverflowError] instead of returning. *)
Lemma dms_to_decimal_huge_degrees :
  py_int (49%N :: repeat 48%N 400) = Returned (10 ^ 400)
  /\ dms_to_decimal token_huge_degrees = (Raised OverflowError, []).
Proof. split; vm_compute; reflexivity. Qed.

(** C2. The token 1 degree 2 minutes 1.2.3 seconds north is not empty
    and matches the first pattern with 1.2.3 as group 3, on which
    [float] raises [ValueError]: [dms_to_decimal] neither returns a
    number nor returns [None]. *)
Theorem dms_to_decimal_two_dots_raises :
  first_match patterns (strip token_two_dots)
  = Some [lit "1"; lit "2"; lit "1.2.3"; lit "N"]
  /\ py_float (lit "1.2.3") = Raised ValueError
  /\ dms_to_decimal token_two_dots = (Raised ValueError, []).
Proof.
  split; [ | split ].
  - vm_compute. reflexivity.
  - vm_compute. reflexivity.
  - rewrite dms_to_decimal_not_blank by (vm_compute; discriminate).
    vm_compute. reflexivity.
Qed.


(** The order of the patterns decides: in a string with two
    coordinates the later one is taken, because it fits the first
    pattern, although the third pattern finds the earlier one. *)
Example precedence_decides :
  search pattern_single_apostrophe token_two_coordinates
  = Some [lit "1"; lit "2"; lit "3"; lit "N"]
  /\ first_match patterns token_two_coordinates
     = Some [lit "4"; lit "5"; lit "6"; lit "S"].
Proof. split; vm_compute; reflexivity. Qed.

(** The two checks at the end of the source, with the values that the
    program prints for them. *)
Example convert_coordinate_string_checks :
  exists lat lng lat' lng',
    py_float (lit "33.79444444") = Returned lat
    /\ py_float (lit "89.09083333") = Returned lng
    /\ py_float (lit "32.32022222") = Returned lat'
    /\ py_float (lit "89.66694444") = Returned lng'
    /\ convert_coordinate_string token_33_47_40_N token_89_05_27_W
       = (Returned (Some lat, Some (- lng)%float), [])
    /\ convert_coordinate_string token_32_19_12_8_N token_89_40_01_0_W
       = (Returned (Some lat', Some (- lng')%float), []).
Proof.
  exists (nearest_double 3379444444 (10 ^ 8)), (nearest_double 8909083333 (10 ^ 8)),
    (nearest_double 3232022222 (10 ^ 8)), (nearest_double 8966694444 (10 ^ 8)).
  repeat split; vm_compute; reflexivity.
Qed.

(** C8. An empty or blank token gives [None] and prints nothing; a
    token that is not blank and in which none of the three patterns is
    found gives [None] and prints one line that names the token
    (stripped, as the function has it by then). *)
Theorem dms_to_decimal_no_match :
  (forall s,
     Forall (fun c => is_space c = true) s ->
     dms_to_decimal s = (Returned None, []))
  /\ (forall s,
        ~ Forall (fun c => is_space c = true) s ->
        first_match patterns (strip s) = None ->
        dms_to_decimal s = (Returned None, [lit "Could not parse: " ++ strip s])).
Proof.
  split; intros s Hs.
  - apply dms_to_decimal_blank. now apply strip_all_space.
  - intros Hnone. now apply dms_to_decimal_unmatched.
Qed.

(** The theorem at the empty string, at three spaces and at the word garbage. *)
Lemma dms_to_decimal_no_match_witness :
  dms_to_decimal [] = (Returned None, [])
  /\ dms_to_decimal (lit "   ") = (Returned None, [])
  /\ dms_to_decimal (lit "garbage")
     = (Returned None, [lit "Could not parse: " ++ strip (lit "garbage")]).
Proof.
  split; [ | split ].
  - apply (proj1 dms_to_decimal_no_match). constructor.
  - apply (proj1 dms_to_decimal_no_match). repeat constructor.
  - apply (proj2 dms_to_decimal_no_match).
    + intros H. inversion H as [ | ? ? Hc _ ]. vm_compute in Hc. discriminate.
    + vm_compute. reflexivity.
Defined.

(** The lower-case hemisphere letters n, s, e, w. *)
Lemma lower_case_not_hemisphere (h : codepoint) :
  In h [110; 115; 101; 119]%N ->
  is_hemisphere h = false /\ is_space h = false.
Proof. intros H. each_member H; split; reflexivity. Qed.

(** C9. A token that has a lower-case n, s, e or w where the
    hemisphere letter stands, and is a DMS token otherwise (digits for
    the degrees and the minutes, digits and dots for the seconds, one of
    the three marks), fits none of the patterns: [dms_to_decimal]
    returns [None] and prints that it could not parse the token. *)
Theorem dms_to_decimal_lower_case
    (D M S q : pystr) (h : codepoint) :
  Forall (fun c => is_digit c = true) D ->
  Forall (fun c => is_digit c = true) M ->
  Forall (fun c => is_digit_or_dot c = true) S ->
  In q seconds_marks ->
  In h [110; 115; 101; 119]%N ->
  first_match patterns (strip (dms_token D M S q h)) = None
  /\ dms_to_decimal (dms_token D M S q h)
     = (Returned None, [lit "Could not parse: " ++ strip (dms_token D M S q h)]).
Proof.
  intros HD HM HS Hq Hh.
  destruct (lower_case_not_hemisphere h Hh) as [ Hhemi Hspace ].
  assert (Hno : forall c, In c (dms_token D M S q h) -> is_hemisphere c = false).
  { intros c Hc. unfold dms_token in Hc. rewrite Forall_forall in HD, HM, HS.
    repeat (apply in_app_or in Hc as [ Hc | Hc ]).
    - apply digit_or_dot_not_hemisphere, digit_is_digit_or_dot. auto.
    - destruct Hc as [ <- | [ ] ]. reflexivity.
    - apply digit_or_dot_not_hemisphere, digit_is_digit_or_dot. auto.
    - destruct Hc as [ <- | [ ] ]. reflexivity.
    - apply digit_or_dot_not_hemisphere. auto.
    - destruct Hq as [ <- | [ <- | [ <- | [ ] ] ] ]; each_member Hc.
    - destruct Hc as [ <- | [ ] ]. assumption. }
  assert (Hsearch : forall re,
             In (Group (Class is_hemisphere)) re ->
             search re (strip (dms_token D M S q h)) = None).
  { intros re Hre.
    destruct (search re (strip (dms_token D M S q h))) as [ m | ] eqn:E;
      [ | reflexivity ].
    destruct (search_class_char _ _ _ _ is_hemisphere E Hre eq_refl)
      as (c & Hc & Hcls).
    apply strip_incl, Hno in Hc. congruence. }
  assert (Hfirst : first_match patterns (strip (dms_token D M S q h)) = None).
  { unfold patterns, first_match.
    rewrite !Hsearch; [ reflexivity | .. ]; simpl; tauto. }
  split; [ exact Hfirst | ].
  apply dms_to_decimal_unmatched; [ | exact Hfirst ].
  intros Hall. rewrite Forall_forall in Hall.
  assert (Hin : In h (dms_token D M S q h)).
  { unfold dms_token. repeat (apply in_or_app; right). now left. }
  apply Hall in Hin. congruence.
Qed.

(** ** [convert_coordinates_file] *)

Lemma fst_bind_returned {A B} (m : Py A) (f : A -> Py B) (a : A) :
  fst m = Returned a -> fst (bind m f) = fst (f a).
Proof.
  destruct m as [ r out ]. simpl. intros ->. now destruct (f a).
Qed.

Lemma fst_bind_raised {A B} (m : Py A) (f : A -> Py B) (e : exn) :
  fst m = Raised e -> fst (bind m f) = Raised e.
Proof. destruct m as [ r out ]. simpl. now intros ->. Qed.

Lemma parsed_strip (s : pystr) : parsed (strip s) = parsed s.
Proof. unfold parsed. now rewrite dms_to_decimal_strip. Qed.

Lemma parse_raises_strip (s : pystr) : parse_raises (strip s) = parse_raises s.
Proof. unfold parse_raises. now rewrite dms_to_decimal_strip. Qed.

Lemma parsed_blank (s : pystr) : strip s = [] -> parsed s = None.
Proof. intros H. unfold parsed. now rewrite dms_to_decimal_blank. Qed.

(** Without an exception the function returns what [parsed] says. *)
Lemma parse_returns (s : pystr) :
  parse_raises s = false -> fst (dms_to_decimal s) = Returned (parsed s).
Proof.
  unfold parse_raises, parsed.
  destruct (fst (dms_to_decimal s)) as [ [ x | ] | e ]; congruence.
Qed.

Lemma convert_coordinates_row_skip (row : csv_row) (acc : list (float * float)) :
  short_or_blank row -> convert_coordinates_row row acc = (Returned acc, []).
Proof.
  unfold convert_coordinates_row. intros [ H | [ H | H ] ].
  - apply Nat.leb_gt in H. now rewrite H.
  - rewrite H. simpl. now rewrite andb_false_r.
  - rewrite H. simpl. now rewrite andb_false_r.
Qed.

Lemma row_pair_skip (row : csv_row) : short_or_blank row -> row_pair row = None.
Proof.
  unfold row_pair. destruct row as [ | lat [ | lng row ] ]; try reflexivity.
  intros [ H | [ H | H ] ].
  - simpl in H. lia.
  - simpl in H. now rewrite (parsed_blank lat H).
  - simpl in H. rewrite (parsed_blank lng H). now destruct (parsed lat).
Qed.

Lemma short_or_blank_dec (row : csv_row) :
  short_or_blank row
  \/ exists lat lng rest,
       row = lat :: lng :: rest /\ strip lat <> [] /\ strip lng <> [].
Proof.
  destruct row as [ | lat [ | lng rest ] ].
  - left. left. simpl. lia.
  - left. left. simpl. lia.
  - destruct (list_eq_dec N.eq_dec (strip lat) []) as [ E1 | E1 ].
    + left. right. now left.
    + destruct (list_eq_dec N.eq_dec (strip lng) []) as [ E2 | E2 ].
      * left. right. now right.
      * right. now exists lat, lng, rest.
Qed.

(** One turn of the loop appends the pair of the row, if it has one. *)
Lemma convert_coordinates_row_pair (row : csv_row) (acc : list (float * float)) :
  (forall token, In token (firstn 2 row) -> parse_raises token = false) ->
  fst (convert_coordinates_row row acc) = Returned (acc ++ pair_list row).
Proof.
  intros Hno. unfold pair_list.
  destruct (short_or_blank_dec row) as [ H | (lat & lng & rest & -> & Hlat & Hlng) ].
  - rewrite convert_coordinates_row_skip, row_pair_skip by assumption.
    simpl. now rewrite app_nil_r.
  - unfold convert_coordinates_row. simpl length. simpl nth.
    destruct (strip lat) as [ | c1 s1 ] eqn:E1; [ congruence | ].
    destruct (strip lng) as [ | c2 s2 ] eqn:E2; [ congruence | ].
    cbn [Nat.leb is_empty negb andb]. rewrite <- E1, <- E2.
    assert (R1 : fst (dms_to_decimal (strip lat)) = Returned (parsed lat)).
    { rewrite <- parsed_strip. apply parse_returns.
      rewrite parse_raises_strip. apply Hno. simpl. auto. }
    assert (R2 : fst (dms_to_decimal (strip lng)) = Returned (parsed lng)).
    { rewrite <- parsed_strip. apply parse_returns.
      rewrite parse_raises_strip. apply Hno. simpl. auto. }
    rewrite (fst_bind_returned _ _ _ R1), (fst_bind_returned _ _ _ R2).
    unfold row_pair.
    destruct (parsed lat), (parsed lng); simpl; now rewrite ?app_nil_r.
Qed.

Lemma for_each_rows_pairs (rows : list csv_row) :
  forall acc,
    no_token_raises rows ->
    fst (for_each convert_coordinates_row rows acc) = Returned (acc ++ pairs_of rows).
Proof.
  induction rows as [ | row rows IH ]; intros acc Hno; simpl.
  - now rewrite app_nil_r.
  - rewrite (fst_bind_returned _ _ (acc ++ pair_list row)).
    + rewrite IH.
      * now rewrite app_assoc.
      * intros r t Hr. apply Hno. now right.
    + apply convert_coordinates_row_pair. intros t. apply Hno. now left.
Qed.

Lemma pairs_of_length (rows : list csv_row) :
  (length (pairs_of rows) <= length rows)%nat
  /\ (length (pairs_of rows) = length rows
      <-> forall row, In row rows -> row_pair row <> None).
Proof.
  induction rows as [ | row rows [ IHle IHeq ] ].
  - simpl. split; [ lia | ]. split; [ intros _ r [ ] | reflexivity ].
  - unfold pairs_of in *. cbn [flat_map]. rewrite length_app.
    unfold pair_list at 1 3. destruct (row_pair row) as [ p | ] eqn:E; simpl.
    + split; [ lia | ]. split.
      * intros H r [ <- | Hr ]; [ congruence | ]. apply IHeq; [ lia | assumption ].
      * intros H. f_equal. apply IHeq. intros r Hr. apply H. now right.
    + split; [ lia | ]. split; [ lia | ].
      intros H. exfalso. apply (H row); [ now left | assumption ].
Qed.

(** C3 (as amended). On rows none of whose tokens makes
    [dms_to_decimal] raise, the pair converter returns exactly the
    pairs of the rows whose first two columns both parse, in the order
    of the rows; so it returns at most as many pairs as there are rows,
    and as many exactly when both tokens of every row parse. *)
Theorem convert_coordinates_file_pairs (header : csv_row) (rows : list csv_row) :
  no_token_raises rows ->
  fst (convert_coordinates_file (header :: rows)) = Returned (pairs_of rows)
  /\ (length (pairs_of rows) <= length rows)%nat
  /\ (length (pairs_of rows) = length rows
      <-> forall row, In row rows -> row_pair row <> None).
Proof.
  intros Hno. split; [ | apply pairs_of_length ].
  unfold convert_coordinates_file.
  now rewrite for_each_rows_pairs.
Qed.

(** C10. A row with fewer than two columns, or with a blank first or
    second column, leaves the loop as it found it: the list is the
    same, nothing is printed, no token is parsed (so nothing can be
    raised); the converter gives the same result with and without such
    a row. *)
Theorem convert_coordinates_file_skips
    (header row : csv_row) (before after : list csv_row)
    (converted_coords : list (float * float)) :
  short_or_blank row ->
  convert_coordinates_row row converted_coords = (Returned converted_coords, [])
  /\ convert_coordinates_file (header :: before ++ row :: after)
     = convert_coordinates_file (header :: before ++ after).
Proof.
  intros Hrow. split; [ now apply convert_coordinates_row_skip | ].
  unfold convert_coordinates_file. rewrite !for_each_app.
  apply bind_ext. intros acc. cbn [for_each].
  rewrite convert_coordinates_row_skip by assumption.
  apply bind_ret_l.
Qed.

(** ** Records *)

Lemma getitem_setitem_same (row : record) (key : pystr) (v w : cell) :
  getitem row key = Returned v -> getitem (setitem row key w) key = Returned w.
Proof.
  destruct row as [ l r ]. unfold getitem, setitem. cbn [items leftover].
  induction l as [ | [ k x ] l IH ]; simpl; [ discriminate | ].
  destruct (pystr_eqb k key) eqn:E; simpl; rewrite E; auto.
Qed.

Lemma getitem_setitem_other (row : record) (key key' : pystr) (w : cell) :
  key' <> key -> getitem (setitem row key w) key' = getitem row key'.
Proof.
  intros Hne. destruct row as [ l r ]. unfold getitem, setitem. cbn [items leftover].
  induction l as [ | [ k x ] l IH ]; simpl.
  - now rewrite pystr_eqb_neq by congruence.
  - destruct (pystr_eqb k key) eqn:E; simpl.
    + apply pystr_eqb_eq in E. subst k. now rewrite pystr_eqb_neq by congruence.
    + now rewrite IH.
Qed.

(** An assignment to a key that the row has leaves the keys, their
    order and the fields left over as they are. *)
Lemma setitem_keys (row : record) (key : pystr) (v w : cell) :
  getitem row key = Returned v ->
  keys (setitem row key w) = keys row
  /\ leftover (setitem row key w) = leftover row.
Proof.
  destruct row as [ l r ]. unfold getitem, setitem, keys. cbn [items leftover].
  intros H. split; [ | reflexivity ]. f_equal.
  induction l as [ | [ k x ] l IH ]; simpl in *; [ discriminate | ].
  destruct (pystr_eqb k key) eqn:E; simpl; [ reflexivity | ].
  now rewrite IH.
Qed.

(** ** [convert_firetower_csv] *)

Lemma bind_lift_returned {A B} (a : A) (f : A -> Py B) :
  bind (lift (Returned a)) f = f a.
Proof. apply bind_ret_l. Qed.

(** What [writerows] does with one row. *)
Lemma dict_to_list_outcome (names : list pystr) (rowdict : record) :
  (dict_to_list (Some names) rowdict ;;; ret tt)
  = match wrong_fields names rowdict with
    | [] => ret tt
    | _ :: _ => raise ValueError
    end.
Proof.
  unfold dict_to_list. now destruct (wrong_fields names rowdict).
Qed.

(** The rows that [writerows] accepts are those without a wrong field. *)
Lemma writerows_accepts (names : list pystr) (rowdicts : list record) :
  Forall (fun row => wrong_fields names row = []) rowdicts ->
  writerows (Some names) rowdicts = (Returned tt, []).
Proof.
  unfold writerows. induction 1 as [ | row rowdicts Hrow _ IH ]; [ reflexivity | ].
  cbn [for_each]. rewrite dict_to_list_outcome, Hrow, bind_ret_l. exact IH.
Qed.

Lemma writerows_returned
    (names : list pystr) (rowdicts : list record) (u : unit) (out : list pystr) :
  writerows (Some names) rowdicts = (Returned u, out) ->
  Forall (fun row => wrong_fields names row = []) rowdicts.
Proof.
  unfold writerows.
  induction rowdicts as [ | row rowdicts IH ]; [ constructor | ].
  cbn [for_each]. rewrite dict_to_list_outcome.
  destruct (wrong_fields names row) eqn:Hrow; [ | discriminate ].
  rewrite bind_ret_l. intros H. constructor; [ exact Hrow | now apply IH ].
Qed.

(** A row with a wrong field stops [writerows], after the rows before
    it have been accepted. *)
Lemma writerows_refuses (names : list pystr) (before after : list record) (row : record) :
  Forall (fun row => wrong_fields names row = []) before ->
  wrong_fields names row <> [] ->
  writerows (Some names) (before ++ row :: after) = (Raised ValueError, []).
Proof.
  unfold writerows. intros Hbefore Hrow.
  induction Hbefore as [ | r before Hr _ IH ].
  - cbn [app for_each]. rewrite dict_to_list_outcome.
    destruct (wrong_fields names row); [ congruence | reflexivity ].
  - cbn [app for_each]. rewrite dict_to_list_outcome, Hr, bind_ret_l. exact IH.
Qed.

(** The test of the source on a cell is [filled]. *)
Lemma truthy_filled (v : cell) :
  truthy v && negb (is_empty (strip match v with Some s => s | None => [] end))
  = filled v.
Proof. destruct v as [ [ | c s ] | ]; reflexivity. Qed.

Section FiretowerLemmas.

Variable str_of_float : float -> pystr.

(** What one of the two blocks has done when it is over. *)
Lemma convert_field_returned
    (key : pystr) (row : record) (cc ec : nat)
    (row' : record) (cc' ec' : nat) (out : list pystr) :
  convert_field str_of_float key row cc ec = (Returned (row', cc', ec'), out) ->
  (keys row' = keys row /\ leftover row' = leftover row)
  /\ (forall k, k <> key -> getitem row' k = getitem row k)
  /\ (cc' + ec' = cc + ec + filled_count row key)%nat
  /\ (forall s, getitem row key = Returned (Some s) -> parsed s = None ->
                getitem row' key = Returned (Some s)).
Proof.
  unfold convert_field, filled_count.
  destruct (getitem row key) as [ v | e ] eqn:Hv; [ | discriminate ].
  rewrite bind_lift_returned, truthy_filled.
  destruct (filled v) eqn:Hf.
  - destruct v as [ s | ]; [ | discriminate ].
    intros H. apply bind_inv in H as (decimal & out1 & out2 & Hd & H & ->).
    destruct decimal as [ x | ].
    + inversion H; subst. repeat split.
      * eapply setitem_keys; eauto.
      * intros k Hk. now apply getitem_setitem_other.
      * lia.
      * intros s0 Hs0 Hnone. inversion Hs0; subst s0.
        rewrite <- parsed_strip in Hnone. unfold parsed in Hnone.
        rewrite Hd in Hnone. discriminate.
    + apply bind_inv in H as (oid & out3 & out4 & _ & H & ->).
      apply bind_inv in H as (u & out5 & out6 & _ & H & ->).
      inversion H; subst. repeat split; try reflexivity; try lia; auto.
      intros s0 Hs0 _. now rewrite <- Hs0.
  - intros H. inversion H; subst. repeat split; try reflexivity; try lia; auto.
    intros s0 Hs0 _. now rewrite <- Hs0.
Qed.

(** One block returns on a record that has the key and [objectid],
    when the cell can be parsed without an exception. *)
Lemma convert_field_returns
    (key : pystr) (row : record) (cc ec : nat) (v oid : cell) :
  getitem row key = Returned v ->
  getitem row (lit "objectid") = Returned oid ->
  (forall s, v = Some s -> parse_raises s = false) ->
  exists res out, convert_field str_of_float key row cc ec = (Returned res, out).
Proof.
  intros Hv Hoid Hparse. unfold convert_field.
  rewrite Hv, bind_lift_returned, truthy_filled.
  destruct (filled v) eqn:Hf; [ | eexists; eexists; reflexivity ].
  destruct v as [ s | ]; [ | discriminate ].
  specialize (Hparse s eq_refl). rewrite <- parse_raises_strip in Hparse.
  apply parse_returns in Hparse.
  destruct (dms_to_decimal (strip s)) as [ r out1 ]. simpl in Hparse. subst r.
  destruct (parsed (strip s)) as [ x | ].
  - eexists; eexists; reflexivity.
  - cbn [bind]. rewrite Hoid, bind_lift_returned.
    eexists; eexists; reflexivity.
Qed.

Lemma latitude_longitude : lit "latitude" <> lit "longitude".
Proof. discriminate. Qed.

Lemma objectid_latitude : lit "objectid" <> lit "latitude".
Proof. discriminate. Qed.

Lemma objectid_longitude : lit "objectid" <> lit "longitude".
Proof. discriminate. Qed.

(** What one turn of the loop has done when it is over. *)
Lemma convert_firetower_row_returned
    (row : record) (vars vars' : counters) (out : list pystr) :
  convert_firetower_row str_of_float row vars = (Returned vars', out) ->
  exists row',
    rows vars' = rows vars ++ [row']
    /\ same_frame row row'
    /\ failures_kept row row'
    /\ (conversion_count vars' + error_count vars'
        = conversion_count vars + error_count vars
          + (filled_count row (lit "latitude")
             + filled_count row (lit "longitude")))%nat.
Proof.
  unfold convert_firetower_row. intros H.
  apply bind_inv in H as ([ [ row1 cc1 ] ec1 ] & out1 & out2 & H1 & H & ->).
  apply bind_inv in H as ([ [ row2 cc2 ] ec2 ] & out3 & out4 & H2 & H & ->).
  inversion H; subst; clear H. cbn [rows conversion_count error_count].
  apply convert_field_returned in H1 as ((K1 & R1) & O1 & C1 & F1).
  apply convert_field_returned in H2 as ((K2 & R2) & O2 & C2 & F2).
  pose proof latitude_longitude as Hne.
  assert (Hlng : getitem row1 (lit "longitude") = getitem row (lit "longitude"))
    by (apply O1; congruence).
  exists row2. split; [ reflexivity | ]. split; [ | split ].
  - repeat split; [ congruence | congruence | ].
    intros k Hk1 Hk2. rewrite O2, O1 by assumption. reflexivity.
  - intros key s [ <- | [ <- | [ ] ] ] Hs _ Hnone.
    + rewrite O2 by congruence. now apply F1.
    + apply F2; [ | assumption ]. now rewrite Hlng.
  - unfold filled_count in *. rewrite Hlng in C2. lia.
Qed.

Lemma convert_firetower_row_returns (row : record) (vars : counters) :
  well_formed row -> cells_parse row ->
  exists vars' out,
    convert_firetower_row str_of_float row vars = (Returned vars', out).
Proof.
  intros ((oid & Hoid) & (lat & Hlat) & (lng & Hlng)) Hparse.
  unfold convert_firetower_row.
  destruct (convert_field_returns (lit "latitude") row
              (conversion_count vars) (error_count vars) lat oid)
    as ([ [ row1 cc1 ] ec1 ] & out1 & H1); try assumption.
  { intros s ->. apply (Hparse (lit "latitude")); simpl; auto. }
  rewrite H1. cbn [bind].
  apply convert_field_returned in H1 as (_ & O1 & _ & _).
  destruct (convert_field_returns (lit "longitude") row1 cc1 ec1 lng oid)
    as ([ [ row2 cc2 ] ec2 ] & out2 & H2).
  { rewrite O1; [ assumption | ]. pose proof latitude_longitude. congruence. }
  { rewrite O1; [ assumption | ]. apply objectid_latitude. }
  { intros s ->. apply (Hparse (lit "longitude")); simpl; auto. }
  rewrite H2. cbn [bind ret]. eexists; eexists; reflexivity.
Qed.

(** The loop, when it is over. *)
Lemma for_each_firetower_returned (records : list record) :
  forall vars vars' out,
    for_each (convert_firetower_row str_of_float) records vars = (Returned vars', out) ->
    exists new,
      rows vars' = rows vars ++ new
      /\ Forall2 same_frame records new
      /\ Forall2 failures_kept records new
      /\ (conversion_count vars' + error_count vars'
          = conversion_count vars + error_count vars + filled_fields records)%nat.
Proof.
  induction records as [ | row records IH ]; intros vars vars' out; simpl.
  - intros H. inversion H; subst. exists []. rewrite app_nil_r.
    repeat split; try constructor. unfold filled_fields. simpl. lia.
  - intros H. apply bind_inv in H as (vars1 & out1 & out2 & H1 & H & ->).
    apply convert_firetower_row_returned in H1 as (row' & R1 & S1 & F1 & C1).
    apply IH in H as (new & R & S & F & C).
    exists (row' :: new). repeat split.
    + rewrite R, R1, <- app_assoc. reflexivity.
    + now constructor.
    + now constructor.
    + unfold filled_fields in *. simpl. lia.
Qed.

Lemma for_each_firetower_returns (records : list record) :
  forall vars,
    Forall well_formed records -> Forall cells_parse records ->
    exists vars' out,
      for_each (convert_firetower_row str_of_float) records vars = (Returned vars', out).
Proof.
  induction records as [ | row records IH ]; intros vars Hwf Hparse; simpl.
  - eexists; eexists; reflexivity.
  - inversion Hwf; subst. inversion Hparse; subst.
    destruct (convert_firetower_row_returns row vars) as (vars1 & out1 & E1);
      try assumption.
    destruct (IH vars1) as (vars' & out2 & E2); try assumption.
    rewrite E1. cbn [bind]. rewrite E2. eexists; eexists; reflexivity.
Qed.

(** The records that the loop returns are written as the records
    read would be: they have the same keys. *)
Lemma same_frame_writable
    (fieldnames : option (list pystr)) (records new : list record) :
  Forall2 same_frame records new ->
  writable fieldnames records <-> writable fieldnames new.
Proof.
  intros H. unfold writable.
  assert (E : forall names,
             Forall (fun row => wrong_fields names row = []) records
             <-> Forall (fun row => wrong_fields names row = []) new).
  { intros names. induction H as [ | row row' records new (K & _) _ IH ].
    - split; constructor.
    - unfold wrong_fields in *.
      split; intros Hall; inversion Hall; subst; constructor;
        try (now apply IH); congruence. }
  split; intros (names & -> & Hall); exists names; split; auto; now apply E.
Qed.

(** The whole function in terms of its loop. *)
Lemma convert_firetower_csv_loop
    (input_file : pystr) (output_file : option pystr)
    (fieldnames : option (list pystr)) (records : list record)
    (vars : counters) (out : list pystr) :
  for_each (convert_firetower_row str_of_float) records (Counters [] 0 0)
  = (Returned vars, out) ->
  writable fieldnames (rows vars) ->
  convert_firetower_csv str_of_float input_file output_file fieldnames records
  = (Returned (rows vars),
     out ++ summary (conversion_count vars) (error_count vars)
              (match output_file with None => input_file | Some f => f end)).
Proof.
  intros H (names & -> & Hall). unfold convert_firetower_csv.
  rewrite H. cbn [bind writeheader ret].
  rewrite (writerows_accepts names (rows vars) Hall). reflexivity.
Qed.

Lemma convert_firetower_csv_inv
    (input_file : pystr) (output_file : option pystr)
    (fieldnames : option (list pystr)) (records : list record)
    (rows' : list record) (out : list pystr) :
  convert_firetower_csv str_of_float input_file output_file fieldnames records
  = (Returned rows', out) ->
  exists vars out',
    for_each (convert_firetower_row str_of_float) records (Counters [] 0 0)
    = (Returned vars, out')
    /\ rows' = rows vars
    /\ writable fieldnames (rows vars).
Proof.
  unfold convert_firetower_csv. intros H.
  apply bind_inv in H as (vars & out1 & out2 & H1 & H & ->).
  apply bind_inv in H as (u1 & out3 & out4 & Hh & H & ->).
  apply bind_inv in H as (u2 & out5 & out6 & Hw & H & ->).
  exists vars, out1. split; [ assumption | ]. split.
  - cbn in H. inversion H. reflexivity.
  - destruct fieldnames as [ names | ]; [ | discriminate ].
    exists names. split; [ reflexivity | ].
    eapply writerows_returned; eauto.
Qed.

End FiretowerLemmas.

Section FiretowerTheorems.

Variable str_of_float : float -> pystr.

(** C7. Whenever [convert_firetower_csv] returns, the records it
    returns are the records it read, one for one and in order, each
    with the same keys in the same order and with the same cell under
    every key other than [latitude] and [longitude]. *)
Theorem convert_firetower_csv_frame
    (input_file : pystr) (output_file : option pystr)
    (fieldnames : option (list pystr))
    (records rows' : list record) (out : list pystr) :
  convert_firetower_csv str_of_float input_file output_file fieldnames records
  = (Returned rows', out) ->
  Forall2 same_frame records rows'.
Proof.
  intros H. apply convert_firetower_csv_inv in H as (vars & out' & H & -> & _).
  apply for_each_firetower_returned in H as (new & R & S & _ & _).
  simpl in R. now rewrite R.
Qed.

(** C5 (as amended). On records that have the three columns, whose
    coordinates do not make [dms_to_decimal] raise and which
    [csv.DictWriter] accepts, the run returns as many records as it
    read and ends with the summary of two counts whose sum is the
    number of filled latitude and longitude fields. *)
Theorem convert_firetower_csv_counts
    (input_file : pystr) (output_file : option pystr)
    (fieldnames : option (list pystr)) (records : list record) :
  Forall well_formed records ->
  Forall cells_parse records ->
  writable fieldnames records ->
  exists rows' warnings conversion_count error_count,
    convert_firetower_csv str_of_float input_file output_file fieldnames records
    = (Returned rows',
       warnings ++ summary conversion_count error_count
                     (match output_file with None => input_file | Some f => f end))
    /\ (conversion_count + error_count = filled_fields records)%nat
    /\ length rows' = length records.
Proof.
  intros Hwf Hparse Hwrite.
  destruct (for_each_firetower_returns str_of_float records (Counters [] 0 0))
    as (vars & out & H); try assumption.
  exists (rows vars), out, (conversion_count vars), (error_count vars).
  pose proof H as Hloop.
  apply for_each_firetower_returned in H as (new & R & S & _ & C).
  simpl in R, C. split; [ | split; [ exact C | ] ].
  - apply convert_firetower_csv_loop; [ exact Hloop | ].
    rewrite R. now apply (same_frame_writable fieldnames records new).
  - rewrite R. symmetry. eapply Forall2_length; eauto.
Qed.

(** C4 (as amended). On records that have the three columns, whose
    coordinates do not make [dms_to_decimal] raise and which
    [csv.DictWriter] accepts, the run returns one record for each
    record read, in order, and a filled latitude or longitude that
    does not parse is in the returned record as it was in the record
    read. *)
Theorem convert_firetower_csv_keeps_failures
    (input_file : pystr) (output_file : option pystr)
    (fieldnames : option (list pystr)) (records : list record) :
  Forall well_formed records ->
  Forall cells_parse records ->
  writable fieldnames records ->
  exists rows' out,
    convert_firetower_csv str_of_float input_file output_file fieldnames records
    = (Returned rows', out)
    /\ length rows' = length records
    /\ Forall2 failures_kept records rows'.
Proof.
  intros Hwf Hparse Hwrite.
  destruct (for_each_firetower_returns str_of_float records (Counters [] 0 0))
    as (vars & out & H); try assumption.
  exists (rows vars). eexists.
  pose proof H as Hloop.
  apply for_each_firetower_returned in H as (new & R & S & F & _).
  simpl in R. split; [ | split ].
  - apply convert_firetower_csv_loop; [ exact Hloop | ].
    rewrite R. now apply (same_frame_writable fieldnames records new).
  - rewrite R. symmetry. eapply Forall2_length; eauto.
  - now rewrite R.
Qed.

End FiretowerTheorems.

(** ** The theorems at concrete inputs *)

Lemma example_records_well_formed : Forall well_formed example_records.
Proof.
  repeat constructor; eexists; reflexivity.
Qed.

Lemma example_records_parse : Forall cells_parse example_records.
Proof.
  repeat constructor; intros key s [ <- | [ <- | [ ] ] ] H;
    vm_compute in H; inversion H; subst; vm_compute; reflexivity.
Qed.

Lemma example_records_writable : writable example_fieldnames example_records.
Proof.
  eexists. split; [ reflexivity | ]. repeat constructor.
Qed.

(** C7 at the example records. *)
Lemma convert_firetower_csv_frame_witness :
  Forall2 same_frame example_records
    (match fst (convert_firetower_csv float_text (lit "in.csv") None
                  example_fieldnames example_records) with
     | Returned rows' => rows'
     | Raised _ => []
     end).
Proof.
  apply (convert_firetower_csv_frame float_text (lit "in.csv") None
           example_fieldnames example_records _
           (snd (convert_firetower_csv float_text (lit "in.csv") None
                   example_fieldnames example_records))).
  vm_compute. reflexivity.
Defined.

(** C5 at the example records. *)
Lemma convert_firetower_csv_counts_witness :
  exists rows' warnings conversion_count error_count,
    convert_firetower_csv float_text (lit "in.csv") None
      example_fieldnames example_records
    = (Returned rows',
       warnings ++ summary conversion_count error_count (lit "in.csv"))
    /\ (conversion_count + error_count = filled_fields example_records)%nat
    /\ length rows' = length example_records.
Proof.
  apply (convert_firetower_csv_counts float_text (lit "in.csv") None
           example_fieldnames example_records).
  - exact example_records_well_formed.
  - exact example_records_parse.
  - exact example_records_writable.
Defined.

(** C4 at the example records. *)
Lemma convert_firetower_csv_keeps_failures_witness :
  exists rows' out,
    convert_firetower_csv float_text (lit "in.csv") None
      example_fieldnames example_records
    = (Returned rows', out)
    /\ length rows' = length example_records
    /\ Forall2 failures_kept example_records rows'.
Proof.
  apply (convert_firetower_csv_keeps_failures float_text (lit "in.csv") None
           example_fieldnames example_records).
  - exact example_records_well_formed.
  - exact example_records_parse.
  - exact example_records_writable.
Defined.

(** C4, as stated, fails: the first record has a latitude that does
    not parse, the second a latitude on which [dms_to_decimal] raises;
    the run raises and no record is emitted, the first one neither. *)
Lemma convert_firetower_csv_drops_all :
  parsed (lit "garbage") = None
  /\ convert_firetower_csv float_text (lit "in.csv") None
       coordinate_fieldnames records_with_overflow
     = (Raised OverflowError,
        [lit "Could not parse: garbage";
         lit "Warning: Could not convert latitude for 1: garbage"]).
Proof. split; vm_compute; reflexivity. Qed.

(** C5, as stated, fails: on a record whose longitude has two dots in
    its seconds, and on a record whose latitude has the huge degrees,
    the run raises; it returns no record and prints no count. *)
Lemma convert_firetower_csv_no_counts :
  filled_fields records_with_two_dots = 2%nat
  /\ convert_firetower_csv float_text (lit "in.csv") None
       coordinate_fieldnames records_with_two_dots
     = (Raised ValueError, [])
  /\ fst (convert_firetower_csv float_text (lit "in.csv") None
            coordinate_fieldnames records_with_overflow)
     = Raised OverflowError.
Proof. repeat split; vm_compute; reflexivity. Qed.

Lemma example_rows_parse : no_token_raises example_rows.
Proof.
  intros row token Hrow Htoken. unfold example_rows in Hrow.
  repeat (destruct Hrow as [ <- | Hrow ];
          [ simpl in Htoken;
            repeat (destruct Htoken as [ <- | Htoken ];
                    [ vm_compute; reflexivity | ]);
            contradiction | ]).
  contradiction.
Qed.

(** C3 at the example rows. *)
Lemma convert_coordinates_file_pairs_witness :
  fst (convert_coordinates_file ([lit "lat"; lit "lng"] :: example_rows))
  = Returned (pairs_of example_rows)
  /\ (length (pairs_of example_rows) <= length example_rows)%nat
  /\ (length (pairs_of example_rows) = length example_rows
      <-> forall row, In row example_rows -> row_pair row <> None).
Proof.
  apply (convert_coordinates_file_pairs [lit "lat"; lit "lng"] example_rows).
  exact example_rows_parse.
Defined.

(** C3, as stated, fails: with the huge degrees, or with two dots in
    the seconds, in a row, the converter raises and has no output. *)
Lemma convert_coordinates_file_raises :
  fst (convert_coordinates_file
         [[lit "lat"; lit "lng"];
          [token_33_47_40_N; token_89_05_27_W];
          [token_huge_degrees; token_89_05_27_W]]) = Raised OverflowError
  /\ fst (convert_coordinates_file
            [[lit "lat"; lit "lng"];
             [token_33_47_40_N; token_two_dots]]) = Raised ValueError.
Proof. split; vm_compute; reflexivity. Qed.

(** C10 at a row of one column between two rows. *)
Lemma convert_coordinates_file_skips_witness :
  convert_coordinates_row [lit "garbage"] [] = (Returned [], [])
  /\ convert_coordinates_file
       ([lit "lat"; lit "lng"]
        :: [[token_33_47_40_N; token_89_05_27_W]]
           ++ [lit "garbage"] :: [[token_89_05_27_W; token_33_47_40_N]])
     = convert_coordinates_file
         ([lit "lat"; lit "lng"]
          :: [[token_33_47_40_N; token_89_05_27_W]]
             ++ [[token_89_05_27_W; token_33_47_40_N]]).
Proof.
  apply (convert_coordinates_file_skips [lit "lat"; lit "lng"] [lit "garbage"]).
  left. simpl. lia.
Defined.

(** C9 at 33 degrees 47 minutes 40 seconds with a lower-case n. *)
Lemma dms_to_decimal_lower_case_witness :
  first_match patterns
    (strip (dms_token (lit "33") (lit "47") (lit "40")
              [chr_apostrophe; chr_apostrophe] 110%N)) = None
  /\ dms_to_decimal
       (dms_token (lit "33") (lit "47") (lit "40")
          [chr_apostrophe; chr_apostrophe] 110%N)
     = (Returned None,
        [lit "Could not parse: "
         ++ strip (dms_token (lit "33") (lit "47") (lit "40")
                     [chr_apostrophe; chr_apostrophe] 110%N)]).
Proof.
  apply (dms_to_decimal_lower_case (lit "33") (lit "47") (lit "40")
           [chr_apostrophe; chr_apostrophe] 110%N).
  - repeat constructor.
  - repeat constructor.
  - repeat constructor.
  - left. reflexivity.
  - left. reflexivity.
Defined.

(** * Further properties of the code *)

(** ** [dms_to_decimal]: what is never converted *)

Lemma dms_to_decimal_unfound (s : pystr) :
  first_match patterns (strip s) = None ->
  dms_to_decimal s = (Returned None, not_parsed_report s).
Proof.
  intros Hnone. unfold not_parsed_report.
  destruct (list_eq_dec N.eq_dec (strip s) []) as [ E | E ].
  - rewrite E. simpl. now apply dms_to_decimal_blank.
  - rewrite dms_to_decimal_not_blank by assumption. rewrite Hnone.
    destruct (strip s) eqn:Es; [ now destruct E | reflexivity ].
Qed.

Lemma count_occ_strip_le (s : pystr) (c : codepoint) :
  count_occ N.eq_dec (strip s) c = 0%nat \/ In c s.
Proof.
  destruct (in_dec N.eq_dec c (strip s)) as [ Hin | Hout ].
  - right. now apply strip_incl.
  - left. now apply count_occ_not_In.
Qed.

Lemma search_needs_literal (re : regex) (s : pystr) (c : codepoint) :
  (1 <= literal_count c re)%nat -> ~ In c s -> search re (strip s) = None.
Proof.
  intros Hre Hs.
  destruct (search re (strip s)) as [ m | ] eqn:E; [ | reflexivity ].
  apply search_literals with (c := c) in E.
  destruct (count_occ_strip_le s c) as [ H0 | Hin ]; [ | contradiction ].
  unfold codepoint, pystr in *. lia.
Qed.

Lemma search_needs_hemisphere (re : regex) (s : pystr) :
  In (Group (Class is_hemisphere)) re ->
  has_hemisphere s = false -> search re (strip s) = None.
Proof.
  intros Hre Hs.
  destruct (search re (strip s)) as [ m | ] eqn:E; [ | reflexivity ].
  destruct (search_class_char _ _ _ _ is_hemisphere E Hre eq_refl) as (c & Hc & Hcls).
  apply strip_incl in Hc.
  assert (has_hemisphere s = true)
    by (unfold has_hemisphere; apply existsb_exists; eauto).
  congruence.
Qed.

(** X1. A string without a degree sign, or without an apostrophe, or
    without any of the letters N, S, E, W is never converted and never
    makes [dms_to_decimal] raise: the result is [None], and the one
    line printed (none for a blank string) names the stripped string.
    A decimal number such as 33.79444444 is such a string. *)
Theorem dms_to_decimal_needs_marks (s : pystr) :
  ~ In chr_degree s \/ ~ In chr_apostrophe s \/ has_hemisphere s = false ->
  dms_to_decimal s = (Returned None, not_parsed_report s).
Proof.
  intros H. apply dms_to_decimal_unfound.
  unfold patterns, first_match.
  destruct H as [ H | [ H | H ] ].
  - rewrite !(search_needs_literal _ s chr_degree); try assumption;
      try reflexivity; vm_compute; lia.
  - rewrite !(search_needs_literal _ s chr_apostrophe); try assumption;
      try reflexivity; vm_compute; lia.
  - rewrite !search_needs_hemisphere; try assumption; try reflexivity;
      simpl; tauto.
Qed.

(** X1 at the decimal number 33.79444444. *)
Lemma dms_to_decimal_needs_marks_witness :
  dms_to_decimal (lit "33.79444444")
  = (Returned None, not_parsed_report (lit "33.79444444")).
Proof.
  apply (dms_to_decimal_needs_marks (lit "33.79444444")).
  left. intros H. vm_compute in H. intuition discriminate.
Defined.

(** ** [dms_to_decimal]: blanks around the string *)

Lemma lstrip_blank_app (a s : pystr) :
  Forall (fun c => is_space c = true) a -> lstrip (a ++ s) = lstrip s.
Proof.
  induction 1 as [ | c a Hc _ IH ]; simpl; [ reflexivity | ].
  now rewrite Hc.
Qed.

Lemma rstrip_app_blank (s b : pystr) :
  Forall (fun c => is_space c = true) b -> rstrip (s ++ b) = rstrip s.
Proof.
  intros Hb. unfold rstrip. rewrite rev_app_distr.
  rewrite lstrip_blank_app; [ reflexivity | ].
  apply Forall_forall. intros c Hc. apply in_rev in Hc.
  rewrite Forall_forall in Hb. auto.
Qed.

Lemma lstrip_app_kept (s b t : pystr) (c : codepoint) :
  lstrip s = c :: t -> lstrip (s ++ b) = (c :: t) ++ b.
Proof.
  induction s as [ | x s IH ]; simpl; [ discriminate | ].
  destruct (is_space x); [ exact IH | ].
  intros H. inversion H; subst. reflexivity.
Qed.

Lemma strip_padded (a s b : pystr) :
  Forall (fun c => is_space c = true) a ->
  Forall (fun c => is_space c = true) b ->
  strip (a ++ s ++ b) = strip s.
Proof.
  intros Ha Hb. unfold strip. rewrite lstrip_blank_app by assumption.
  destruct (lstrip_head s) as [ E | (c & t & E & Hc) ].
  - assert (Hs : Forall (fun c => is_space c = true) (s ++ b)).
    { apply Forall_app. split; [ now apply lstrip_all_space | assumption ]. }
    apply lstrip_all_space in Hs. now rewrite Hs, E.
  - rewrite (lstrip_app_kept s b t c E), E. now apply rstrip_app_blank.
Qed.

(** X2. Blanks before and after a string do not count: with any
    whitespace characters put in front of it and behind it,
    [dms_to_decimal] gives the same result, raises the same exception
    and prints the same line. *)
Theorem dms_to_decimal_padded (a s b : pystr) :
  Forall (fun c => is_space c = true) a ->
  Forall (fun c => is_space c = true) b ->
  dms_to_decimal (a ++ s ++ b) = dms_to_decimal s.
Proof.
  intros Ha Hb.
  rewrite <- (dms_to_decimal_strip (a ++ s ++ b)), <- (dms_to_decimal_strip s).
  now rewrite strip_padded.
Qed.

(** X2 at the token of the source between a tab and a line end. *)
Lemma dms_to_decimal_padded_witness :
  dms_to_decimal ([9%N; 32%N] ++ token_33_47_40_N ++ [13%N; 10%N])
  = dms_to_decimal token_33_47_40_N.
Proof.
  apply (dms_to_decimal_padded [9%N; 32%N] token_33_47_40_N [13%N; 10%N]);
    repeat constructor.
Defined.

(** ** [dms_to_decimal]: what it prints and what it raises *)

Lemma bind_lift {A B} (r : result A) (f : A -> Py B) :
  bind (lift r) f = match r with
                    | Returned a => f a
                    | Raised e => (Raised e, [])
                    end.
Proof. destruct r; [ apply bind_ret_l | reflexivity ]. Qed.

Lemma py_int_raises (s : pystr) (e : exn) : py_int s = Raised e -> e = ValueError.
Proof.
  unfold py_int. destruct s; [ congruence | ].
  destruct (digits_value 0 (c :: s)); [ | congruence ].
  destruct (int_max_str_digits <? length (c :: s))%nat; congruence.
Qed.

Lemma py_float_raises (s : pystr) (e : exn) : py_float s = Raised e -> e = ValueError.
Proof.
  unfold py_float. destruct (span_digits s) as [ ip rest ].
  destruct (match rest with
            | [] => ([], [])
            | c :: rest' => if (c =? chr_dot)%N then span_digits rest' else ([], rest)
            end) as [ fp trailing ].
  destruct trailing; [ | congruence ].
  destruct (ip ++ fp); [ congruence | ].
  destruct (digits_value 0 (c :: l)); congruence.
Qed.

Lemma int_true_div_raises (a b : Z) (e : exn) :
  int_true_div a b = Raised e -> e = OverflowError.
Proof.
  unfold int_true_div. destruct (is_infinity (nearest_double (Z.abs a) b)); congruence.
Qed.

Lemma float_of_int_raises (n : Z) (e : exn) :
  float_of_int n = Raised e -> e = OverflowError.
Proof.
  unfold float_of_int. destruct (is_infinity (nearest_double (Z.abs n) 1)); congruence.
Qed.

(** The three ways in which a call of [dms_to_decimal] ends. *)
Lemma dms_to_decimal_cases (s : pystr) :
  dms_to_decimal s = (Returned None, not_parsed_report s)
  \/ (exists x, dms_to_decimal s = (Returned (Some x), []))
  \/ (exists e, (e = ValueError \/ e = OverflowError)
                /\ dms_to_decimal s = (Raised e, [])).
Proof.
  destruct (first_match patterns (strip s)) as [ m | ] eqn:Em;
    [ | left; now apply dms_to_decimal_unfound ].
  assert (Hs : strip s <> []) by (intros E; rewrite E in Em; discriminate).
  right. rewrite dms_to_decimal_not_blank by assumption. rewrite Em.
  rewrite bind_lift. destruct (py_int (group m 1)) as [ degrees | e ] eqn:E1;
    [ | apply py_int_raises in E1; right; exists e; auto ].
  rewrite bind_lift. destruct (py_int (group m 2)) as [ minutes | e ] eqn:E2;
    [ | apply py_int_raises in E2; right; exists e; auto ].
  rewrite bind_lift. destruct (py_float (group m 3)) as [ seconds | e ] eqn:E3;
    [ | apply py_float_raises in E3; right; exists e; auto ].
  rewrite bind_lift. destruct (int_true_div minutes 60) as [ m60 | e ] eqn:E4;
    [ | apply int_true_div_raises in E4; right; exists e; auto ].
  rewrite bind_lift. destruct (float_of_int degrees) as [ df | e ] eqn:E5;
    [ | apply float_of_int_raises in E5; right; exists e; auto ].
  left. eexists. reflexivity.
Qed.

(** X3. A call of [dms_to_decimal] ends in one of three ways: it
    returns [None], having printed its one line unless the string is
    blank; or it returns a number, having printed nothing; or it raises
    [ValueError] or [OverflowError] and no other exception, having
    printed nothing. So a line is printed exactly when the result is
    [None] on a string that is not blank. *)
Theorem dms_to_decimal_outcomes (s : pystr) :
  (dms_to_decimal s = (Returned None, not_parsed_report s)
   \/ (exists x, dms_to_decimal s = (Returned (Some x), []))
   \/ dms_to_decimal s = (Raised ValueError, [])
   \/ dms_to_decimal s = (Raised OverflowError, []))
  /\ (snd (dms_to_decimal s) <> []
      <-> fst (dms_to_decimal s) = Returned None /\ strip s <> []).
Proof.
  assert (Hreport : not_parsed_report s <> [] <-> strip s <> []).
  { unfold not_parsed_report. destruct (strip s); simpl; split; congruence. }
  destruct (dms_to_decimal_cases s) as [ H | [ (x & H) | (e & He & H) ] ];
    rewrite H; simpl.
  - split; [ auto | ]. rewrite Hreport. tauto.
  - split; [ eauto | ]. split; [ congruence | intros [ ? _ ]; congruence ].
  - split; [ destruct He; subst; auto | ].
    split; [ congruence | intros [ ? _ ]; congruence ].
Qed.

(** ** [convert_coordinate_string] and the rows of a file *)

(** X4. On a row whose first two columns are not blank, a turn of the
    loop of [convert_coordinates_file] does what
    [convert_coordinate_string] does on the two columns, stripped or
    not: the same lines, the same exception, and the pair is appended
    exactly when both results are numbers. A file of a header and one
    such row gives that pair or the empty list. *)
Theorem convert_coordinates_row_as_string
    (header : csv_row) (lat lng : pystr) (more : csv_row)
    (converted_coords : list (float * float)) :
  strip lat <> [] ->
  strip lng <> [] ->
  convert_coordinates_row (lat :: lng :: more) converted_coords
  = (results <- convert_coordinate_string lat lng ;;
     ret (converted_coords ++ pair_of_results results))
  /\ convert_coordinates_file [header; lat :: lng :: more]
     = (results <- convert_coordinate_string lat lng ;;
        ret (pair_of_results results)).
Proof.
  intros Hlat Hlng.
  assert (Hrow : forall acc,
             convert_coordinates_row (lat :: lng :: more) acc
             = (results <- convert_coordinate_string lat lng ;;
                ret (acc ++ pair_of_results results))).
  { intros acc. unfold convert_coordinates_row, convert_coordinate_string.
    simpl length. simpl nth.
    destruct (strip lat) as [ | c1 s1 ] eqn:E1; [ congruence | ].
    destruct (strip lng) as [ | c2 s2 ] eqn:E2; [ congruence | ].
    cbn [Nat.leb is_empty negb andb]. rewrite <- E1, <- E2.
    rewrite !dms_to_decimal_strip. rewrite bind_assoc.
    apply bind_ext. intros a. rewrite bind_assoc.
    apply bind_ext. intros b. rewrite bind_ret_l.
    destruct a, b; simpl; now rewrite ?app_nil_r. }
  split; [ apply Hrow | ].
  unfold convert_coordinates_file. cbn [for_each].
  rewrite Hrow, bind_assoc. apply bind_ext. intros results.
  now rewrite bind_ret_l.
Qed.

(** X4 at the first pair of tokens that the source checks. *)
Lemma convert_coordinates_row_as_string_witness :
  convert_coordinates_row [token_33_47_40_N; token_89_05_27_W] []
  = (results <- convert_coordinate_string token_33_47_40_N token_89_05_27_W ;;
     ret ([] ++ pair_of_results results))
  /\ convert_coordinates_file
       [[lit "lat"; lit "lng"]; [token_33_47_40_N; token_89_05_27_W]]
     = (results <- convert_coordinate_string token_33_47_40_N token_89_05_27_W ;;
        ret (pair_of_results results)).
Proof.
  apply (convert_coordinates_row_as_string [lit "lat"; lit "lng"]
           token_33_47_40_N token_89_05_27_W [] []).
  - vm_compute. discriminate.
  - vm_compute. discriminate.
Defined.

Lemma for_each_map {A B S} (h : A -> B) (f : A -> S -> Py S) (g : B -> S -> Py S)
    (xs : list A) :
  (forall x v, f x v = g (h x) v) ->
  forall vars, for_each f xs vars = for_each g (map h xs) vars.
Proof.
  intros H. induction xs as [ | x xs IH ]; intros vars; simpl; [ reflexivity | ].
  rewrite H. apply bind_ext. exact IH.
Qed.

(** X5. [convert_coordinates_file] reads the first two columns of
    each row and nothing else: the header row, whatever it holds, and
    every column after the second can be changed or dropped without
    changing the pairs returned, the lines printed or the exception
    raised. *)
Theorem convert_coordinates_file_two_columns
    (header header' : csv_row) (rows : list csv_row) :
  convert_coordinates_file (header :: rows)
  = convert_coordinates_file (header' :: map (firstn 2) rows).
Proof.
  unfold convert_coordinates_file.
  apply for_each_map. intros row acc.
  destruct row as [ | lat [ | lng more ] ]; reflexivity.
Qed.

(** ** [convert_firetower_csv]: the records, the counts and the lines *)

Lemma setitem_same (row : record) (key : pystr) (v : cell) :
  getitem row key = Returned v -> setitem row key v = row.
Proof.
  destruct row as [ l r ]. unfold getitem, setitem. cbn [items leftover].
  intros H. f_equal.
  induction l as [ | [ k x ] l IH ]; simpl in *; [ discriminate | ].
  destruct (pystr_eqb k key) eqn:E.
  - now inversion H.
  - now rewrite IH.
Qed.

Lemma getitem_raises (row : record) (key : pystr) (e : exn) :
  getitem row key = Raised e -> e = KeyError.
Proof.
  destruct row as [ l r ]. unfold getitem. cbn [items].
  induction l as [ | [ k x ] l IH ]; simpl; [ congruence | ].
  destruct (pystr_eqb k key); [ discriminate | exact IH ].
Qed.

Lemma cell_of_returned (row : record) (key : pystr) (v : cell) :
  getitem row key = Returned v -> cell_of row key = v.
Proof. unfold cell_of. now intros ->. Qed.

(** A call that does not raise, with the line it prints. *)
Lemma dms_to_decimal_returns (s : pystr) :
  parse_raises s = false ->
  dms_to_decimal s
  = (Returned (parsed s),
     match parsed s with Some _ => [] | None => not_parsed_report s end).
Proof.
  unfold parse_raises, parsed.
  destruct (dms_to_decimal_cases s) as [ H | [ (x & H) | (e & _ & H) ] ];
    rewrite H; simpl; congruence.
Qed.

Section FiretowerExact.

Variable str_of_float : float -> pystr.

(** One block of the loop body on a cell that can be parsed without an
    exception; [objectid] is needed only when the cell fails. *)
Lemma convert_field_exact
    (key : pystr) (row : record) (cc ec : nat) (v : cell) :
  getitem row key = Returned v ->
  (forall s, v = Some s -> parse_raises s = false) ->
  (cell_fails v = true -> has_key row (lit "objectid")) ->
  convert_field str_of_float key row cc ec
  = (Returned (setitem row key (converted_cell str_of_float v),
               (cc + (if cell_parses v then 1 else 0))%nat,
               (ec + (if cell_fails v then 1 else 0))%nat),
     field_report key row).
Proof.
  intros Hv Hparse Hoid. unfold convert_field, field_report.
  rewrite Hv, bind_lift_returned, truthy_filled, (cell_of_returned _ _ _ Hv).
  unfold cell_parses, cell_fails, converted_cell in *.
  destruct v as [ s | ].
  2: { simpl. rewrite (setitem_same _ _ _ Hv), !Nat.add_0_r. reflexivity. }
  destruct (filled (Some s)) eqn:Hf; cbn [andb] in *.
  2: { cbn [ret]. rewrite (setitem_same _ _ _ Hv), !Nat.add_0_r. reflexivity. }
  specialize (Hparse s eq_refl).
  assert (Hd : dms_to_decimal (strip s)
               = (Returned (parsed s),
                  match parsed s with Some _ => [] | None => not_parsed_report s end)).
  { rewrite dms_to_decimal_strip. now apply dms_to_decimal_returns. }
  rewrite Hd. destruct (parsed s) as [ x | ].
  - cbn [bind ret app]. rewrite Nat.add_0_r, Nat.add_1_r. reflexivity.
  - destruct Hoid as (oid & Hoid); [ reflexivity | ].
    cbn [bind]. rewrite Hoid, bind_lift_returned.
    rewrite (cell_of_returned _ _ _ Hoid), (setitem_same _ _ _ Hv), Nat.add_0_r,
      Nat.add_1_r.
    unfold not_parsed_report. simpl in Hf. apply negb_true_iff in Hf. rewrite Hf.
    reflexivity.
Qed.

(** One block of the loop body on a failing cell of a record without [objectid]. *)
Lemma convert_field_no_objectid
    (key : pystr) (row : record) (cc ec : nat) (v : cell) :
  getitem row key = Returned v ->
  (forall s, v = Some s -> parse_raises s = false) ->
  cell_fails v = true ->
  lacks_key row (lit "objectid") ->
  convert_field str_of_float key row cc ec
  = (Raised KeyError, [lit "Could not parse: " ++ strip (format_cell v)]).
Proof.
  intros Hv Hparse Hfail Hoid. unfold convert_field.
  rewrite Hv, bind_lift_returned, truthy_filled.
  unfold cell_fails in Hfail. destruct v as [ s | ]; [ | discriminate ].
  apply andb_true_iff in Hfail as [ Hf Hnone ]. rewrite Hf.
  specialize (Hparse s eq_refl).
  assert (Hd : dms_to_decimal (strip s)
               = (Returned (parsed s),
                  match parsed s with Some _ => [] | None => not_parsed_report s end)).
  { rewrite dms_to_decimal_strip. now apply dms_to_decimal_returns. }
  rewrite Hd. destruct (parsed s) as [ x | ]; [ discriminate | ].
  cbn [bind]. unfold lacks_key in Hoid. rewrite Hoid. simpl.
  unfold not_parsed_report. simpl in Hf. apply negb_true_iff in Hf. rewrite Hf.
  reflexivity.
Qed.

Lemma cell_of_setitem_other (row : record) (key key' : pystr) (w : cell) :
  key' <> key -> cell_of (setitem row key w) key' = cell_of row key'.
Proof. intros H. unfold cell_of. now rewrite getitem_setitem_other. Qed.

(** One turn of the loop on a record whose coordinates can be parsed
    without an exception, and that has [objectid] if one of them fails. *)
Lemma convert_firetower_row_exact (row : record) (vars : counters) :
  has_key row (lit "latitude") ->
  has_key row (lit "longitude") ->
  cells_parse row ->
  (cell_fails (cell_of row (lit "latitude")) = true
   \/ cell_fails (cell_of row (lit "longitude")) = true ->
   has_key row (lit "objectid")) ->
  convert_firetower_row str_of_float row vars
  = (Returned
       (Counters (rows vars ++ [converted_record str_of_float row])
          (conversion_count vars
           + ((if cell_parses (cell_of row (lit "latitude")) then 1 else 0)
              + (if cell_parses (cell_of row (lit "longitude")) then 1 else 0)))
          (error_count vars
           + ((if cell_fails (cell_of row (lit "latitude")) then 1 else 0)
              + (if cell_fails (cell_of row (lit "longitude")) then 1 else 0)))),
     record_report row).
Proof.
  intros (lat & Hlat) (lng & Hlng) Hparse Hoid.
  pose proof latitude_longitude as Hne.
  rewrite (cell_of_returned _ _ _ Hlat), (cell_of_returned _ _ _ Hlng) in *.
  unfold convert_firetower_row, converted_record, record_report.
  rewrite (convert_field_exact (lit "latitude") row _ _ lat); try assumption.
  2: { intros s ->. apply (Hparse (lit "latitude")); simpl; auto. }
  2: { auto. }
  cbn [bind].
  rewrite (convert_field_exact (lit "longitude") _ _ _ lng).
  - cbn [bind ret app].
    rewrite (cell_of_returned _ _ _ Hlat), (cell_of_returned _ _ _ Hlng).
    rewrite app_nil_r, !Nat.add_assoc.
    unfold field_report at 2.
    rewrite !cell_of_setitem_other by (try congruence; discriminate).
    reflexivity.
  - rewrite getitem_setitem_other by congruence. assumption.
  - intros s ->. apply (Hparse (lit "longitude")); simpl; auto.
  - intros Hf. destruct Hoid as (oid & Hoid); [ auto | ].
    exists oid. rewrite getitem_setitem_other; [ assumption | discriminate ].
Qed.

Lemma well_formed_readable (row : record) : well_formed row -> readable row.
Proof. intros (Hoid & Hlat & Hlng). repeat split; auto. Qed.

(** The loop on such records. *)
Lemma for_each_firetower_exact (records : list record) :
  forall vars,
    Forall readable records ->
    Forall cells_parse records ->
    for_each (convert_firetower_row str_of_float) records vars
    = (Returned
         (Counters (rows vars ++ map (converted_record str_of_float) records)
            (conversion_count vars + count_cells cell_parses records)
            (error_count vars + count_cells cell_fails records)),
       flat_map record_report records).
Proof.
  induction records as [ | row records IH ]; intros vars Hwf Hparse.
  - simpl. unfold count_cells. simpl. rewrite app_nil_r, !Nat.add_0_r.
    now destruct vars.
  - inversion Hwf as [ | ? ? (Hlat & Hlng & Hoid) Hwf' ]; subst.
    inversion Hparse as [ | ? ? Hp Hparse' ]; subst.
    cbn [for_each]. rewrite convert_firetower_row_exact by auto.
    cbn [bind]. rewrite IH by assumption.
    cbn [rows conversion_count error_count map flat_map].
    f_equal. f_equal. unfold count_cells. cbn [map list_sum].
    f_equal; [ now rewrite <- app_assoc | simpl list_sum; lia | simpl list_sum; lia ].
Qed.

(** The converter changes no key of a record that has the two columns. *)
Lemma converted_record_keys (row : record) :
  has_key row (lit "latitude") ->
  has_key row (lit "longitude") ->
  keys (converted_record str_of_float row) = keys row.
Proof.
  intros (lat & Hlat) (lng & Hlng). unfold converted_record.
  destruct (setitem_keys row (lit "latitude") lat
              (converted_cell str_of_float (cell_of row (lit "latitude"))) Hlat)
    as [ K1 _ ].
  rewrite <- K1.
  eapply setitem_keys. rewrite getitem_setitem_other; [ exact Hlng | ].
  pose proof latitude_longitude. congruence.
Qed.

Lemma converted_records_writable
    (fieldnames : option (list pystr)) (records : list record) :
  Forall readable records ->
  writable fieldnames records ->
  writable fieldnames (map (converted_record str_of_float) records).
Proof.
  intros Hread (names & -> & Hall). exists names. split; [ reflexivity | ].
  induction Hread as [ | row records (Hlat & Hlng & _) _ IH ]; [ constructor | ].
  inversion Hall; subst. cbn [map]. constructor; [ | now apply IH ].
  unfold wrong_fields in *. now rewrite converted_record_keys.
Qed.

(** What the write does after the loop. *)
Lemma writerows_outcome (names : list pystr) (rowdicts : list record) :
  writerows (Some names) rowdicts
  = if forallb (fun row => match wrong_fields names row with
                           | [] => true
                           | _ :: _ => false
                           end) rowdicts
    then (Returned tt, [])
    else (Raised ValueError, []).
Proof.
  unfold writerows. induction rowdicts as [ | row rowdicts IH ]; [ reflexivity | ].
  cbn [for_each forallb]. rewrite dict_to_list_outcome.
  destruct (wrong_fields names row); [ | reflexivity ].
  rewrite bind_ret_l. exact IH.
Qed.

Lemma not_writable
    (fieldnames : option (list pystr)) (rowdicts : list record) :
  ~ writable fieldnames rowdicts ->
  (writeheader fieldnames ;;; writerows fieldnames rowdicts)
  = (Raised (match fieldnames with None => TypeError | Some _ => ValueError end), []).
Proof.
  intros Hnot. destruct fieldnames as [ names | ]; [ | reflexivity ].
  cbn [writeheader]. rewrite bind_ret_l, writerows_outcome.
  destruct (forallb _ rowdicts) eqn:E; [ | reflexivity ].
  exfalso. apply Hnot. exists names. split; [ reflexivity | ].
  apply Forall_forall. intros row Hrow.
  rewrite forallb_forall in E. specialize (E row Hrow).
  now destruct (wrong_fields names row).
Qed.

(** The whole run on such records, when [csv.DictWriter] accepts them. *)
Lemma convert_firetower_csv_exact
    (input_file : pystr) (output_file : option pystr)
    (fieldnames : option (list pystr)) (records : list record) :
  Forall readable records ->
  Forall cells_parse records ->
  writable fieldnames records ->
  convert_firetower_csv str_of_float input_file output_file fieldnames records
  = (Returned (map (converted_record str_of_float) records),
     flat_map record_report records
     ++ summary (count_cells cell_parses records) (count_cells cell_fails records)
          (match output_file with None => input_file | Some f => f end)).
Proof.
  intros Hwf Hparse Hwrite.
  apply (converted_records_writable fieldnames records Hwf) in Hwrite.
  destruct Hwrite as (names & -> & Hall).
  unfold convert_firetower_csv.
  rewrite for_each_firetower_exact by assumption.
  cbn [bind rows writeheader ret app].
  rewrite (writerows_accepts names _ Hall). reflexivity.
Qed.

(** The whole run on such records, when [csv.DictWriter] refuses them. *)
Lemma convert_firetower_csv_refused
    (input_file : pystr) (output_file : option pystr)
    (fieldnames : option (list pystr)) (records : list record) :
  Forall readable records ->
  Forall cells_parse records ->
  ~ writable fieldnames records ->
  convert_firetower_csv str_of_float input_file output_file fieldnames records
  = (Raised (match fieldnames with None => TypeError | Some _ => ValueError end),
     flat_map record_report records).
Proof.
  intros Hwf Hparse Hnot.
  assert (Hnot' : ~ writable fieldnames (map (converted_record str_of_float) records)).
  { intros (names & -> & Hall). apply Hnot. exists names. split; [ reflexivity | ].
    clear Hnot Hparse.
    induction Hwf as [ | row records (Hlat & Hlng & _) _ IH ]; [ constructor | ].
    cbn [map] in Hall. inversion Hall; subst. constructor; [ | now apply IH ].
    unfold wrong_fields in *. now rewrite <- (converted_record_keys row). }
  unfold convert_firetower_csv.
  rewrite for_each_firetower_exact by assumption.
  cbn [bind rows app].
  pose proof (not_writable fieldnames _ Hnot') as E.
  destruct fieldnames as [ names | ].
  - cbn [writeheader] in *. rewrite bind_ret_l in E.
    rewrite bind_ret_l. rewrite E. cbn [bind]. now rewrite app_nil_r.
  - cbn [writeheader raise bind]. now rewrite app_nil_r.
Qed.

(** A run that meets a record on which a turn of the loop raises. *)
Lemma convert_firetower_csv_stops
    (input_file : pystr) (output_file : option pystr)
    (fieldnames : option (list pystr))
    (before rest : list record) (row : record) (e : exn) (out : list pystr) :
  Forall readable before ->
  Forall cells_parse before ->
  (forall vars, convert_firetower_row str_of_float row vars = (Raised e, out)) ->
  convert_firetower_csv str_of_float input_file output_file fieldnames
    (before ++ row :: rest)
  = (Raised e, flat_map record_report before ++ out).
Proof.
  intros Hwf Hparse Hrow. unfold convert_firetower_csv.
  rewrite for_each_app, for_each_firetower_exact by assumption.
  cbn [bind for_each]. rewrite Hrow. reflexivity.
Qed.

(** X6. On records that have the two coordinate columns (and
    [objectid] where a coordinate fails), whose coordinates do not
    make [dms_to_decimal] raise and which [csv.DictWriter] accepts
    (there are field names and every key of every record is one of
    them), the run returns the records read, one for one, each with a
    filled coordinate that parses replaced by the text of its number
    and with every other cell, a blank or failing coordinate too, as
    it was read. *)
Theorem convert_firetower_csv_records
    (input_file : pystr) (output_file : option pystr)
    (fieldnames : option (list pystr)) (records : list record) :
  Forall readable records ->
  Forall cells_parse records ->
  writable fieldnames records ->
  fst (convert_firetower_csv str_of_float input_file output_file fieldnames records)
  = Returned (map (converted_record str_of_float) records).
Proof.
  intros Hwf Hparse Hwrite. now rewrite convert_firetower_csv_exact.
Qed.

(** X7. On such records, which [csv.DictWriter] accepts, the run
    prints, record by record and latitude before longitude, two lines
    for each filled coordinate that fails (the line of
    [dms_to_decimal] and a warning with the [objectid] and the cell as
    read) and nothing for the others, then the summary; the count of
    conversions in it is the number of filled coordinates that parse,
    the count of errors the number of those that fail. *)
Theorem convert_firetower_csv_report
    (input_file : pystr) (output_file : option pystr)
    (fieldnames : option (list pystr)) (records : list record) :
  Forall readable records ->
  Forall cells_parse records ->
  writable fieldnames records ->
  snd (convert_firetower_csv str_of_float input_file output_file fieldnames records)
  = flat_map record_report records
    ++ summary (count_cells cell_parses records) (count_cells cell_fails records)
         (match output_file with None => input_file | Some f => f end).
Proof.
  intros Hwf Hparse Hwrite. now rewrite convert_firetower_csv_exact.
Qed.

(** X17. The write comes after the loop and before the summary. On
    records that the loop handles without an exception but that
    [csv.DictWriter] refuses, the run prints the lines of the loop and
    then raises, with no summary and nothing returned: [TypeError]
    when there are no field names (a file without a header line),
    [ValueError] when a record has a key that is no field name (a line
    with more fields than the header). *)
Theorem convert_firetower_csv_unwritable
    (input_file : pystr) (output_file : option pystr)
    (fieldnames : option (list pystr)) (records : list record) :
  Forall readable records ->
  Forall cells_parse records ->
  ~ writable fieldnames records ->
  convert_firetower_csv str_of_float input_file output_file fieldnames records
  = (Raised (match fieldnames with None => TypeError | Some _ => ValueError end),
     flat_map record_report records).
Proof.
  intros Hwf Hparse Hnot. now apply convert_firetower_csv_refused.
Qed.

(** X8. A record without the latitude column stops the run with
    [KeyError] before anything is printed for it; a record with the
    latitude but without the longitude column stops it with [KeyError]
    after the latitude has been handled. The records before it have
    printed their lines, the records after it are not read, and no
    record is returned. *)
Theorem convert_firetower_csv_missing_column
    (input_file : pystr) (output_file : option pystr)
    (fieldnames : option (list pystr))
    (before rest : list record) (row : record) :
  Forall readable before ->
  Forall cells_parse before ->
  (lacks_key row (lit "latitude") ->
   convert_firetower_csv str_of_float input_file output_file fieldnames
     (before ++ row :: rest)
   = (Raised KeyError, flat_map record_report before))
  /\ (has_key row (lit "latitude") ->
      lacks_key row (lit "longitude") ->
      cells_parse row ->
      (cell_fails (cell_of row (lit "latitude")) = true ->
       has_key row (lit "objectid")) ->
      convert_firetower_csv str_of_float input_file output_file fieldnames
        (before ++ row :: rest)
      = (Raised KeyError,
         flat_map record_report before ++ field_report (lit "latitude") row)).
Proof.
  intros Hwf Hparse. split.
  - intros Hlat.
    rewrite (convert_firetower_csv_stops _ _ _ _ _ row KeyError []) by
      (try assumption; intros vars; unfold convert_firetower_row, convert_field;
       unfold lacks_key in Hlat; rewrite Hlat; reflexivity).
    now rewrite app_nil_r.
  - intros (lat & Hlat) Hlng Hp Hoid.
    apply convert_firetower_csv_stops; try assumption.
    intros vars. unfold convert_firetower_row.
    rewrite (convert_field_exact (lit "latitude") row _ _ lat); try assumption.
    + cbn [bind]. unfold convert_field at 1.
      unfold lacks_key in Hlng.
      rewrite getitem_setitem_other by (pose proof latitude_longitude; congruence).
      rewrite Hlng. cbn. now rewrite app_nil_r.
    + intros s ->. apply (Hp (lit "latitude")); simpl; auto.
    + rewrite (cell_of_returned _ _ _ Hlat) in Hoid. exact Hoid.
Qed.

(** X9. [objectid] is looked up only for a coordinate that fails. A
    record without [objectid] whose filled coordinates parse is
    converted like any other. One with a filled coordinate that does
    not parse stops the run with [KeyError]: the lines of the records
    before it have been printed, then the line of [dms_to_decimal] for
    the failing coordinate, and the warning is not printed. *)
Theorem convert_firetower_csv_missing_objectid
    (input_file : pystr) (output_file : option pystr)
    (fieldnames : option (list pystr))
    (before rest : list record) (row : record) :
  Forall readable before ->
  Forall cells_parse before ->
  has_key row (lit "latitude") ->
  has_key row (lit "longitude") ->
  lacks_key row (lit "objectid") ->
  cells_parse row ->
  (cell_fails (cell_of row (lit "latitude")) = false ->
   cell_fails (cell_of row (lit "longitude")) = false ->
   Forall readable rest -> Forall cells_parse rest ->
   writable fieldnames (before ++ row :: rest) ->
   convert_firetower_csv str_of_float input_file output_file fieldnames
     (before ++ row :: rest)
   = (Returned (map (converted_record str_of_float) (before ++ row :: rest)),
      flat_map record_report (before ++ row :: rest)
      ++ summary (count_cells cell_parses (before ++ row :: rest))
           (count_cells cell_fails (before ++ row :: rest))
           (match output_file with None => input_file | Some f => f end)))
  /\ (cell_fails (cell_of row (lit "latitude")) = true ->
      convert_firetower_csv str_of_float input_file output_file fieldnames
        (before ++ row :: rest)
      = (Raised KeyError,
         flat_map record_report before
         ++ [lit "Could not parse: "
             ++ strip (format_cell (cell_of row (lit "latitude")))]))
  /\ (cell_fails (cell_of row (lit "latitude")) = false ->
      cell_fails (cell_of row (lit "longitude")) = true ->
      convert_firetower_csv str_of_float input_file output_file fieldnames
        (before ++ row :: rest)
      = (Raised KeyError,
         flat_map record_report before
         ++ [lit "Could not parse: "
             ++ strip (format_cell (cell_of row (lit "longitude")))])).
Proof.
  intros Hwf Hparse (lat & Hlat) (lng & Hlng) Hoid Hp.
  pose proof latitude_longitude as Hne.
  assert (Plat : forall s, lat = Some s -> parse_raises s = false)
    by (intros s ->; apply (Hp (lit "latitude")); simpl; auto).
  assert (Plng : forall s, lng = Some s -> parse_raises s = false)
    by (intros s ->; apply (Hp (lit "longitude")); simpl; auto).
  rewrite (cell_of_returned _ _ _ Hlat), (cell_of_returned _ _ _ Hlng).
  split; [ | split ].
  - intros Flat Flng Hrest Prest Hwrite.
    apply convert_firetower_csv_exact; [ | | assumption ].
    + apply Forall_app. split; [ assumption | ]. constructor; [ | assumption ].
      repeat split; try (eexists; eassumption).
      rewrite (cell_of_returned _ _ _ Hlat), (cell_of_returned _ _ _ Hlng).
      intros [ H | H ]; congruence.
    + apply Forall_app. split; [ assumption | ]. now constructor.
  - intros Flat.
    apply convert_firetower_csv_stops; try assumption.
    intros vars. unfold convert_firetower_row.
    now rewrite (convert_field_no_objectid (lit "latitude") row _ _ lat).
  - intros Flat Flng.
    replace [lit "Could not parse: " ++ strip (format_cell lng)]
      with ([] ++ [lit "Could not parse: " ++ strip (format_cell lng)])
      by reflexivity.
    apply convert_firetower_csv_stops; try assumption.
    intros vars. unfold convert_firetower_row.
    rewrite (convert_field_exact (lit "latitude") row _ _ lat);
      try assumption; [ | congruence ].
    cbn [bind]. unfold field_report.
    rewrite (cell_of_returned _ _ _ Hlat), Flat.
    rewrite (convert_field_no_objectid (lit "longitude") _ _ _ lng);
      try assumption; [ reflexivity | | ].
    + rewrite getitem_setitem_other by congruence. assumption.
    + unfold lacks_key. rewrite getitem_setitem_other; [ assumption | discriminate ].
Qed.

Hypothesis no_degree_sign : forall x, ~ In chr_degree (str_of_float x).

Lemma without_degree_unparsed (s : pystr) :
  ~ In chr_degree s -> parsed s = None /\ parse_raises s = false.
Proof.
  intros Hs.
  assert (H : dms_to_decimal s = (Returned None, not_parsed_report s)).
  { apply dms_to_decimal_unfound. unfold patterns, first_match.
    rewrite !(search_needs_literal _ s chr_degree); try assumption;
      try reflexivity; vm_compute; lia. }
  unfold parsed, parse_raises. rewrite H. auto.
Qed.

Lemma converted_cell_unparsed (v : cell) :
  cell_parses (converted_cell str_of_float v) = false.
Proof.
  unfold converted_cell, cell_parses. destruct v as [ s | ]; [ | reflexivity ].
  destruct (filled (Some s)) eqn:Hf.
  - destruct (parsed s) as [ x | ] eqn:Hx.
    + destruct (without_degree_unparsed _ (no_degree_sign x)) as [ -> _ ].
      now rewrite andb_false_r.
    + now rewrite Hf, Hx.
  - now rewrite Hf.
Qed.

Lemma converted_cell_fixed (v : cell) :
  cell_parses v = false -> converted_cell str_of_float v = v.
Proof.
  unfold converted_cell, cell_parses. destruct v as [ s | ]; [ | reflexivity ].
  destruct (filled (Some s)); [ | reflexivity ].
  destruct (parsed s); [ discriminate | reflexivity ].
Qed.

Lemma converted_cell_parse (v : cell) :
  (forall s, v = Some s -> parse_raises s = false) ->
  forall s, converted_cell str_of_float v = Some s -> parse_raises s = false.
Proof.
  intros Hv s. unfold converted_cell. destruct v as [ s0 | ]; [ | discriminate ].
  destruct (filled (Some s0)); [ | intros H; inversion H; subst; auto ].
  destruct (parsed s0) as [ x | ].
  - intros H. inversion H; subst.
    apply without_degree_unparsed, no_degree_sign.
  - intros H. inversion H; subst. auto.
Qed.

Lemma converted_record_cells (row : record) :
  has_key row (lit "latitude") ->
  has_key row (lit "longitude") ->
  getitem (converted_record str_of_float row) (lit "latitude")
  = Returned (converted_cell str_of_float (cell_of row (lit "latitude")))
  /\ getitem (converted_record str_of_float row) (lit "longitude")
     = Returned (converted_cell str_of_float (cell_of row (lit "longitude")))
  /\ forall key, key <> lit "latitude" -> key <> lit "longitude" ->
                 getitem (converted_record str_of_float row) key = getitem row key.
Proof.
  intros (lat & Hlat) (lng & Hlng). pose proof latitude_longitude as Hne.
  unfold converted_record. repeat split.
  - rewrite getitem_setitem_other by assumption.
    eapply getitem_setitem_same; eauto.
  - eapply getitem_setitem_same. rewrite getitem_setitem_other by congruence. eauto.
  - intros key H1 H2. now rewrite !getitem_setitem_other by assumption.
Qed.

Lemma converted_record_fixed (row : record) :
  well_formed row ->
  cells_parse row ->
  well_formed (converted_record str_of_float row)
  /\ cells_parse (converted_record str_of_float row)
  /\ converted_record str_of_float (converted_record str_of_float row)
     = converted_record str_of_float row
  /\ cell_parses (cell_of (converted_record str_of_float row) (lit "latitude")) = false
  /\ cell_parses (cell_of (converted_record str_of_float row) (lit "longitude")) = false.
Proof.
  intros ((oid & Hoid) & Hlat & Hlng) Hp.
  destruct (converted_record_cells row Hlat Hlng) as (Clat & Clng & Cother).
  assert (Vlat := cell_of_returned _ _ _ Clat).
  assert (Vlng := cell_of_returned _ _ _ Clng).
  destruct Hlat as (lat & Hlat). destruct Hlng as (lng & Hlng).
  rewrite (cell_of_returned _ _ _ Hlat) in *.
  rewrite (cell_of_returned _ _ _ Hlng) in *.
  repeat split.
  - exists oid. rewrite Cother; [ assumption | discriminate | discriminate ].
  - eexists; eassumption.
  - eexists; eassumption.
  - intros key s [ <- | [ <- | [ ] ] ] Hs.
    + rewrite Clat in Hs. inversion Hs as [ Hc ].
      apply (converted_cell_parse lat); [ | assumption ].
      intros s0 ->. apply (Hp (lit "latitude")); simpl; auto.
    + rewrite Clng in Hs. inversion Hs as [ Hc ].
      apply (converted_cell_parse lng); [ | assumption ].
      intros s0 ->. apply (Hp (lit "longitude")); simpl; auto.
  - unfold converted_record at 1. rewrite Vlat, Vlng.
    rewrite (converted_cell_fixed (converted_cell str_of_float lat))
      by apply converted_cell_unparsed.
    rewrite (converted_cell_fixed (converted_cell str_of_float lng))
      by apply converted_cell_unparsed.
    rewrite (setitem_same _ _ _ Clat). apply (setitem_same _ _ _ Clng).
  - rewrite Vlat. apply converted_cell_unparsed.
  - rewrite Vlng. apply converted_cell_unparsed.
Qed.

(** X10. When the text of a float holds no degree sign, as that of
    Python's [str] does, on records that have the [objectid],
    [latitude] and [longitude] columns, whose coordinates do not make
    [dms_to_decimal] raise and which [csv.DictWriter] accepts, a
    second run on the records that a first run returned converts
    nothing and returns them as they are: its summary counts no
    conversion, and every filled coordinate as an error. *)
Theorem convert_firetower_csv_again
    (input_file : pystr) (output_file : option pystr)
    (fieldnames : option (list pystr)) (records : list record) :
  Forall well_formed records ->
  Forall cells_parse records ->
  writable fieldnames records ->
  fst (convert_firetower_csv str_of_float input_file output_file fieldnames records)
  = Returned (map (converted_record str_of_float) records)
  /\ convert_firetower_csv str_of_float input_file output_file fieldnames
       (map (converted_record str_of_float) records)
     = (Returned (map (converted_record str_of_float) records),
        flat_map record_report (map (converted_record str_of_float) records)
        ++ summary 0
             (count_cells cell_fails (map (converted_record str_of_float) records))
             (match output_file with None => input_file | Some f => f end)).
Proof.
  intros Hwf Hparse Hwrite.
  assert (Hread : Forall readable records)
    by (revert Hwf; apply Forall_impl; exact well_formed_readable).
  split.
  - rewrite convert_firetower_csv_exact; [ reflexivity | | | ]; assumption.
  - assert (H : Forall (fun row =>
                          well_formed (converted_record str_of_float row)
                          /\ cells_parse (converted_record str_of_float row)
                          /\ converted_record str_of_float
                               (converted_record str_of_float row)
                             = converted_record str_of_float row
                          /\ cell_parses (cell_of (converted_record str_of_float row)
                                            (lit "latitude")) = false
                          /\ cell_parses (cell_of (converted_record str_of_float row)
                                            (lit "longitude")) = false) records).
    { rewrite Forall_forall in Hwf, Hparse. apply Forall_forall. intros row Hrow.
      apply converted_record_fixed; auto. }
    apply (converted_records_writable fieldnames records Hread) in Hwrite.
    clear Hwf Hparse Hread.
    rewrite convert_firetower_csv_exact.
    + clear Hwrite. f_equal; [ f_equal | f_equal; f_equal ].
      * induction H as [ | row records (_ & _ & Hfix & _) _ IH ];
          [ reflexivity | ]. simpl. now rewrite Hfix, IH.
      * unfold count_cells.
        induction H as [ | row records (_ & _ & _ & H1 & H2) _ IH ];
          [ reflexivity | ]. simpl. now rewrite H1, H2, IH.
    + apply Forall_forall. intros r Hr. apply in_map_iff in Hr as (row & <- & Hrow).
      rewrite Forall_forall in H. apply well_formed_readable. now apply H.
    + apply Forall_forall. intros r Hr. apply in_map_iff in Hr as (row & <- & Hrow).
      rewrite Forall_forall in H. now apply H.
    + exact Hwrite.
Qed.

End FiretowerExact.

Lemma example_records_all_readable : Forall readable example_records.
Proof.
  apply (Forall_impl _ well_formed_readable). exact example_records_well_formed.
Qed.

Lemma records_without_objectid_readable : Forall readable records_without_objectid.
Proof.
  repeat constructor; try (eexists; reflexivity);
    vm_compute; intros [ H | H ]; discriminate.
Qed.

Lemma records_without_objectid_parse : Forall cells_parse records_without_objectid.
Proof.
  repeat constructor; intros key s [ <- | [ <- | [ ] ] ] H;
    vm_compute in H; inversion H; subst; vm_compute; reflexivity.
Qed.

Lemma records_without_objectid_writable :
  writable name_fieldnames records_without_objectid.
Proof.
  eexists. split; [ reflexivity | ]. repeat constructor.
Qed.

Lemma record_without_objectid_parse :
  cells_parse record_without_objectid /\ cells_parse record_without_objectid_failing
  /\ cells_parse record_without_longitude.
Proof.
  repeat split; intros key s [ <- | [ <- | [ ] ] ] H;
    vm_compute in H; inversion H; subst; vm_compute; reflexivity.
Qed.

Lemma float_text_no_degree_sign (x : float) : ~ In chr_degree (float_text x).
Proof.
  intros H. simpl in H. repeat (destruct H as [ H | H ]; [ discriminate | ]).
  exact H.
Qed.

(** X6 at the records of a file without an [objectid] column. *)
Lemma convert_firetower_csv_records_witness :
  fst (convert_firetower_csv float_text (lit "in.csv") None
         name_fieldnames records_without_objectid)
  = Returned (map (converted_record float_text) records_without_objectid).
Proof.
  apply (convert_firetower_csv_records float_text (lit "in.csv") None
           name_fieldnames records_without_objectid).
  - exact records_without_objectid_readable.
  - exact records_without_objectid_parse.
  - exact records_without_objectid_writable.
Defined.

(** X7 at the example records. *)
Lemma convert_firetower_csv_report_witness :
  snd (convert_firetower_csv float_text (lit "in.csv") (Some (lit "out.csv"))
         example_fieldnames example_records)
  = flat_map record_report example_records
    ++ summary (count_cells cell_parses example_records)
         (count_cells cell_fails example_records)
         (lit "out.csv").
Proof.
  apply (convert_firetower_csv_report float_text (lit "in.csv") (Some (lit "out.csv"))
           example_fieldnames example_records).
  - exact example_records_all_readable.
  - exact example_records_parse.
  - exact example_records_writable.
Defined.

(** X8 after the example records: a record without latitude, and one
    without longitude whose latitude fails. *)
Lemma convert_firetower_csv_missing_column_witness :
  convert_firetower_csv float_text (lit "in.csv") None example_fieldnames
    (example_records ++ record_without_latitude :: example_records)
  = (Raised KeyError, flat_map record_report example_records)
  /\ convert_firetower_csv float_text (lit "in.csv") None example_fieldnames
       (example_records ++ record_without_longitude :: example_records)
     = (Raised KeyError,
        flat_map record_report example_records
        ++ field_report (lit "latitude") record_without_longitude).
Proof.
  split.
  - apply (proj1 (convert_firetower_csv_missing_column float_text (lit "in.csv") None
                    example_fieldnames
                    example_records example_records record_without_latitude
                    example_records_all_readable example_records_parse)).
    reflexivity.
  - apply (proj2 (convert_firetower_csv_missing_column float_text (lit "in.csv") None
                    example_fieldnames
                    example_records example_records record_without_longitude
                    example_records_all_readable example_records_parse)).
    + eexists; reflexivity.
    + reflexivity.
    + apply record_without_objectid_parse.
    + intros _. eexists; reflexivity.
Defined.

(** X9 in a file without an [objectid] column: a record whose
    coordinates do not fail between two others, and one whose
    longitude fails. *)
Lemma convert_firetower_csv_missing_objectid_witness :
  convert_firetower_csv float_text (lit "in.csv") None name_fieldnames
    (records_without_objectid ++ record_without_objectid :: records_without_objectid)
  = (Returned
       (map (converted_record float_text)
          (records_without_objectid
           ++ record_without_objectid :: records_without_objectid)),
     flat_map record_report
       (records_without_objectid ++ record_without_objectid :: records_without_objectid)
     ++ summary
          (count_cells cell_parses
             (records_without_objectid
              ++ record_without_objectid :: records_without_objectid))
          (count_cells cell_fails
             (records_without_objectid
              ++ record_without_objectid :: records_without_objectid))
          (lit "in.csv"))
  /\ convert_firetower_csv float_text (lit "in.csv") None name_fieldnames
       (records_without_objectid
        ++ record_without_objectid_failing :: records_without_objectid)
     = (Raised KeyError,
        flat_map record_report records_without_objectid
        ++ [lit "Could not parse: "
            ++ strip (format_cell
                        (cell_of record_without_objectid_failing (lit "longitude")))]).
Proof.
  split.
  - apply (proj1 (convert_firetower_csv_missing_objectid float_text (lit "in.csv") None
                    name_fieldnames
                    records_without_objectid records_without_objectid
                    record_without_objectid
                    records_without_objectid_readable records_without_objectid_parse
                    (ex_intro _ _ eq_refl) (ex_intro _ _ eq_refl) eq_refl
                    (proj1 record_without_objectid_parse))).
    + reflexivity.
    + reflexivity.
    + exact records_without_objectid_readable.
    + exact records_without_objectid_parse.
    + eexists. split; [ reflexivity | ]. repeat constructor.
  - apply (proj2 (proj2 (convert_firetower_csv_missing_objectid float_text
                           (lit "in.csv") None name_fieldnames
                           records_without_objectid records_without_objectid
                           record_without_objectid_failing
                           records_without_objectid_readable
                           records_without_objectid_parse
                           (ex_intro _ _ eq_refl) (ex_intro _ _ eq_refl) eq_refl
                           (proj1 (proj2 record_without_objectid_parse))))).
    + reflexivity.
    + reflexivity.
Defined.

(** X10 at the example records. *)
Lemma convert_firetower_csv_again_witness :
  fst (convert_firetower_csv float_text (lit "in.csv") None
         example_fieldnames example_records)
  = Returned (map (converted_record float_text) example_records)
  /\ convert_firetower_csv float_text (lit "in.csv") None example_fieldnames
       (map (converted_record float_text) example_records)
     = (Returned (map (converted_record float_text) example_records),
        flat_map record_report (map (converted_record float_text) example_records)
        ++ summary 0
             (count_cells cell_fails (map (converted_record float_text) example_records))
             (lit "in.csv")).
Proof.
  apply (convert_firetower_csv_again float_text float_text_no_degree_sign
           (lit "in.csv") None example_fieldnames example_records).
  - exact example_records_well_formed.
  - exact example_records_parse.
  - exact example_records_writable.
Defined.

Lemma records_with_leftover_not_writable :
  ~ writable coordinate_fieldnames records_with_leftover.
Proof.
  intros (names & E & Hall). inversion E; subst.
  inversion Hall as [ | ? ? _ Hall' ]; subst.
  inversion Hall' as [ | ? ? Hrow _ ]; subst. discriminate.
Qed.

Lemma records_with_leftover_readable :
  Forall readable records_with_leftover /\ Forall cells_parse records_with_leftover.
Proof.
  split.
  - repeat constructor; try (eexists; reflexivity);
      vm_compute; intros [ H | H ]; discriminate.
  - repeat constructor; intros key s [ <- | [ <- | [ ] ] ] H;
      vm_compute in H; inversion H; subst; vm_compute; reflexivity.
Qed.

(** X17 at a file whose second line has one field more than the
    header, and at a file without a line. *)
Lemma convert_firetower_csv_unwritable_witness :
  convert_firetower_csv float_text (lit "in.csv") None
    coordinate_fieldnames records_with_leftover
  = (Raised ValueError, flat_map record_report records_with_leftover)
  /\ convert_firetower_csv float_text (lit "in.csv") None None []
     = (Raised TypeError, []).
Proof.
  split.
  - apply (convert_firetower_csv_unwritable float_text (lit "in.csv") None
             coordinate_fieldnames records_with_leftover).
    + apply records_with_leftover_readable.
    + apply records_with_leftover_readable.
    + exact records_with_leftover_not_writable.
  - apply (convert_firetower_csv_unwritable float_text (lit "in.csv") None None []).
    + constructor.
    + constructor.
    + intros (names & E & _). discriminate.
Defined.

(** ** [dms_to_decimal]: the hemisphere letter *)

Lemma float_opp_involutive (x : float) : (- - x)%float = x.
Proof.
  apply Prim2SF_inj. rewrite !opp_spec.
  destruct (Prim2SF x); simpl; now rewrite ?negb_involutive.
Qed.

(** Rounding half to even is symmetric: the sign can be changed
    before the rounding or after it. *)
Lemma py_round_opp (x : float) (ndigits : Z) :
  py_round (- x) ndigits = (- py_round x ndigits)%float.
Proof.
  unfold py_round. rewrite opp_spec.
  destruct (Prim2SF x) as [ s | s | | s m e ]; simpl; try reflexivity.
  destruct s; simpl; [ now rewrite float_opp_involutive | reflexivity ].
Qed.

(** What [dms_to_decimal] computes on a token, whatever its fields hold. *)
Lemma dms_to_decimal_token (D M S q : pystr) (H : codepoint) :
  Forall (fun c => is_digit c = true) D ->
  Forall (fun c => is_digit c = true) M ->
  Forall (fun c => is_digit_or_dot c = true) S ->
  D <> [] -> M <> [] -> S <> [] ->
  In q seconds_marks ->
  is_hemisphere H = true ->
  dms_to_decimal (dms_token D M S q H)
  = (degrees <- lift (py_int D) ;;
     minutes <- lift (py_int M) ;;
     seconds <- lift (py_float S) ;;
     minutes_60 <- lift (int_true_div minutes 60) ;;
     degrees_f <- lift (float_of_int degrees) ;;
     ret (Some (py_round
                  (signed_by H (degrees_f + minutes_60 + seconds / 3600)) 8))).
Proof.
  intros Ddig Mdig Schars Dne Mne Sne Hq HH.
  assert (Hstrip : strip (dms_token D M S q H) = dms_token D M S q H)
    by now apply strip_token.
  rewrite dms_to_decimal_not_blank.
  - rewrite Hstrip, (first_match_token D M S H) by assumption. reflexivity.
  - rewrite Hstrip. unfold dms_token. destruct D; [ congruence | discriminate ].
Qed.

(** X11. The hemisphere letter decides the sign and nothing else: on
    two tokens that differ in the letter only, one with N or E and one
    with S or W, [dms_to_decimal] raises the same exception or returns
    numbers of which one is exactly the other with its sign changed. *)
Theorem dms_to_decimal_opposite (D M S q : pystr) (H H' : codepoint) :
  Forall (fun c => is_digit c = true) D ->
  Forall (fun c => is_digit c = true) M ->
  Forall (fun c => is_digit_or_dot c = true) S ->
  D <> [] -> M <> [] -> S <> [] ->
  In q seconds_marks ->
  In H [78; 69]%N ->
  In H' [83; 87]%N ->
  dms_to_decimal (dms_token D M S q H')
  = (x <- dms_to_decimal (dms_token D M S q H) ;; ret (opposite x)).
Proof.
  intros Ddig Mdig Schars Dne Mne Sne Hq HH HH'.
  assert (E : is_hemisphere H = true /\ is_hemisphere H' = true
              /\ forall x, signed_by H x = x /\ signed_by H' x = (- x)%float).
  { destruct HH as [ <- | [ <- | [ ] ] ]; destruct HH' as [ <- | [ <- | [ ] ] ];
      repeat split. }
  destruct E as (E1 & E2 & Esign).
  rewrite !dms_to_decimal_token by assumption.
  destruct (py_int D) as [ degrees | e ]; [ | reflexivity ].
  destruct (py_int M) as [ minutes | e ]; [ | reflexivity ].
  destruct (py_float S) as [ seconds | e ]; [ | reflexivity ].
  unfold lift. cbn [bind ret app fst snd].
  destruct (int_true_div minutes 60) as [ minutes_60 | e ]; [ | reflexivity ].
  cbn [bind ret app fst snd].
  destruct (float_of_int degrees) as [ degrees_f | e ]; [ | reflexivity ].
  cbn [bind ret app fst snd opposite].
  destruct (Esign (degrees_f + minutes_60 + seconds / 3600)%float) as [ -> -> ].
  now rewrite py_round_opp.
Qed.

(** X11 at the token of the source, north and south. *)
Lemma dms_to_decimal_opposite_witness :
  dms_to_decimal (dms_token (lit "33") (lit "47") (lit "40")
                    [chr_apostrophe; chr_apostrophe] 83%N)
  = (x <- dms_to_decimal token_33_47_40_N ;; ret (opposite x)).
Proof.
  apply (dms_to_decimal_opposite (lit "33") (lit "47") (lit "40")
           [chr_apostrophe; chr_apostrophe] 78%N 83%N);
    try (repeat constructor); try discriminate; simpl; auto.
Defined.

(** ** [dms_to_decimal]: a token inside other text *)

Lemma search_cons_none (re : regex) (c : codepoint) (s : pystr) :
  match_here re (c :: s) = None -> search re (c :: s) = search re s.
Proof.
  intros H.
  change (search re (c :: s))
    with (match match_here re (c :: s) with
          | Some m => Some m
          | None => search re s
          end).
  now rewrite H.
Qed.

Lemma search_without_literal (re : regex) (s : pystr) (c : codepoint) :
  (1 <= literal_count c re)%nat -> ~ In c s -> search re s = None.
Proof.
  intros Hre Hs.
  destruct (search re s) as [ m | ] eqn:E; [ | reflexivity ].
  apply search_literals with (c := c) in E.
  apply (count_occ_not_In N.eq_dec) in Hs.
  unfold codepoint, pystr in *. lia.
Qed.

Lemma capture_none (p : piece) (text : pystr) : capture p text None = None.
Proof. now destruct p. Qed.

Lemma match_here_char_other (p : piece) (c x : codepoint) (re : regex) (rest : pystr) :
  node_of p = Char c -> x <> c -> match_here (p :: re) (x :: rest) = None.
Proof.
  intros Hp Hx. simpl. rewrite Hp.
  apply N.eqb_neq in Hx. now rewrite Hx.
Qed.

Lemma match_here_char_none (p : piece) (c x : codepoint) (re : regex) (rest : pystr) :
  node_of p = Char c -> match_here re rest = None ->
  match_here (p :: re) (x :: rest) = None.
Proof.
  intros Hp Hrest. simpl. rewrite Hp, Hrest.
  destruct (x =? c)%N; [ apply capture_none | reflexivity ].
Qed.

(** A repetition fails when what follows it fails after the whole run
    and after every shorter one. *)
Lemma repeat1_none cls k (run : pystr) :
  forall taken rest,
    Forall (fun c => cls c = true) run ->
    stops cls rest ->
    (forall t c r, cls c = true -> k t (c :: r) = None) ->
    (forall t, k t rest = None) ->
    repeat1 cls k taken (run ++ rest) = None.
Proof.
  induction run as [ | c run IH ]; intros taken rest Hall Hstop Hgive Hk.
  - now apply repeat1_stops.
  - inversion Hall as [ | ? ? Hc Hall' ]; subst. simpl. rewrite Hc.
    rewrite IH by assumption.
    destruct run as [ | c' run ]; simpl.
    + apply Hk.
    + inversion Hall' as [ | ? ? Hc' _ ]; subst. now apply Hgive.
Qed.

Lemma match_here_repeat1_fails (p : piece) cls (re : regex) (run rest : pystr) :
  node_of p = Repeat1 cls ->
  Forall (fun x => cls x = true) run ->
  stops cls rest ->
  (forall x r, cls x = true -> match_here re (x :: r) = None) ->
  match_here re rest = None ->
  match_here (p :: re) (run ++ rest) = None.
Proof.
  intros Hp Hall Hstop Hgive Hrest. simpl. rewrite Hp.
  apply repeat1_none; try assumption.
  - intros t x r Hx. rewrite Hgive by assumption. apply capture_none.
  - intros t. rewrite Hrest. apply capture_none.
Qed.

Lemma match_here_repeat1_none (p : piece) cls (c : codepoint) (re : regex)
    (run rest : pystr) :
  node_of p = Repeat1 cls ->
  Forall (fun x => cls x = true) run ->
  stops cls rest ->
  cls c = false ->
  match_here (Bare (Char c) :: re) rest = None ->
  match_here (p :: Bare (Char c) :: re) (run ++ rest) = None.
Proof.
  intros Hp Hall Hstop Hc Hrest.
  apply match_here_repeat1_fails with (cls := cls); try assumption.
  intros x r Hx. apply match_here_char_other with (c := c); [ reflexivity | ].
  intros ->. congruence.
Qed.

Lemma lstrip_app_start (a w : pystr) (c : codepoint) :
  is_space c = false -> lstrip (a ++ c :: w) = lstrip a ++ c :: w.
Proof.
  intros Hc. induction a as [ | x a IH ]; simpl.
  - now rewrite Hc.
  - destruct (is_space x); [ exact IH | reflexivity ].
Qed.

Lemma rstrip_app_end (u b : pystr) (z : codepoint) :
  is_space z = false -> rstrip (u ++ z :: b) = u ++ z :: rstrip b.
Proof.
  intros Hz. unfold rstrip. rewrite rev_app_distr. simpl rev.
  rewrite <- app_assoc. simpl app.
  rewrite lstrip_app_start by assumption.
  rewrite rev_app_distr. simpl rev. rewrite rev_involutive.
  now rewrite <- app_assoc.
Qed.

Lemma rstrip_incl (s : pystr) (c : codepoint) : In c (rstrip s) -> In c s.
Proof.
  unfold rstrip. intros H. apply in_rev in H. apply lstrip_incl in H.
  now apply in_rev in H.
Qed.

(** Around a text that starts and ends with no blank, [strip] strips
    what comes before and what comes after. *)
Lemma strip_around (a b mid : pystr) (c z : codepoint) :
  is_space c = false -> is_space z = false ->
  strip (a ++ (c :: mid ++ [z]) ++ b) = lstrip a ++ (c :: mid ++ [z]) ++ rstrip b.
Proof.
  intros Hc Hz. unfold strip.
  simpl app. rewrite lstrip_app_start by assumption.
  rewrite <- app_assoc. simpl app.
  replace (lstrip a ++ c :: mid ++ z :: b) with ((lstrip a ++ c :: mid) ++ z :: b)
    by now rewrite <- app_assoc.
  rewrite rstrip_app_end by assumption.
  rewrite <- !app_assoc. reflexivity.
Qed.

Lemma match_here_repeat1_start (p : piece) cls (re : regex) (c : codepoint) (s : pystr) :
  node_of p = Repeat1 cls -> cls c = false -> match_here (p :: re) (c :: s) = None.
Proof.
  intros Hp Hc. simpl. rewrite Hp. simpl. now rewrite Hc.
Qed.

(** A pattern that starts with a repetition is not found in text that
    holds no character of the class: the search goes on after it. *)
Lemma search_skip (p : piece) cls (re : regex) (a s : pystr) :
  node_of p = Repeat1 cls ->
  Forall (fun c => cls c = false) a ->
  search (p :: re) (a ++ s) = search (p :: re) s.
Proof.
  intros Hp. induction 1 as [ | c a Hc _ IH ]; [ reflexivity | ].
  simpl app. rewrite search_cons_none; [ exact IH | ].
  now apply match_here_repeat1_start with (cls := cls).
Qed.

Lemma search_run_fails (re : regex) cls (run rest : pystr) :
  Forall (fun c => cls c = true) run ->
  (forall run', Forall (fun c => cls c = true) run' ->
                match_here re (run' ++ rest) = None) ->
  search re rest = None ->
  search re (run ++ rest) = None.
Proof.
  intros Hrun Hfail Hrest. induction Hrun as [ | c run Hc Hrun IH ]; [ exact Hrest | ].
  simpl app. rewrite search_cons_none; [ exact IH | ].
  apply (Hfail (c :: run)). now constructor.
Qed.

Lemma search_skip_head (tail : regex) (a s : pystr) :
  Forall (fun c => is_digit c = false) a ->
  search (pattern_head ++ tail) (a ++ s) = search (pattern_head ++ tail) s.
Proof.
  intros Ha.
  exact (search_skip (Group (Repeat1 is_digit)) is_digit _ a s eq_refl Ha).
Qed.

Lemma literal_count_head (tail : regex) :
  (1 <= literal_count chr_degree (pattern_head ++ tail))%nat.
Proof.
  unfold literal_count. rewrite filter_app, length_app. simpl. lia.
Qed.

Lemma marks_then_letter (h : codepoint) (b : pystr) :
  is_hemisphere h = true ->
  match_here [Bare (Char chr_apostrophe); Bare (Char chr_apostrophe);
              Group (Class is_hemisphere)]
    (chr_apostrophe :: chr_apostrophe :: h :: b) = Some [[h]]
  /\ match_here [Bare (Char chr_dquote); Group (Class is_hemisphere)]
       (chr_dquote :: h :: b) = Some [[h]]
  /\ match_here [Bare (Char chr_apostrophe); Group (Class is_hemisphere)]
       (chr_apostrophe :: h :: b) = Some [[h]]
  /\ match_here [Bare (Char chr_apostrophe); Bare (Char chr_apostrophe);
                 Group (Class is_hemisphere)]
       (chr_apostrophe :: h :: b) = None.
Proof.
  intros Hh. apply is_hemisphere_letter in Hh.
  destruct Hh as [ <- | [ <- | [ <- | [ <- | [ ] ] ] ] ]; repeat split.
Qed.

Section Embedded.

Variables D M S : pystr.
Variable H : codepoint.
Variables a b : pystr.
Hypothesis D_digits : Forall (fun c => is_digit c = true) D.
Hypothesis M_digits : Forall (fun c => is_digit c = true) M.
Hypothesis S_chars : Forall (fun c => is_digit_or_dot c = true) S.
Hypothesis D_nonempty : D <> [].
Hypothesis M_nonempty : M <> [].
Hypothesis S_nonempty : S <> [].
Hypothesis H_letter : is_hemisphere H = true.
Hypothesis a_no_digit : Forall (fun c => is_digit c = false) a.
Hypothesis b_no_degree : ~ In chr_degree b.

Lemma embedded_token (q : pystr) :
  a ++ dms_token D M S q H ++ b
  = a ++ D ++ chr_degree :: M ++ chr_apostrophe :: S ++ q ++ H :: b.
Proof.
  unfold dms_token. now rewrite <- !app_assoc.
Qed.

Lemma match_here_head_found (tail : regex) (q : pystr) :
  stops is_digit_or_dot (q ++ H :: b) ->
  match_here tail (q ++ H :: b) = Some [[H]] ->
  match_here (pattern_head ++ tail)
    (D ++ chr_degree :: M ++ chr_apostrophe :: S ++ q ++ H :: b)
  = Some [D; M; S; [H]].
Proof.
  intros Hstop Htail. unfold pattern_head. simpl app.
  change [D; M; S; [H]] with
    (captured (Group (Repeat1 is_digit)) D
       (captured (Bare (Char chr_degree)) [chr_degree]
          (captured (Group (Repeat1 is_digit)) M
             (captured (Bare (Char chr_apostrophe)) [chr_apostrophe]
                (captured (Group (Repeat1 is_digit_or_dot)) S [[H]]))))).
  apply match_here_repeat1 with (cls := is_digit);
    [ reflexivity | assumption | assumption | reflexivity | ].
  apply match_here_char; [ reflexivity | ].
  apply match_here_repeat1 with (cls := is_digit);
    [ reflexivity | assumption | assumption | reflexivity | ].
  apply match_here_char; [ reflexivity | ].
  apply match_here_repeat1 with (cls := is_digit_or_dot);
    [ reflexivity | assumption | assumption | assumption | assumption ].
Qed.

Lemma match_here_head_fails (tail : regex) (c : codepoint) (q run : pystr) :
  Forall (fun x => is_digit x = true) run ->
  is_digit_or_dot c = false ->
  stops is_digit_or_dot (q ++ H :: b) ->
  match_here (Bare (Char c) :: tail) (q ++ H :: b) = None ->
  match_here (pattern_head ++ Bare (Char c) :: tail)
    (run ++ chr_degree :: M ++ chr_apostrophe :: S ++ q ++ H :: b) = None.
Proof.
  intros Hrun Hc Hstop Htail. unfold pattern_head. simpl app.
  apply match_here_repeat1_none with (cls := is_digit);
    [ reflexivity | assumption | reflexivity | reflexivity | ].
  apply match_here_char_none with (c := chr_degree); [ reflexivity | ].
  apply match_here_repeat1_none with (cls := is_digit);
    [ reflexivity | assumption | reflexivity | reflexivity | ].
  apply match_here_char_none with (c := chr_apostrophe); [ reflexivity | ].
  apply match_here_repeat1_none with (cls := is_digit_or_dot); try assumption.
  reflexivity.
Qed.

Lemma after_degrees_no_degree (q : pystr) :
  ~ In chr_degree q ->
  ~ In chr_degree (M ++ chr_apostrophe :: S ++ q ++ H :: b).
Proof.
  intros Hq Hin.
  apply in_app_or in Hin as [ Hin | [ Hin | Hin ] ].
  - pose proof M_digits as HM. rewrite Forall_forall in HM.
    apply HM in Hin. discriminate.
  - discriminate.
  - apply in_app_or in Hin as [ Hin | Hin ].
    + pose proof S_chars as HS. rewrite Forall_forall in HS.
      apply HS in Hin. discriminate.
    + apply in_app_or in Hin as [ Hin | [ Hin | Hin ] ]; try contradiction.
      pose proof H_letter as HL. rewrite Hin in HL. discriminate.
Qed.

Lemma search_token_found (tail : regex) (q : pystr) :
  stops is_digit_or_dot (q ++ H :: b) ->
  match_here tail (q ++ H :: b) = Some [[H]] ->
  search (pattern_head ++ tail) (a ++ dms_token D M S q H ++ b)
  = Some [D; M; S; [H]].
Proof.
  intros Hstop Htail. rewrite embedded_token.
  rewrite search_skip_head by assumption.
  apply search_here. now apply match_here_head_found.
Qed.

Lemma search_token_fails (tail : regex) (c : codepoint) (q : pystr) :
  is_digit_or_dot c = false ->
  ~ In chr_degree q ->
  stops is_digit_or_dot (q ++ H :: b) ->
  match_here (Bare (Char c) :: tail) (q ++ H :: b) = None ->
  search (pattern_head ++ Bare (Char c) :: tail) (a ++ dms_token D M S q H ++ b)
  = None.
Proof.
  intros Hc Hq Hstop Htail. rewrite embedded_token.
  rewrite search_skip_head by assumption.
  apply search_run_fails with (cls := is_digit); [ assumption | | ].
  - intros run Hrun. now apply match_here_head_fails.
  - rewrite search_cons_none.
    + apply search_without_literal with (c := chr_degree);
        [ apply literal_count_head | now apply after_degrees_no_degree ].
    + now apply (match_here_head_fails tail c q []).
Qed.

(** The loop over the patterns finds the token, whatever its mark, and
    nothing of what is around it. *)
Lemma first_match_embedded (q : pystr) :
  In q seconds_marks ->
  first_match patterns (a ++ dms_token D M S q H ++ b) = Some [D; M; S; [H]].
Proof.
  destruct (marks_then_letter H b H_letter) as (F1 & F2 & F3 & N1).
  intros [ <- | [ <- | [ <- | [ ] ] ] ]; unfold patterns, first_match.
  - change pattern_double_apostrophe
      with (pattern_head ++ [Bare (Char chr_apostrophe); Bare (Char chr_apostrophe);
                             Group (Class is_hemisphere)]).
    rewrite search_token_found; [ reflexivity | reflexivity | exact F1 ].
  - change pattern_double_apostrophe
      with (pattern_head ++ [Bare (Char chr_apostrophe); Bare (Char chr_apostrophe);
                             Group (Class is_hemisphere)]).
    rewrite search_token_fails;
      [ | reflexivity | intros [ E | [ ] ]; discriminate | reflexivity | reflexivity ].
    change pattern_double_quote
      with (pattern_head ++ [Bare (Char chr_dquote); Group (Class is_hemisphere)]).
    rewrite search_token_found; [ reflexivity | reflexivity | exact F2 ].
  - change pattern_double_apostrophe
      with (pattern_head ++ [Bare (Char chr_apostrophe); Bare (Char chr_apostrophe);
                             Group (Class is_hemisphere)]).
    rewrite search_token_fails;
      [ | reflexivity | intros [ E | [ ] ]; discriminate | reflexivity | exact N1 ].
    change pattern_double_quote
      with (pattern_head ++ [Bare (Char chr_dquote); Group (Class is_hemisphere)]).
    rewrite search_token_fails;
      [ | reflexivity | intros [ E | [ ] ]; discriminate | reflexivity | reflexivity ].
    change pattern_single_apostrophe
      with (pattern_head ++ [Bare (Char chr_apostrophe); Group (Class is_hemisphere)]).
    rewrite search_token_found; [ reflexivity | reflexivity | exact F3 ].
Qed.

End Embedded.

(** X12. The patterns are searched for, not matched against the whole
    string: a token with text before it that holds no digit and text
    after it that holds no degree sign is converted as the token alone
    is, with the same result or the same exception. *)
Theorem dms_to_decimal_embedded (a b D M S q : pystr) (H : codepoint) :
  Forall (fun c => is_digit c = true) D ->
  Forall (fun c => is_digit c = true) M ->
  Forall (fun c => is_digit_or_dot c = true) S ->
  D <> [] -> M <> [] -> S <> [] ->
  In q seconds_marks ->
  is_hemisphere H = true ->
  Forall (fun c => is_digit c = false) a ->
  ~ In chr_degree b ->
  dms_to_decimal (a ++ dms_token D M S q H ++ b)
  = dms_to_decimal (dms_token D M S q H).
Proof.
  intros Ddig Mdig Schars Dne Mne Sne Hq HH Ha Hb.
  assert (Htok : exists d mid, dms_token D M S q H = d :: mid ++ [H]
                               /\ is_space d = false).
  { unfold dms_token. destruct D as [ | d D' ]; [ congruence | ].
    inversion Ddig as [ | ? ? Hd _ ]; subst.
    exists d, (D' ++ [chr_degree] ++ M ++ [chr_apostrophe] ++ S ++ q). split.
    - simpl. repeat (rewrite <- app_assoc || rewrite <- app_comm_cons). reflexivity.
    - now apply digit_not_space. }
  destruct Htok as (d & mid & Etok & Hd).
  assert (Hstrip : strip (a ++ dms_token D M S q H ++ b)
                   = lstrip a ++ dms_token D M S q H ++ rstrip b).
  { rewrite Etok. apply strip_around; [ assumption | now apply hemisphere_not_space ]. }
  rewrite (dms_to_decimal_not_blank (a ++ dms_token D M S q H ++ b)).
  - rewrite Hstrip, first_match_embedded; try assumption.
    + rewrite dms_to_decimal_not_blank.
      * rewrite strip_token, (first_match_token D M S H) by assumption. reflexivity.
      * rewrite strip_token by assumption. rewrite Etok. discriminate.
    + apply Forall_forall. intros c Hc. apply lstrip_incl in Hc.
      rewrite Forall_forall in Ha. auto.
    + intros Hc. apply Hb. now apply rstrip_incl.
  - rewrite Hstrip, Etok. destruct (lstrip a); discriminate.
Qed.

(** X12 at the token of the source inside a sentence. *)
Lemma dms_to_decimal_embedded_witness :
  dms_to_decimal (lit " Tower at " ++ token_33_47_40_N ++ lit ", 300 ft ")
  = dms_to_decimal token_33_47_40_N.
Proof.
  apply (dms_to_decimal_embedded (lit " Tower at ") (lit ", 300 ft ")
           (lit "33") (lit "47") (lit "40") [chr_apostrophe; chr_apostrophe] 78%N);
    try (repeat constructor); try discriminate.
  simpl. intros Hin. repeat (destruct Hin as [ Hin | Hin ]; [ discriminate | ]).
  exact Hin.
Defined.

(** ** The lines and the exceptions of a run *)

Lemma bind_lines {A B} (P : pystr -> Prop) (m : Py A) (f : A -> Py B) :
  Forall P (snd m) ->
  (forall a, fst m = Returned a -> Forall P (snd (f a))) ->
  Forall P (snd (bind m f)).
Proof.
  destruct m as [ [ a | e ] out ]; simpl; intros Hm Hf; [ | assumption ].
  specialize (Hf a eq_refl). destruct (f a) as [ r out' ]. simpl in *.
  apply Forall_app. now split.
Qed.

Lemma bind_raises {A B} (m : Py A) (f : A -> Py B) (e : exn) :
  fst (bind m f) = Raised e ->
  fst m = Raised e \/ exists a, fst m = Returned a /\ fst (f a) = Raised e.
Proof.
  destruct m as [ [ a | e' ] out ]; simpl; [ | intros H; inversion H; now left ].
  destruct (f a) as [ r out' ] eqn:E. simpl. intros ->.
  right. exists a. now rewrite E.
Qed.

Lemma for_each_lines {A S} (P : pystr -> Prop) (body : A -> S -> Py S) (xs : list A) :
  (forall x vars, In x xs -> Forall P (snd (body x vars))) ->
  forall vars, Forall P (snd (for_each body xs vars)).
Proof.
  induction xs as [ | x xs IH ]; intros Hbody vars; simpl; [ constructor | ].
  apply bind_lines.
  - apply Hbody. now left.
  - intros vars' _. apply IH. intros y v Hy. apply Hbody. now right.
Qed.

Lemma for_each_raises {A S} (body : A -> S -> Py S) (xs : list A) (e : exn) :
  forall vars,
    fst (for_each body xs vars) = Raised e ->
    exists x vars', In x xs /\ fst (body x vars') = Raised e.
Proof.
  induction xs as [ | x xs IH ]; intros vars; simpl; [ discriminate | ].
  intros H. apply bind_raises in H as [ H | (vars' & _ & H) ].
  - exists x, vars. auto.
  - apply IH in H as (y & v & Hy & H). exists y, v. auto.
Qed.

Lemma dms_to_decimal_lines (s : pystr) :
  Forall (fun line => strip s <> [] /\ line = lit "Could not parse: " ++ strip s)
    (snd (dms_to_decimal s)).
Proof.
  destruct (dms_to_decimal_cases s) as [ E | [ (x & E) | (e & _ & E) ] ];
    rewrite E; simpl; try constructor.
  unfold not_parsed_report. destruct (strip s) eqn:Es; simpl; repeat constructor.
  discriminate.
Qed.

Lemma dms_to_decimal_number_error (s : pystr) (e : exn) :
  fst (dms_to_decimal s) = Raised e -> number_error e.
Proof.
  destruct (dms_to_decimal_cases s) as [ E | [ (x & E) | (e' & He & E) ] ];
    rewrite E; simpl; try discriminate.
  intros H. inversion H; subst. exact He.
Qed.

Lemma convert_coordinates_row_lines (row : csv_row) (converted_coords : list (float * float)) :
  Forall (parse_line_of [row]) (snd (convert_coordinates_row row converted_coords)).
Proof.
  unfold convert_coordinates_row.
  destruct ((2 <=? length row)%nat && negb (is_empty (strip (nth 0 row [])))
            && negb (is_empty (strip (nth 1 row [])))) eqn:C; [ | constructor ].
  destruct row as [ | lat [ | lng more ] ]; try discriminate. cbn [nth].
  assert (Hline : forall token, In token [lat; lng] ->
            Forall (parse_line_of [lat :: lng :: more])
              (snd (dms_to_decimal (strip token)))).
  { intros token Htoken.
    eapply Forall_impl; [ | apply dms_to_decimal_lines ].
    intros line [ Hne -> ]. rewrite strip_idem in *.
    exists (lat :: lng :: more), token. repeat split; auto. now left. }
  apply bind_lines; [ apply Hline; simpl; auto | ]. intros lat_decimal _.
  apply bind_lines; [ apply Hline; simpl; auto | ]. intros lng_decimal _.
  destruct lat_decimal, lng_decimal; constructor.
Qed.

Lemma convert_coordinates_row_number_error
    (row : csv_row) (converted_coords : list (float * float)) (e : exn) :
  fst (convert_coordinates_row row converted_coords) = Raised e -> number_error e.
Proof.
  unfold convert_coordinates_row.
  destruct ((2 <=? length row)%nat && negb (is_empty (strip (nth 0 row [])))
            && negb (is_empty (strip (nth 1 row [])))); [ | discriminate ].
  intros H. apply bind_raises in H as [ H | (lat_decimal & _ & H) ].
  - now apply dms_to_decimal_number_error in H.
  - apply bind_raises in H as [ H | (lng_decimal & _ & H) ].
    + now apply dms_to_decimal_number_error in H.
    + destruct lat_decimal, lng_decimal; discriminate.
Qed.

(** X13. A run of [convert_coordinates_file] on a file without any line
    raises [StopIteration], from the call that skips the header, and
    prints nothing. On any other file it returns its pairs or raises
    [ValueError] or [OverflowError], and every line it prints is the
    line of [dms_to_decimal] for the first or the second column of a
    row after the header. *)
Theorem convert_coordinates_file_outcomes (table : list csv_row) :
  match table with
  | [] => convert_coordinates_file table = (Raised StopIteration, [])
  | header :: rows =>
      (forall e, fst (convert_coordinates_file table) = Raised e -> number_error e)
      /\ Forall (parse_line_of rows) (snd (convert_coordinates_file table))
  end.
Proof.
  destruct table as [ | header rows ]; [ reflexivity | ].
  unfold convert_coordinates_file. split.
  - intros e H. apply for_each_raises in H as (row & acc & _ & H).
    now apply convert_coordinates_row_number_error in H.
  - apply for_each_lines. intros row acc Hrow.
    eapply Forall_impl; [ | apply convert_coordinates_row_lines ].
    intros line (row' & token & [ <- | [ ] ] & Htoken & Hne & ->).
    now exists row, token.
Qed.

Section FiretowerOutcomes.

Variable str_of_float : float -> pystr.

Lemma convert_field_lines (field : pystr) (row : record) (cc ec : nat) :
  Forall loop_line (snd (convert_field str_of_float field row cc ec)).
Proof.
  unfold convert_field.
  apply bind_lines; [ constructor | ]. intros value _.
  destruct (truthy value && _); [ | constructor ].
  apply bind_lines.
  - eapply Forall_impl; [ | apply dms_to_decimal_lines ].
    intros line [ _ -> ]. eexists. left. reflexivity.
  - intros decimal _. destruct decimal; [ constructor | ].
    apply bind_lines; [ constructor | ]. intros objectid _.
    apply bind_lines; [ | intros; constructor ].
    repeat constructor. eexists. right. reflexivity.
Qed.

Lemma convert_field_error (field : pystr) (row : record) (cc ec : nat) (e : exn) :
  fst (convert_field str_of_float field row cc ec) = Raised e ->
  number_error e \/ e = KeyError.
Proof.
  unfold convert_field. intros H.
  apply bind_raises in H as [ H | (value & _ & H) ].
  - right. now apply getitem_raises in H.
  - destruct (truthy value && _); [ | discriminate ].
    apply bind_raises in H as [ H | (decimal & _ & H) ].
    + left. now apply dms_to_decimal_number_error in H.
    + destruct decimal; [ discriminate | ].
      apply bind_raises in H as [ H | (objectid & _ & H) ].
      * right. now apply getitem_raises in H.
      * discriminate.
Qed.

Lemma convert_firetower_row_lines (row : record) (vars : counters) :
  Forall loop_line (snd (convert_firetower_row str_of_float row vars)).
Proof.
  unfold convert_firetower_row.
  apply bind_lines; [ apply convert_field_lines | ].
  intros [ [ row1 cc1 ] ec1 ] _.
  apply bind_lines; [ apply convert_field_lines | ].
  intros [ [ row2 cc2 ] ec2 ] _. constructor.
Qed.

Lemma convert_firetower_row_error (row : record) (vars : counters) (e : exn) :
  fst (convert_firetower_row str_of_float row vars) = Raised e ->
  number_error e \/ e = KeyError.
Proof.
  unfold convert_firetower_row. intros H.
  apply bind_raises in H as [ H | ([ [ row1 cc1 ] ec1 ] & _ & H) ].
  - now apply convert_field_error in H.
  - apply bind_raises in H as [ H | ([ [ row2 cc2 ] ec2 ] & _ & H) ].
    + now apply convert_field_error in H.
    + discriminate.
Qed.

(** X14. Any run of [convert_firetower_csv] ends in one of two ways.
    It raises [ValueError], [OverflowError], [KeyError] or [TypeError]
    ([TypeError] only when there are no field names), having printed
    lines of the loop only; or it returns as many records as it read,
    which [csv.DictWriter] has accepted, having printed lines of the
    loop and then the summary, whose two counts add up to the number
    of filled coordinates. No line of a summary is a line of the loop,
    so the summary is printed exactly when the run returns. *)
Theorem convert_firetower_csv_outcomes
    (input_file : pystr) (output_file : option pystr)
    (fieldnames : option (list pystr)) (records : list record) :
  (forall e,
      fst (convert_firetower_csv str_of_float input_file output_file
             fieldnames records)
      = Raised e ->
      (number_error e \/ e = KeyError \/ e = TypeError)
      /\ (e = TypeError -> fieldnames = None)
      /\ Forall loop_line
           (snd (convert_firetower_csv str_of_float input_file output_file
                   fieldnames records)))
  /\ (forall rows',
         fst (convert_firetower_csv str_of_float input_file output_file
                fieldnames records)
         = Returned rows' ->
         length rows' = length records
         /\ writable fieldnames records
         /\ exists lines conversion_count error_count,
              snd (convert_firetower_csv str_of_float input_file output_file
                     fieldnames records)
              = lines ++ summary conversion_count error_count
                           (match output_file with None => input_file | Some f => f end)
              /\ Forall loop_line lines
              /\ (conversion_count + error_count = filled_fields records)%nat)
  /\ (forall conversion_count error_count file,
         Forall (fun line => ~ loop_line line)
           (summary conversion_count error_count file)).
Proof.
  assert (Hsummary : forall cc ec file,
             Forall (fun line => ~ loop_line line) (summary cc ec file)).
  { intros cc ec file. unfold summary.
    repeat constructor; intros (s & [ Hs | Hs ]); discriminate. }
  pose proof (for_each_lines loop_line (convert_firetower_row str_of_float) records
                (fun row vars _ => convert_firetower_row_lines row vars)
                (Counters [] 0 0)) as Hlines.
  destruct (for_each (convert_firetower_row str_of_float) records (Counters [] 0 0))
    as [ [ vars | e' ] out ] eqn:E.
  - simpl in Hlines.
    destruct (for_each_firetower_returned str_of_float records _ _ _ E)
      as (new & R & S & _ & C).
    simpl in R, C.
    assert (Hrun : convert_firetower_csv str_of_float input_file output_file
                     fieldnames records
                   = match fieldnames with
                     | None => (Raised TypeError, out)
                     | Some names =>
                         if forallb (fun row => match wrong_fields names row with
                                                | [] => true
                                                | _ :: _ => false
                                                end) (rows vars)
                         then (Returned (rows vars),
                               out ++ summary (conversion_count vars) (error_count vars)
                                        (match output_file with
                                         | None => input_file
                                         | Some f => f
                                         end))
                         else (Raised ValueError, out)
                     end).
    { unfold convert_firetower_csv. rewrite E. cbn [bind].
      destruct fieldnames as [ names | ].
      - cbn [writeheader]. rewrite bind_ret_l, writerows_outcome.
        destruct (forallb _ (rows vars)).
        + reflexivity.
        + cbn [bind]. now rewrite app_nil_r.
      - cbn [writeheader raise bind]. now rewrite app_nil_r. }
    rewrite Hrun. destruct fieldnames as [ names | ].
    + destruct (forallb _ (rows vars)) eqn:Hall.
      * split; [ intros e He; discriminate | ]. split; [ | exact Hsummary ].
        intros rows' Hrows. simpl in Hrows. inversion Hrows; subst rows'.
        split; [ rewrite R; symmetry; eapply Forall2_length; eauto | ].
        split.
        -- apply (same_frame_writable (Some names) records new S).
           exists names. split; [ reflexivity | ]. rewrite <- R.
           apply Forall_forall. intros row Hrow.
           rewrite forallb_forall in Hall. specialize (Hall row Hrow).
           now destruct (wrong_fields names row).
        -- exists out, (conversion_count vars), (error_count vars). auto.
      * split; [ | split; [ intros rows' Hrows; discriminate | exact Hsummary ] ].
        intros e He. simpl in He. inversion He; subst e.
        split; [ left; now left | ]. split; [ discriminate | exact Hlines ].
    + split; [ | split; [ intros rows' Hrows; discriminate | exact Hsummary ] ].
      intros e He. simpl in He. inversion He; subst e.
      split; [ right; now right | ]. split; [ reflexivity | exact Hlines ].
  - assert (Hrun : convert_firetower_csv str_of_float input_file output_file
                     fieldnames records
                   = (Raised e', out)).
    { unfold convert_firetower_csv. now rewrite E. }
    rewrite Hrun.
    split; [ | split; [ intros rows' Hrows; discriminate | exact Hsummary ] ].
    intros e He. simpl in He. inversion He; subst e.
    destruct (for_each_raises _ records e' (Counters [] 0 0)
                (f_equal fst E)) as (row & vars & _ & Hrow).
    apply convert_firetower_row_error in Hrow.
    split; [ destruct Hrow as [ Hrow | Hrow ]; auto | ].
    split; [ | exact Hlines ].
    intros ->. destruct Hrow as [ [ Hrow | Hrow ] | Hrow ]; discriminate.
Qed.

End FiretowerOutcomes.

(** ** [convert_coordinates_file]: the lines, and files put end to end *)

Lemma not_parsed_report_strip (s : pystr) :
  not_parsed_report (strip s) = not_parsed_report s.
Proof. unfold not_parsed_report. now rewrite strip_idem. Qed.

Lemma dms_to_decimal_strip_returns (s : pystr) :
  parse_raises s = false ->
  dms_to_decimal (strip s) = (Returned (parsed s), token_report s).
Proof.
  intros H. rewrite dms_to_decimal_returns by now rewrite parse_raises_strip.
  unfold token_report. now rewrite parsed_strip, not_parsed_report_strip.
Qed.

Lemma convert_coordinates_row_exact (row : csv_row) (acc : list (float * float)) :
  (forall token, In token (firstn 2 row) -> parse_raises token = false) ->
  convert_coordinates_row row acc = (Returned (acc ++ pair_list row), row_report row).
Proof.
  intros Hno. unfold pair_list.
  destruct (short_or_blank_dec row) as [ H | (lat & lng & rest & -> & Hlat & Hlng) ].
  - rewrite convert_coordinates_row_skip, row_pair_skip by assumption.
    rewrite app_nil_r. f_equal.
    destruct row as [ | lat [ | lng rest ] ]; try reflexivity.
    destruct H as [ H | [ H | H ] ]; simpl in H; [ lia | | ];
      unfold row_report; rewrite H; simpl; now rewrite ?orb_true_r.
  - unfold convert_coordinates_row, row_report. simpl length. simpl nth.
    rewrite !dms_to_decimal_strip_returns by (apply Hno; simpl; auto).
    destruct (strip lat) as [ | c1 s1 ]; [ congruence | ].
    destruct (strip lng) as [ | c2 s2 ]; [ congruence | ].
    cbn [Nat.leb is_empty negb andb orb bind].
    unfold row_pair.
    destruct (parsed lat), (parsed lng); simpl; now rewrite ?app_nil_r.
Qed.

Lemma for_each_rows_exact (rows : list csv_row) :
  forall acc,
    no_token_raises rows ->
    for_each convert_coordinates_row rows acc
    = (Returned (acc ++ pairs_of rows), flat_map row_report rows).
Proof.
  induction rows as [ | row rows IH ]; intros acc Hno; simpl.
  - now rewrite app_nil_r.
  - rewrite convert_coordinates_row_exact
      by (intros t Ht; apply (Hno row); [ now left | assumption ]).
    cbn [bind]. rewrite IH by (intros r t Hr; apply Hno; now right).
    unfold pairs_of. cbn [flat_map]. now rewrite app_assoc.
Qed.

(** X15. When no token makes [dms_to_decimal] raise, a run of
    [convert_coordinates_file] prints, row by row, the line of
    [dms_to_decimal] for each of the two columns that is not converted,
    first column first, and nothing for a row that is skipped. A second
    column is parsed, and reported, also when the first has failed. *)
Theorem convert_coordinates_file_report (header : csv_row) (rows : list csv_row) :
  no_token_raises rows ->
  snd (convert_coordinates_file (header :: rows)) = flat_map row_report rows.
Proof.
  intros Hno. unfold convert_coordinates_file.
  now rewrite for_each_rows_exact.
Qed.

(** X15 at the example rows. *)
Lemma convert_coordinates_file_report_witness :
  snd (convert_coordinates_file ([lit "lat"; lit "lng"] :: example_rows))
  = flat_map row_report example_rows.
Proof.
  apply (convert_coordinates_file_report [lit "lat"; lit "lng"] example_rows).
  exact example_rows_parse.
Defined.

Lemma convert_coordinates_row_acc (row : csv_row) (acc : list (float * float)) :
  convert_coordinates_row row acc
  = (pairs <- convert_coordinates_row row [] ;; ret (acc ++ pairs)).
Proof.
  unfold convert_coordinates_row.
  destruct ((2 <=? length row)%nat && negb (is_empty (strip (nth 0 row [])))
            && negb (is_empty (strip (nth 1 row [])))).
  - destruct (dms_to_decimal (strip (nth 0 row []))) as [ [ [ lat | ] | e ] out1 ];
      destruct (dms_to_decimal (strip (nth 1 row []))) as [ [ [ lng | ] | e' ] out2 ];
      simpl; rewrite ?app_nil_r; reflexivity.
  - simpl. now rewrite app_nil_r.
Qed.

Lemma for_each_rows_acc (rows : list csv_row) :
  forall acc,
    for_each convert_coordinates_row rows acc
    = (pairs <- for_each convert_coordinates_row rows [] ;; ret (acc ++ pairs)).
Proof.
  induction rows as [ | row rows IH ]; intros acc.
  - simpl. now rewrite app_nil_r.
  - cbn [for_each]. rewrite convert_coordinates_row_acc, !bind_assoc.
    apply bind_ext. intros pairs. rewrite bind_ret_l.
    rewrite (IH (acc ++ pairs)), (IH pairs), bind_assoc.
    apply bind_ext. intros pairs'. rewrite bind_ret_l. now rewrite app_assoc.
Qed.

(** X16. Two files put end to end give the pairs of the first followed
    by those of the second, and the lines of the first followed by
    those of the second; an exception of the first ends the run before
    the second is read. The rows do not depend on one another. *)
Theorem convert_coordinates_file_concat
    (header header' : csv_row) (rows rows' : list csv_row) :
  convert_coordinates_file (header :: rows ++ rows')
  = (pairs <- convert_coordinates_file (header :: rows) ;;
     pairs' <- convert_coordinates_file (header' :: rows') ;;
     ret (pairs ++ pairs')).
Proof.
  unfold convert_coordinates_file. rewrite for_each_app.
  apply bind_ext. intros pairs. apply for_each_rows_acc.
Qed.

(** ** [csv.DictReader] and [csv.DictWriter] *)

Lemma items_set_keys (d : list (pystr * cell)) (key k : pystr) (v : cell) :
  In k (map fst (items_set d key v)) -> k = key \/ In k (map fst d).
Proof.
  induction d as [ | [ k0 x ] d IH ]; simpl.
  - intros [ H | [ ] ]. now left.
  - destruct (pystr_eqb k0 key) eqn:E; simpl.
    + tauto.
    + intros [ H | H ]; [ tauto | ]. apply IH in H. tauto.
Qed.

Lemma dict_of_zip_keys (fieldnames : list pystr) (row : csv_row) :
  forall d k,
    In k (map fst (dict_of_zip fieldnames row d)) ->
    In k fieldnames \/ In k (map fst d).
Proof.
  revert row. induction fieldnames as [ | key fieldnames IH ]; intros row d k; simpl.
  - tauto.
  - destruct row as [ | field row ]; [ tauto | ].
    intros H. apply IH in H as [ H | H ]; [ tauto | ].
    apply items_set_keys in H as [ -> | H ]; auto.
Qed.

Lemma fold_items_set_keys (names : list pystr) :
  forall d k,
    In k (map fst (fold_left (fun d key => items_set d key None) names d)) ->
    In k names \/ In k (map fst d).
Proof.
  induction names as [ | key names IH ]; intros d k; simpl.
  - tauto.
  - intros H. apply IH in H as [ H | H ]; [ tauto | ].
    apply items_set_keys in H as [ -> | H ]; auto.
Qed.

(** Every string key of a row of the reader is a field name. *)
Lemma reader_row_keys (fieldnames : list pystr) (row : csv_row) (k : pystr) :
  In k (map fst (items (reader_row fieldnames row))) -> In k fieldnames.
Proof.
  unfold reader_row. destruct (length fieldnames <? length row)%nat; cbn [items].
  - intros H. apply dict_of_zip_keys in H as [ H | [ ] ]. exact H.
  - intros H. apply fold_items_set_keys in H as [ H | H ].
    + rewrite <- (firstn_skipn (length row) fieldnames).
      apply in_or_app. now right.
    + apply dict_of_zip_keys in H as [ H | [ ] ]. exact H.
Qed.

Lemma reader_row_leftover (fieldnames : list pystr) (row : csv_row) :
  leftover (reader_row fieldnames row) = None
  <-> (length row <= length fieldnames)%nat.
Proof.
  unfold reader_row.
  destruct (length fieldnames <? length row)%nat eqn:E; cbn [leftover].
  - apply Nat.ltb_lt in E. split; [ discriminate | lia ].
  - apply Nat.ltb_ge in E. split; [ intros _; exact E | reflexivity ].
Qed.

(** A row has no wrong field when it has no fields left over and all
    its string keys are field names. *)
Lemma wrong_fields_nil (names : list pystr) (row : record) :
  wrong_fields names row = []
  <-> leftover row = None /\ forall k, In k (map fst (items row)) -> In k names.
Proof.
  unfold wrong_fields, keys. rewrite filter_app. split.
  - intros H. apply app_eq_nil in H as [ H1 H2 ]. split.
    + destruct (leftover row); [ discriminate | reflexivity ].
    + intros k Hk.
      assert (Hin : In (Some k) (map (fun item => Some (fst item)) (items row))).
      { apply in_map_iff in Hk as (item & <- & Hitem).
        apply in_map_iff. now exists item. }
      destruct (existsb (pystr_eqb k) names) eqn:E.
      * apply existsb_exists in E as (x & Hx & Heq).
        apply pystr_eqb_eq in Heq. now subst.
      * assert (Hf : In (Some k)
                       (filter (fun key => match key with
                                           | Some k0 => negb (existsb (pystr_eqb k0) names)
                                           | None => true
                                           end)
                          (map (fun item => Some (fst item)) (items row)))).
        { apply filter_In. split; [ assumption | ]. now rewrite E. }
        rewrite H1 in Hf. destruct Hf.
  - intros [ Hrest Hkeys ]. rewrite Hrest. simpl. rewrite app_nil_r.
    induction (items row) as [ | [ k0 x ] l IH ]; [ reflexivity | ].
    simpl. assert (E : existsb (pystr_eqb k0) names = true).
    { apply existsb_exists. exists k0. split; [ apply Hkeys; now left | ].
      apply pystr_eqb_refl. }
    rewrite E. simpl. apply IH. intros k Hk. apply Hkeys. now right.
Qed.

(** X18. The rows that [csv.DictReader] makes are accepted by the
    [csv.DictWriter] set up with the reader's field names exactly when
    the file has a first line and no line after it has more fields
    than that line. A file without a line, or with one longer line,
    is a file whose run ends in the exception of the write if the
    loop has not raised before. *)
Theorem DictReader_writable (table : list csv_row) :
  writable (fst (DictReader table)) (snd (DictReader table))
  <-> exists header lines,
        table = header :: lines
        /\ Forall (fun line => (length line <= length header)%nat) lines.
Proof.
  destruct table as [ | header lines ]; simpl.
  - split.
    + intros (names & E & _). discriminate.
    + intros (header & lines & E & _). discriminate.
  - split.
    + intros (names & E & Hall). inversion E; subst names.
      exists header, lines. split; [ reflexivity | ].
      apply Forall_forall. intros line Hline.
      destruct line as [ | field line ]; [ simpl; lia | ].
      apply reader_row_leftover.
      rewrite Forall_forall in Hall.
      apply (wrong_fields_nil header). apply Hall.
      apply in_map. apply filter_In. now split.
    + intros (header' & lines' & E & Hall). inversion E; subst header' lines'.
      exists header. split; [ reflexivity | ].
      apply Forall_forall. intros row Hrow.
      apply in_map_iff in Hrow as (line & <- & Hline).
      apply filter_In in Hline as [ Hline _ ].
      apply wrong_fields_nil. split.
      * apply reader_row_leftover. rewrite Forall_forall in Hall. now apply Hall.
      * intros k. apply reader_row_keys.
Qed.
